(** * Insurance_db: the OCR text parsers of [src/ocr]

    A shallow embedding of the three per-type parsers
    ([debit_note_parser.py], [account_statement_parser.py],
    [renewal_notice_parser.py]) and of the dispatcher
    ([document_parser.py]), together with the Python built-ins they rest on,
    followed by the properties of the parsers.

    Conventions of the model.
    - A Python [str] is a Rocq [string]; a character is a code point below
      256.  The classes [\d], [\s], [\w] and the methods [strip], [split],
      [splitlines], [upper] follow Python on that range.
    - A regular expression is a value of [Re.regex], written constructor by
      constructor after the pattern of the source, and run by a backtracking
      matcher that tries the alternatives in the order of Python's [re].
      [ReSem.Matches] says what a match is; the matcher is sound for it.
    - A Python [float] read from a decimal text is represented by the exact
      rational the text denotes; the binary64 number is its rounding to
      nearest.  The rounding overflows to [inf] exactly when the rational
      reaches [2^1024 - 2^970].
    - An exception is a value [Raise e] of the type [exc]; a [try/except]
      of the source is a [match] on the outcome.
    - A scan that resumes after each match carries a fuel, the number of
      positions of its subject; [FuelFacts] shows that this is enough. *)

From Stdlib Require Import ZArith QArith Qround Ascii String List Lia.
From Stdlib Require Qcanon.
From stdpp Require Import gmap strings list.
Import ListNotations.

Local Open Scope string_scope.
Local Open Scope nat_scope.
Local Open Scope list_scope.

(** Let [simpl] compute the concatenation of strings. *)
#[global] Arguments String.append !_ _ / : simpl nomatch.

(* ===================================================================== *)
(** ** Python built-ins on characters and strings *)
(* ===================================================================== *)

Module Py.

(** Exceptions. *)
Inductive pyerror : Type :=
| ValueError (msg : string)
| IndexError (msg : string).

Inductive exc (A : Type) : Type :=
| Ok (a : A)
| Raise (e : pyerror).
Arguments Ok {A} a.
Arguments Raise {A} e.

(** Sequencing: an exception of the first step is the outcome of the
    whole. *)
#[global] Instance exc_ret : MRet exc := fun _ a => Ok a.
#[global] Instance exc_bind : MBind exc := fun _ _ f x =>
  match x with
  | Ok a => f a
  | Raise e => Raise e
  end.

#[global] Instance exc_fmap : FMap exc := fun _ _ f x =>
  match x with
  | Ok a => Ok (f a)
  | Raise e => Raise e
  end.

(** [[f(a) for a in l]], stopping at the first exception. *)
Fixpoint emap {A B : Type} (f : A -> exc B) (l : list A) : exc (list B) :=
  match l with
  | [] => Ok []
  | a :: l' => b ← f a; bs ← emap f l'; Ok (b :: bs)
  end.

(** [l[-k]] for [k >= 1]. *)
Definition from_end {A : Type} (k : nat) (l : list A) : exc A :=
  if k <=? length l then
    match l !! (length l - k) with
    | Some x => Ok x
    | None => Raise (IndexError "list index out of range")
    end
  else Raise (IndexError "list index out of range").

(** *** Characters *)

Definition code (c : ascii) : nat := nat_of_ascii c.

Definition in_range (lo hi : nat) (c : ascii) : bool :=
  (lo <=? code c) && (code c <=? hi).

Definition is_char (a : ascii) (c : ascii) : bool := Ascii.eqb a c.

(** [0-9]; on code points below 256 this is also [\d] and [str.isdecimal]. *)
Definition is_digit (c : ascii) : bool := in_range 48 57 c.

Definition is_AZ (c : ascii) : bool := in_range 65 90 c.
Definition is_az (c : ascii) : bool := in_range 97 122 c.

(** [str.isspace], which is also [\s]: TAB LF VT FF CR, FS GS RS US, SPACE,
    NEL (0x85) and NBSP (0xA0). *)
Definition is_space (c : ascii) : bool :=
  in_range 9 13 c || in_range 28 32 c || (code c =? 133) || (code c =? 160).

(** [str.isalnum] on code points below 256. *)
Definition is_alnum (c : ascii) : bool :=
  is_digit c || is_AZ c || is_az c
  || (code c =? 170) || in_range 178 179 c || (code c =? 181)
  || in_range 185 186 c || in_range 188 190 c
  || in_range 192 214 c || in_range 216 246 c || in_range 248 255 c.

(** [\w]: alphanumeric or underscore. *)
Definition is_word (c : ascii) : bool := is_alnum c || (code c =? 95).

(** Line boundaries of [str.splitlines]. *)
Definition is_linebreak (c : ascii) : bool :=
  in_range 10 13 c || in_range 28 30 c || (code c =? 133).

(** Case mapping of one character: a-z and the Latin-1 letters.  The
    capitals of the micro sign (0xB5) and of y with diaeresis (0xFF) lie
    above 255; these two characters are left as they are. *)
Definition upper_char (c : ascii) : ascii :=
  if is_az c || (in_range 224 254 c && negb (code c =? 247))
  then ascii_of_nat (code c - 32) else c.

Definition lower_char (c : ascii) : ascii :=
  if is_AZ c || (in_range 192 222 c && negb (code c =? 215))
  then ascii_of_nat (code c + 32) else c.

(** *** Strings *)

Definition str_of_list (l : list ascii) : string := string_of_list_ascii l.
Definition list_of_str (s : string) : list ascii := list_ascii_of_string s.

Fixpoint smap (f : ascii -> ascii) (s : string) : string :=
  match s with
  | EmptyString => EmptyString
  | String c s' => String (f c) (smap f s')
  end.

Fixpoint sfilter (p : ascii -> bool) (s : string) : string :=
  match s with
  | EmptyString => EmptyString
  | String c s' => if p c then String c (sfilter p s') else sfilter p s'
  end.

Fixpoint sforall (p : ascii -> bool) (s : string) : bool :=
  match s with
  | EmptyString => true
  | String c s' => p c && sforall p s'
  end.

Fixpoint sexists (p : ascii -> bool) (s : string) : bool :=
  match s with
  | EmptyString => false
  | String c s' => p c || sexists p s'
  end.

Fixpoint srev_onto (s acc : string) : string :=
  match s with
  | EmptyString => acc
  | String c s' => srev_onto s' (String c acc)
  end.

Definition srev (s : string) : string := srev_onto s EmptyString.

Fixpoint sdrop (n : nat) (s : string) : string :=
  match n, s with
  | S n', String _ s' => sdrop n' s'
  | _, _ => s
  end.

Fixpoint stake (n : nat) (s : string) : string :=
  match n, s with
  | S n', String c s' => String c (stake n' s')
  | _, _ => EmptyString
  end.

(** The longest prefix of characters in the class, and what follows it. *)
Fixpoint span (p : ascii -> bool) (s : string) : string * string :=
  match s with
  | EmptyString => (EmptyString, EmptyString)
  | String c s' =>
      if p c then let (a, b) := span p s' in (String c a, b)
      else (EmptyString, s)
  end.

(** [s[i:j]] for non-negative [i], [j]. *)
Definition slice (i j : nat) (s : string) : string := stake (j - i) (sdrop i s).

(** [not s]. *)
Definition is_empty (s : string) : bool :=
  match s with EmptyString => true | _ => false end.

(** [str.upper], under which the sharp s (0xDF) becomes "SS", and
    [str.lower]. *)
Fixpoint upper (s : string) : string :=
  match s with
  | EmptyString => EmptyString
  | String c s' =>
      if code c =? 223 then String "S" (String "S" (upper s'))
      else String (upper_char c) (upper s')
  end.

Definition lower (s : string) : string := smap lower_char s.

(** [s.startswith(p)]. *)
Fixpoint starts_with (p s : string) : bool :=
  match p, s with
  | EmptyString, _ => true
  | String a p', String b s' => Ascii.eqb a b && starts_with p' s'
  | String _ _, EmptyString => false
  end.

(** [needle in hay]. *)
Fixpoint contains (needle hay : string) : bool :=
  starts_with needle hay ||
  match hay with
  | EmptyString => false
  | String _ hay' => contains needle hay'
  end.

(** [hay.count(needle)] for a non-empty needle: occurrences that do not
    overlap, left to right. *)
Fixpoint count_from (needle : string) (skip : nat) (hay : string) : nat :=
  match hay with
  | EmptyString => 0
  | String _ hay' =>
      match skip with
      | S n => count_from needle n hay'
      | O => if starts_with needle hay
             then S (count_from needle (String.length needle - 1) hay')
             else count_from needle 0 hay'
      end
  end.

Definition count (needle hay : string) : nat := count_from needle 0 hay.

(** [s.replace(old, new)]: occurrences of [old] are replaced left to right
    and do not overlap.  [skip] counts the characters of an occurrence that
    are still to be passed over. *)
Fixpoint replace_from (old new : string) (skip : nat) (s : string) : string :=
  match s with
  | EmptyString => EmptyString
  | String c s' =>
      match skip with
      | S n => replace_from old new n s'
      | O => if starts_with old s
             then new +:+ replace_from old new (String.length old - 1) s'
             else String c (replace_from old new 0 s')
      end
  end.

Fixpoint intersperse_all (new s : string) : string :=
  match s with
  | EmptyString => new
  | String c s' => new +:+ String c (intersperse_all new s')
  end.

Definition replace (old new s : string) : string :=
  match old with
  | EmptyString => intersperse_all new s
  | String _ _ => replace_from old new 0 s
  end.

(** [s.lstrip()], [s.rstrip()], [s.strip()], and the forms with a set of
    characters. *)
Fixpoint lstrip_by (p : ascii -> bool) (s : string) : string :=
  match s with
  | EmptyString => EmptyString
  | String c s' => if p c then lstrip_by p s' else s
  end.

Definition rstrip_by (p : ascii -> bool) (s : string) : string :=
  srev (lstrip_by p (srev s)).

Definition strip_by (p : ascii -> bool) (s : string) : string :=
  rstrip_by p (lstrip_by p s).

Definition strip (s : string) : string := strip_by is_space s.

Definition strip_chars (chars s : string) : string :=
  strip_by (fun c => sexists (Ascii.eqb c) chars) s.

(** [sep.join(l)]. *)
Fixpoint join (sep : string) (l : list string) : string :=
  match l with
  | [] => EmptyString
  | [x] => x
  | x :: l' => x +:+ sep +:+ join sep l'
  end.

(** [s.split(sep)] for a one-character separator: never empty, one more
    piece than there are separators.  [cur] is the piece being read,
    reversed. *)
Fixpoint split_char_from (sep : ascii) (cur : string) (s : string) : list string :=
  match s with
  | EmptyString => [srev cur]
  | String c s' =>
      if Ascii.eqb c sep then srev cur :: split_char_from sep EmptyString s'
      else split_char_from sep (String c cur) s'
  end.

Definition split_char (sep : ascii) (s : string) : list string :=
  split_char_from sep EmptyString s.

(** [s.split()]: the maximal runs of characters that are not white space. *)
Fixpoint split_ws_from (cur : string) (s : string) : list string :=
  match s with
  | EmptyString => match cur with EmptyString => [] | _ => [srev cur] end
  | String c s' =>
      if is_space c
      then match cur with
           | EmptyString => split_ws_from EmptyString s'
           | _ => srev cur :: split_ws_from EmptyString s'
           end
      else split_ws_from (String c cur) s'
  end.

Definition split_ws (s : string) : list string := split_ws_from EmptyString s.

(** [s.splitlines()]: lines end at a line boundary, CR LF counting as one;
    no empty last line is produced after a final boundary. *)
Fixpoint splitlines_from (cur : string) (s : string) : list string :=
  match s with
  | EmptyString => match cur with EmptyString => [] | _ => [srev cur] end
  | String c s' =>
      if is_linebreak c then
        match s' with
        | String d s'' =>
            if (code c =? 13) && (code d =? 10)
            then srev cur :: splitlines_from EmptyString s''
            else srev cur :: splitlines_from EmptyString s'
        | EmptyString => [srev cur]
        end
      else splitlines_from (String c cur) s'
  end.

Definition splitlines (s : string) : list string := splitlines_from EmptyString s.

End Py.

(* ===================================================================== *)
(** ** Regular expressions: the fragment of Python's [re] the parsers use *)
(* ===================================================================== *)

Module Re.
Import Py.

(** Every repetition of the source is over a single character or class
    ([\s+], [.*?], [\d{2,4}], [U?]) or is an optional group ([(...)?]), so
    these two forms are all the syntax has.  Flags are resolved when the
    pattern is written down: under IGNORECASE a letter is the class of its
    two cases, under DOTALL the dot is the class of all characters. *)
Inductive regex : Type :=
| Eps
| Chr (p : ascii -> bool)
| Cat (r1 r2 : regex)
| Alt (r1 r2 : regex)
| Rep (greedy : bool) (lo : nat) (hi : option nat) (p : ascii -> bool)
| Opt (r : regex)
| Grp (n : nat) (r : regex)
| Look (r : regex)
| Bos          (* ^ without MULTILINE *)
| Eol          (* $ without MULTILINE *)
| Eos          (* \Z *)
| Wb.          (* \b *)

(** A position in the subject: the character before it, and what follows. *)
Definition cursor : Type := option ascii * string.

(** The groups set so far, the latest first. *)
Definition caps : Type := list (nat * string).

Fixpoint cap_get (n : nat) (g : caps) : option string :=
  match g with
  | [] => None
  | (i, v) :: g' => if i =? n then Some v else cap_get n g'
  end.

(** The text between two positions of the same subject. *)
Definition consumed (from to : string) : string :=
  stake (String.length from - String.length to) from.

Definition word_before (c : cursor) : bool :=
  match fst c with Some a => is_word a | None => false end.

Definition word_after (c : cursor) : bool :=
  match snd c with String a _ => is_word a | EmptyString => false end.

Definition at_end_or_last_newline (s : string) : bool :=
  match s with
  | EmptyString => true
  | String a EmptyString => code a =? 10
  | _ => false
  end.

Definition may_take (hi : option nat) : bool :=
  match hi with Some O => false | _ => true end.

(** Repetition of a class, between [lo] and [hi] times.  Greedy: take one
    more character first and fall back on stopping here; lazy: the other way
    round. *)
Fixpoint rep (R : Type) (greedy : bool) (p : ascii -> bool) (lo : nat) (hi : option nat)
    (prev : option ascii) (s : string) (g : caps)
    (k : cursor -> caps -> option R) {struct s} : option R :=
  if greedy then
    match
      match s with
      | String a s' =>
          if p a && may_take hi
          then rep R greedy p (Nat.pred lo) (option_map Nat.pred hi) (Some a) s' g k
          else None
      | EmptyString => None
      end
    with
    | Some x => Some x
    | None => match lo with O => k (prev, s) g | S _ => None end
    end
  else
    match match lo with O => k (prev, s) g | S _ => None end with
    | Some x => Some x
    | None =>
        match s with
        | String a s' =>
            if p a && may_take hi
            then rep R greedy p (Nat.pred lo) (option_map Nat.pred hi) (Some a) s' g k
            else None
        | EmptyString => None
        end
    end.

(** The matcher, in continuation-passing style: [k] is what remains to be
    matched after [r]; a [None] from it makes [r] try its next way. *)
Fixpoint run (R : Type) (r : regex) (c : cursor) (g : caps)
    (k : cursor -> caps -> option R) {struct r} : option R :=
  match r with
  | Eps => k c g
  | Chr p =>
      match snd c with
      | String a s' => if p a then k (Some a, s') g else None
      | EmptyString => None
      end
  | Cat r1 r2 => run R r1 c g (fun c' g' => run R r2 c' g' k)
  | Alt r1 r2 =>
      match run R r1 c g k with
      | Some x => Some x
      | None => run R r2 c g k
      end
  | Rep greedy lo hi p => rep R greedy p lo hi (fst c) (snd c) g k
  | Opt r1 =>
      match run R r1 c g k with
      | Some x => Some x
      | None => k c g
      end
  | Grp n r1 => run R r1 c g (fun c' g' => k c' ((n, consumed (snd c) (snd c')) :: g'))
  | Look r1 =>
      match run caps r1 c g (fun _ g' => Some g') with
      | Some g' => k c g'
      | None => None
      end
  | Bos => match fst c with None => k c g | Some _ => None end
  | Eol => if at_end_or_last_newline (snd c) then k c g else None
  | Eos => match snd c with EmptyString => k c g | String _ _ => None end
  | Wb => if xorb (word_before c) (word_after c) then k c g else None
  end.

(** A match object. *)
Record rmatch : Type := mk_rmatch {
  m_start : nat;
  m_end : nat;
  m_group0 : string;
  m_caps : caps;
  m_rest : cursor
}.

(** [m.group(n)].  In every pattern of the source the groups that are read
    lie on every path of the match, so the group is set whenever there is a
    match object. *)
Definition group (n : nat) (m : rmatch) : string :=
  match n with
  | O => m_group0 m
  | S _ => match cap_get n (m_caps m) with Some v => v | None => EmptyString end
  end.

(** One attempt at the position [(prev, s)], whose index is [i]. *)
Definition match_at (r : regex) (prev : option ascii) (s : string) (i : nat) : option rmatch :=
  match run (cursor * caps) r (prev, s) [] (fun c g => Some (c, g)) with
  | Some (c, g) =>
      Some (mk_rmatch i (i + (String.length s - String.length (snd c)))
                      (consumed s (snd c)) g c)
  | None => None
  end.

(** [re.search]: the leftmost position at which the pattern matches. *)
Fixpoint search_from (r : regex) (prev : option ascii) (s : string) (i : nat) : option rmatch :=
  match match_at r prev s i with
  | Some m => Some m
  | None =>
      match s with
      | String a s' => search_from r (Some a) s' (S i)
      | EmptyString => None
      end
  end.

Definition search (r : regex) (s : string) : option rmatch := search_from r None s 0.

(** [re.match]: at the start of the subject only. *)
Definition rematch (r : regex) (s : string) : option rmatch := match_at r None s 0.

(** [re.finditer]: successive matches, each search resuming where the
    previous match ended.  No pattern the source iterates can match the
    empty string; after an empty match the scan moves on by one character.
    The fuel is the number of positions of the subject, which the scan
    cannot exceed. *)
Fixpoint finditer_from (fuel : nat) (r : regex) (prev : option ascii) (s : string) (i : nat)
    : list rmatch :=
  match fuel with
  | O => []
  | S fuel' =>
      match search_from r prev s i with
      | None => []
      | Some m =>
          match m_group0 m with
          | EmptyString =>
              match snd (m_rest m) with
              | String a s' => m :: finditer_from fuel' r (Some a) s' (S (m_end m))
              | EmptyString => [m]
              end
          | String _ _ => m :: finditer_from fuel' r (fst (m_rest m)) (snd (m_rest m)) (m_end m)
          end
      end
  end.

Definition finditer (r : regex) (s : string) : list rmatch :=
  finditer_from (S (String.length s)) r None s 0.

(** [re.findall] for a pattern without groups. *)
Definition findall (r : regex) (s : string) : list string :=
  map m_group0 (finditer r s).

(** [re.sub(r, repl, s)] for a replacement text without group references. *)
Fixpoint sub_from (fuel : nat) (r : regex) (repl : string) (prev : option ascii) (s : string)
    : string :=
  match fuel with
  | O => s
  | S fuel' =>
      match search_from r prev s 0 with
      | None => s
      | Some m =>
          stake (m_start m) s +:+ repl +:+
          match m_group0 m with
          | EmptyString =>
              match snd (m_rest m) with
              | String a s' => String a (sub_from fuel' r repl (Some a) s')
              | EmptyString => EmptyString
              end
          | String _ _ => sub_from fuel' r repl (fst (m_rest m)) (snd (m_rest m))
          end
      end
  end.

Definition sub (r : regex) (repl : string) (s : string) : string :=
  sub_from (S (String.length s)) r repl None s.

(** [re.split(r, s)] for a pattern without groups. *)
Fixpoint split_from (fuel : nat) (r : regex) (prev : option ascii) (s : string) : list string :=
  match fuel with
  | O => [s]
  | S fuel' =>
      match search_from r prev s 0 with
      | None => [s]
      | Some m =>
          match m_group0 m with
          | EmptyString =>
              match snd (m_rest m) with
              | String a s' =>
                  match split_from fuel' r (Some a) s' with
                  | x :: l => stake (m_start m) s :: String a x :: l
                  | [] => [stake (m_start m) s]
                  end
              | EmptyString => [stake (m_start m) s; EmptyString]
              end
          | String _ _ =>
              stake (m_start m) s :: split_from fuel' r (fst (m_rest m)) (snd (m_rest m))
          end
      end
  end.

Definition split (r : regex) (s : string) : list string :=
  split_from (S (String.length s)) r None s.

(** [re.split(r, s)[0]]: the text before the first match, the whole subject
    when there is none.  This is the first piece whether or not the pattern
    has groups. *)
Definition split_head (r : regex) (s : string) : string :=
  match search r s with
  | Some m => stake (m_start m) s
  | None => s
  end.

(** *** Writing patterns *)

Definition any_char : ascii -> bool := fun _ => true.
Definition neg (p : ascii -> bool) : ascii -> bool := fun c => negb (p c).
Definition either (p q : ascii -> bool) : ascii -> bool := fun c => p c || q c.
Definition one_of (chars : string) : ascii -> bool := fun c => sexists (Ascii.eqb c) chars.

(** A letter under IGNORECASE; below 256 only its own other case folds to
    it. *)
Definition ci (a : ascii) : ascii -> bool :=
  fun c => Ascii.eqb (lower_char c) (lower_char a).

(** A class under IGNORECASE: a character is in it when one of its cases is. *)
Definition ci_class (p : ascii -> bool) : ascii -> bool :=
  fun c => p c || p (lower_char c) || p (upper_char c).

Fixpoint cats (l : list regex) : regex :=
  match l with
  | [] => Eps
  | [r] => r
  | r :: l' => Cat r (cats l')
  end.

Fixpoint alts (l : list regex) : regex :=
  match l with
  | [] => Eps
  | [r] => r
  | r :: l' => Alt r (alts l')
  end.

(** A literal text, and the same under IGNORECASE. *)
Fixpoint lit (s : string) : regex :=
  match s with
  | EmptyString => Eps
  | String a EmptyString => Chr (is_char a)
  | String a s' => Cat (Chr (is_char a)) (lit s')
  end.

Fixpoint ilit (s : string) : regex :=
  match s with
  | EmptyString => Eps
  | String a EmptyString => Chr (ci a)
  | String a s' => Cat (Chr (ci a)) (ilit s')
  end.

Definition star (p : ascii -> bool) : regex := Rep true 0 None p.
Definition plus (p : ascii -> bool) : regex := Rep true 1 None p.
Definition lazy_star (p : ascii -> bool) : regex := Rep false 0 None p.
Definition lazy_plus (p : ascii -> bool) : regex := Rep false 1 None p.
Definition opt_chr (p : ascii -> bool) : regex := Rep true 0 (Some 1) p.
Definition times (n : nat) (p : ascii -> bool) : regex := Rep true n (Some n) p.
Definition between (lo hi : nat) (p : ascii -> bool) : regex := Rep true lo (Some hi) p.

End Re.

(* ===================================================================== *)
(** ** Python numbers and dates *)
(* ===================================================================== *)

Module PyNum.
Import Py.

(** A float.  [Fin q] stands for the binary64 number nearest to the rational
    [q], which [binary64 q] below computes; the rational is kept in lowest
    terms, so that equal values are equal terms.  [float(str)] is correctly
    rounded, so the float it returns is the one its exact decimal value
    stands for; arithmetic takes the binary64 values of its operands. *)
Inductive pyfloat : Type :=
| Fin (q : Q)
| PosInf
| NegInf
| NaN.

(** Half way between the largest binary64 number and [2^1024]: from here on
    rounding to nearest gives [inf]. *)
Definition overflow_bound : Z := (2 ^ 1024 - 2 ^ 970)%Z.

Definition of_Q (q : Q) : pyfloat :=
  if Qle_bool (inject_Z overflow_bound) q then PosInf
  else if Qle_bool q (inject_Z (- overflow_bound)) then NegInf
  else Fin (Qred q).

Definition zero : pyfloat := Fin 0.

Definition of_Z (z : Z) : pyfloat := of_Q (inject_Z z).

Definition is_finite (v : pyfloat) : bool :=
  match v with Fin _ => true | _ => false end.

(** [a > b]. *)
Definition gt (a b : pyfloat) : bool :=
  match a, b with
  | NaN, _ | _, NaN => false
  | Fin x, Fin y => negb (Qle_bool x y)
  | PosInf, PosInf => false
  | PosInf, _ => true
  | Fin _, NegInf => true
  | _, _ => false
  end.

(** [a == b]. *)
Definition feq (a b : pyfloat) : bool :=
  match a, b with
  | Fin x, Fin y => Qeq_bool x y
  | PosInf, PosInf | NegInf, NegInf => true
  | _, _ => false
  end.

(** Rounding to an integer, ties to the even one. *)
Definition round_half_even (h : Q) : Z :=
  let lo := Qfloor h in
  let twice_rest := ((h - inject_Z lo) * inject_Z 2)%Q in
  if Qle_bool twice_rest 1
  then (if Qeq_bool twice_rest 1 && Z.odd lo then lo + 1 else lo)%Z
  else (lo + 1)%Z.

Definition pow2 (e : Z) : Q := Qpower (inject_Z 2) e.

(** The value of the binary64 number nearest to [q], ties to the even
    significand, for [q] below the overflow bound: 53 significant bits, the
    last of them of weight [2^-1074] at least (subnormal numbers).  [k] is
    the integer part of the binary logarithm of the magnitude. *)
Definition binary64 (q : Q) : Q :=
  if Qeq_bool q 0 then 0%Q
  else
    let a := if Qle_bool 0 q then q else (- q)%Q in
    let k := (Z.log2 (Qnum a) - Z.log2 (Zpos (Qden a)))%Z in
    let k := if Qle_bool (pow2 k) a then k else (k - 1)%Z in
    let e := Z.max (k - 52) (-1074) in
    let m := round_half_even (a * pow2 (- e)) in
    let r := Qred (inject_Z m * pow2 e) in
    if Qle_bool 0 q then r else Qred (- r).

(** [a + b]: the exact sum of the two binary64 numbers, which stands for the
    binary64 number nearest to it, [inf] from the overflow bound on. *)
Definition add (a b : pyfloat) : pyfloat :=
  match a, b with
  | NaN, _ | _, NaN => NaN
  | Fin x, Fin y => of_Q (binary64 x + binary64 y)
  | PosInf, NegInf | NegInf, PosInf => NaN
  | PosInf, _ | _, PosInf => PosInf
  | NegInf, _ | _, NegInf => NegInf
  end.

(** [sum(l)], which starts from 0 and adds the elements from left to
    right, each addition rounded (CPython up to 3.11; from 3.12 on [sum]
    also carries a compensation term for float operands). *)
Definition sum (l : list pyfloat) : pyfloat := fold_left add l zero.

(** [max(l)] for a non-empty list: the first of the largest elements. *)
Fixpoint max_from (best : pyfloat) (l : list pyfloat) : pyfloat :=
  match l with
  | [] => best
  | x :: l' => max_from (if gt x best then x else best) l'
  end.

Definition pymax (l : list pyfloat) : exc pyfloat :=
  match l with
  | [] => Raise (ValueError "max() arg is an empty sequence")
  | x :: l' => Ok (max_from x l')
  end.

(** [round(x, 2)]: CPython writes the binary64 number [x] to two decimal
    places, correctly rounded from its exact value with ties to the even
    digit, and reads the decimal back as a float.  A number that is not
    finite is returned as it is. *)
Definition round2 (v : pyfloat) : pyfloat :=
  match v with
  | Fin q => of_Q (Qmake (round_half_even (binary64 q * inject_Z 100)) 100)
  | _ => v
  end.

(** *** [float(str)] *)

Definition digit_val (c : ascii) : Z := Z.of_nat (code c - 48).

Fixpoint Z_of_digits_from (acc : Z) (s : string) : Z :=
  match s with
  | EmptyString => acc
  | String c s' => Z_of_digits_from (acc * 10 + digit_val c) s'
  end.

Definition Z_of_digits (s : string) : Z := Z_of_digits_from 0 s.

(** The exponent part: nothing, or [e] or [E], an optional sign and at least
    one digit, up to the end of the text. *)
Definition parse_exponent (s : string) : option Z :=
  match s with
  | EmptyString => Some 0%Z
  | String c s' =>
      if Re.ci "e" c then
        let (neg, ds) :=
          match s' with
          | String d s'' =>
              if is_char "-" d then (true, s'')
              else if is_char "+" d then (false, s'')
              else (false, s')
          | EmptyString => (false, s')
          end in
        if negb (is_empty ds) && sforall is_digit ds
        then Some (if neg then (- Z_of_digits ds)%Z else Z_of_digits ds)
        else None
      else None
  end.

(** An unsigned decimal: digits with an optional point, at least one digit
    on one side of it, then the exponent part. *)
Definition parse_decimal (s : string) : option Q :=
  let (ip, r1) := span is_digit s in
  let (fp, r2) :=
    match r1 with
    | String c t => if is_char "." c then span is_digit t else (EmptyString, r1)
    | EmptyString => (EmptyString, r1)
    end in
  if is_empty ip && is_empty fp then None
  else
    match parse_exponent r2 with
    | None => None
    | Some e =>
        let m := Z_of_digits (ip +:+ fp) in
        let d := (Z.of_nat (String.length fp) - e)%Z in
        Some (if (0 <=? d)%Z
              then Qmake m (Z.to_pos (10 ^ d))
              else inject_Z (m * 10 ^ (- d)))
    end.

Definition fneg (v : pyfloat) : pyfloat :=
  match v with
  | Fin q => Fin (Qred (- q))
  | PosInf => NegInf
  | NegInf => PosInf
  | NaN => NaN
  end.

(** [float(s)]: [None] is the [ValueError] of an unreadable text.  White
    space around the text is ignored; then come a sign, and [inf],
    [infinity], [nan] in any case, or a decimal.  Underscores between
    digits, which no caller can pass, are not modelled. *)
Definition py_float (s : string) : option pyfloat :=
  let t := strip s in
  let (negative, body) :=
    match t with
    | String c t' =>
        if is_char "-" c then (true, t')
        else if is_char "+" c then (false, t')
        else (false, t)
    | EmptyString => (false, t)
    end in
  let sign := fun v => if negative then fneg v else v in
  let low := lower body in
  if String.eqb low "inf" || String.eqb low "infinity" then Some (sign PosInf)
  else if String.eqb low "nan" then Some NaN
  else
    match parse_decimal body with
    | Some q => Some (sign (of_Q q))
    | None => None
    end.

(** *** [datetime.strptime(s, "%d %B %Y")] and [strftime("%Y-%m-%d")] *)

Record date : Type := mk_date { year : nat; month : nat; day : nat }.

Definition month_names : list string :=
  ["january"; "february"; "march"; "april"; "may"; "june"; "july";
   "august"; "september"; "october"; "november"; "december"].

(** The patterns [_strptime] builds for the directives, run under
    IGNORECASE: [%d] is [3[0-1]|[1-2]\d|0[1-9]|[1-9]| [1-9]], [%B] the
    alternation of the month names, longest first, [%Y] is [\d\d\d\d]; each
    blank of the format stands for [\s+]. *)
Definition strptime_dBY_pattern : Re.regex :=
  Re.cats
    [Re.Grp 1 (Re.alts
       [Re.Cat (Re.Chr (is_char "3")) (Re.Chr (in_range 48 49));
        Re.Cat (Re.Chr (in_range 49 50)) (Re.Chr is_digit);
        Re.Cat (Re.Chr (is_char "0")) (Re.Chr (in_range 49 57));
        Re.Chr (in_range 49 57);
        Re.Cat (Re.Chr (is_char " ")) (Re.Chr (in_range 49 57))]);
     Re.plus is_space;
     Re.Grp 2 (Re.alts (map Re.ilit
       ["september"; "february"; "november"; "december"; "january"; "october";
        "august"; "march"; "april"; "june"; "july"; "may"]));
     Re.plus is_space;
     Re.Grp 3 (Re.times 4 is_digit)].

Fixpoint index_of (x : string) (l : list string) : option nat :=
  match l with
  | [] => None
  | y :: l' => if String.eqb x y then Some 0
               else option_map S (index_of x l')
  end.

Definition is_leap (y : nat) : bool :=
  ((y mod 4 =? 0) && negb (y mod 100 =? 0)) || (y mod 400 =? 0).

Definition days_in_month (y m : nat) : nat :=
  match m with
  | 2 => if is_leap y then 29 else 28
  | 4 | 6 | 9 | 11 => 30
  | _ => 31
  end.

(** [None] is the [ValueError] of [strptime]: the text does not match the
    format, text remains after the match, or the date does not exist
    (year 0, 30 February). *)
Definition strptime_dBY (s : string) : option date :=
  match Re.rematch strptime_dBY_pattern s with
  | None => None
  | Some m =>
      if negb (Re.m_end m =? String.length s) then None
      else
        match index_of (lower (Re.group 2 m)) month_names with
        | None => None
        | Some i =>
            let y := Z.to_nat (Z_of_digits (Re.group 3 m)) in
            let d := Z.to_nat (Z_of_digits (lstrip_by (is_char " ") (Re.group 1 m))) in
            let mo := S i in
            if (1 <=? y) && (1 <=? d) && (d <=? days_in_month y mo)
            then Some (mk_date y mo d)
            else None
        end
  end.

Definition digit_char (n : nat) : ascii := ascii_of_nat (48 + n mod 10).

Definition dec2 (n : nat) : string :=
  String (digit_char (n / 10)) (String (digit_char n) EmptyString).

Definition dec3 (n : nat) : string := String (digit_char (n / 100)) (dec2 n).

Definition dec4 (n : nat) : string := String (digit_char (n / 1000)) (dec3 n).

(** [%Y]: the year as the C library writes it.  glibc, on which the
    application runs, writes it without leading zeros, so a year below 1000
    has fewer than four digits. *)
Definition year_text (y : nat) : string :=
  if y <? 10 then String (digit_char y) EmptyString
  else if y <? 100 then dec2 y
  else if y <? 1000 then dec3 y
  else dec4 y.

(** [d.strftime("%Y-%m-%d")]. *)
Definition strftime_Ymd (d : date) : string :=
  year_text (year d) +:+ "-" +:+ dec2 (month d) +:+ "-" +:+ dec2 (day d).

End PyNum.

(* ===================================================================== *)
(** ** [ocr/debit_note_parser.py] *)
(* ===================================================================== *)

Module DebitNote.
Import Py Re PyNum.

(** The replacement table of [normalize_text], in the order of the dict. *)
Definition replacements : list (string * string) :=
  [("OOMEST1C", "DOMESTIC");
   ("OOMESTIC", "DOMESTIC");
   ("DQMESTIC", "DOMESTIC");
   ("XELPER", "HELPER");
   ("Roz", "R03");
   ("Ros", "R03");
   ("ROZ", "R03");
   ("To1", "(T01)");
   ("T01)", "(T01)");
   ("CQPY", "COPY");
   ("C0PY", "COPY");
   ("COPV", "COPY");
   ("COpy", "COPY");
   ("CQRY", "COPY");
   ("CQFY", "COPY")].

Definition normalize_text (text : string) : string :=
  fold_left (fun text kv => replace (fst kv) (snd kv) text) replacements text.

(** [extract_first(pattern, text)]; the pattern is given as it reads under
    IGNORECASE | MULTILINE. *)
Definition extract_first (pattern : regex) (text : string) : string :=
  match search pattern text with
  | Some m => strip (group 1 m)
  | None => EmptyString
  end.

Definition AZ09 : ascii -> bool := either is_AZ is_digit.
Definition O0Q : ascii -> bool := ci_class (one_of "O0Q").

(** [ACC[O0Q]U?N?T\s+N[O0Q][.:;]?\s*([A-Z0-9 ()]+?)(?=\s+(POL|P0L|ENO|CLA)|\Z)],
    IGNORECASE. *)
Definition account_number_pattern : regex :=
  cats [ilit "ACC"; Chr O0Q; opt_chr (ci "U"); opt_chr (ci "N"); Chr (ci "T");
        plus is_space; Chr (ci "N"); Chr O0Q; opt_chr (one_of ".:;"); star is_space;
        Grp 1 (lazy_plus (ci_class (either AZ09 (one_of " ()"))));
        Look (Alt (Cat (plus is_space)
                       (Grp 2 (alts [ilit "POL"; ilit "P0L"; ilit "ENO"; ilit "CLA"])))
                  Eos)].

(** [\(+T01\)+] *)
Definition t01_pattern : regex :=
  cats [plus (is_char "("); lit "T01"; plus (is_char ")")].

(** [([A-Z0-9]{6,10})\s*(\(T01\))?] *)
Definition base_account_pattern : regex :=
  cats [Grp 1 (between 6 10 AZ09); star is_space; Opt (Grp 2 (lit "(T01)"))].

Definition clean_account_number (acc : string) : string :=
  if is_empty acc then EmptyString
  else
    let acc := upper acc in
    let acc := replace "S" "5" (replace "Q" "0" (replace "O" "0" acc)) in
    let acc := sub t01_pattern "(T01)" acc in
    match search base_account_pattern acc with
    | Some m => group 1 m +:+ " (T01)"
    | None => acc
    end.

Definition extract_account_number_dn (text : string) : string :=
  let acc := match search account_number_pattern text with
             | Some m => strip (group 1 m)
             | None => EmptyString
             end in
  clean_account_number acc.

(** [POLICY\s+N[O0Q][.:;]?\s*([A-Z0-9\-]{10,})], IGNORECASE | MULTILINE. *)
Definition policy_number_pattern : regex :=
  cats [ilit "POLICY"; plus is_space; Chr (ci "N"); Chr O0Q; opt_chr (one_of ".:;");
        star is_space;
        Grp 1 (Rep true 10 None (ci_class (either AZ09 (is_char "-"))))].

Definition extract_policy_number (text : string) : string :=
  extract_first policy_number_pattern text.

(** [ENO+R[S5]?\s*(?:N[O0Q])?[.:;]?\s*([A-Z0-9\-_ ]+)], IGNORECASE. *)
Definition endorsement_pattern : regex :=
  cats [ilit "EN"; plus (ci "O"); Chr (ci "R"); opt_chr (ci_class (one_of "S5"));
        star is_space; Opt (Cat (Chr (ci "N")) (Chr O0Q)); opt_chr (one_of ".:;");
        star is_space;
        Grp 1 (plus (ci_class (either AZ09 (one_of "-_ "))))].

(** [(CLASS|POLICY|ACC)\b] *)
Definition endorsement_stop_pattern : regex :=
  Cat (Grp 1 (alts [lit "CLASS"; lit "POLICY"; lit "ACC"])) Wb.

(** [(JAN|FEB|MAR|APR|MAY|JUN|JUL|AUG|SEP|OCT|NOV|DEC)([A-Z]?)(\d{1,4})] *)
Definition month_suffix_pattern : regex :=
  cats [Grp 1 (alts (map lit ["JAN"; "FEB"; "MAR"; "APR"; "MAY"; "JUN";
                              "JUL"; "AUG"; "SEP"; "OCT"; "NOV"; "DEC"]));
        Grp 2 (opt_chr is_AZ);
        Grp 3 (between 1 4 is_digit)].

Definition clean_endorsement_number (raw : string) : string :=
  if is_empty raw then EmptyString
  else
    let raw := upper raw in
    let raw := split_head endorsement_stop_pattern raw in
    let raw := sub (plus (either is_space (is_char "_"))) "" raw in
    let raw := sub (plus (is_char "-")) "-" raw in
    let raw := replace "RNOV" "NOV" (replace "TNO" "NOV" (replace "TNOV" "NOV" raw)) in
    match rematch month_suffix_pattern raw with
    | Some m => replace "--" "-" (group 1 m +:+ "-" +:+ group 2 m +:+ group 3 m)
    | None => raw
    end.

Definition extract_endorsement_number_dn (text : string) : string :=
  let raw := match search endorsement_pattern text with
             | Some m => strip (group 1 m)
             | None => EmptyString
             end in
  clean_endorsement_number raw.

(** [(?:INSURED|CUSTOMER)\s+([A-Z ]{6,40})] *)
Definition insured_pattern : regex :=
  cats [Alt (lit "INSURED") (lit "CUSTOMER"); plus is_space;
        Grp 1 (between 6 40 (either is_AZ (is_char " ")))].

(** [\bFLAT\b|\bROOM\b|\bFLOOR\b] *)
Definition address_stop_pattern : regex :=
  alts [cats [Wb; lit "FLAT"; Wb]; cats [Wb; lit "ROOM"; Wb]; cats [Wb; lit "FLOOR"; Wb]].

Definition extract_insured_or_agent (text : string) : string :=
  match search insured_pattern text with
  | None => EmptyString
  | Some m =>
      let name := strip (group 1 m) in
      let name := split_head address_stop_pattern name in
      strip name
  end.

(** [CLAS[S]?\s*([0-9OQ]{2,3})[- ]*([A-Z ]+HELPER)], IGNORECASE. *)
Definition insurance_class_pattern : regex :=
  cats [ilit "CLAS"; opt_chr (ci "S"); star is_space;
        Grp 1 (between 2 3 (ci_class (either is_digit (one_of "OQ"))));
        star (one_of "- ");
        Grp 2 (Cat (plus (ci_class (either is_AZ (is_char " ")))) (ilit "HELPER"))].

Definition extract_insurance_class (text : string) : string :=
  match search insurance_class_pattern text with
  | None => EmptyString
  | Some m =>
      let code := replace "Q" "0" (replace "O" "0" (group 1 m)) in
      let cls := upper (group 2 m) in
      let cls := replace "DQMESTIC" "DOMESTIC" (replace "OOMESTIC" "DOMESTIC" cls) in
      let cls := replace "XELPER" "HELPER" cls in
      code +:+ " " +:+ cls
  end.

(** *** Financial extraction *)

Record financial : Type := mk_financial {
  gross_premium : pyfloat;
  commission : pyfloat;
  overriding_insurer : pyfloat;
  cost : pyfloat;
  profit : pyfloat;
  category : string
}.

(** [GROSS\s+PREMIUM], IGNORECASE. *)
Definition gross_premium_pattern : regex :=
  cats [ilit "GROSS"; plus is_space; ilit "PREMIUM"].

(** [\b\d{2,4}[., ]?\d{0,2}\b] *)
Definition number_pattern : regex :=
  cats [Wb; between 2 4 is_digit; opt_chr (one_of "., "); between 0 2 is_digit; Wb].

(** The copy labels of [detect_copy_types], in the order of the dict; each
    pattern is [<LABEL>\s*C[O0]P[YV]] under IGNORECASE. *)
Definition copy_suffix : list regex :=
  [star is_space; Chr (ci "C"); Chr (ci_class (one_of "O0")); Chr (ci "P");
   Chr (ci_class (one_of "YV"))].

Definition copy_patterns : list (string * regex) :=
  [("manager", cats ([ilit "MANAG"; Chr (ci_class (one_of "EA")); Chr (ci "R")] ++ copy_suffix));
   ("agent", cats (ilit "AGENT" :: copy_suffix));
   ("account", cats (ilit "ACCOUNT" :: copy_suffix));
   ("file", cats (ilit "FILE" :: copy_suffix))].

Definition detect_copy_types (text : string) : gset string :=
  fold_left
    (fun found kp =>
       match search (snd kp) text with
       | Some _ => found ∪ {[ fst kp ]}
       | None => found
       end)
    copy_patterns ∅.

(** The loop over [nums]: a token that [float] reads and that exceeds 50 is
    kept, any other is passed over. *)
Definition qualifying_value (n : string) : option pyfloat :=
  let n := replace "," "." (replace " " "" n) in
  match py_float n with
  | Some v => if gt v (of_Z 50) then Some v else None
  | None => None
  end.

Definition qualifying_values (text : string) : list pyfloat :=
  omap qualifying_value (findall number_pattern text).

Definition extract_manager_financials (text : string) : exc (list financial) :=
  match search gross_premium_pattern text with
  | None => Ok []
  | Some _ =>
      let values := qualifying_values text in
      if length values <? 5 then Ok []
      else
        gross ← from_end 5 values;
        commission ← from_end 4 values;
        overriding ← from_end 3 values;
        cost ← from_end 2 values;
        profit ← from_end 1 values;
        let copy_types := detect_copy_types text in
        let copy_types :=
          if decide (copy_types = ∅) then {[ "manager" ]} else copy_types in
        Ok (map (fun c => mk_financial gross commission overriding cost profit c)
                (elements copy_types))
  end.

(** *** Blocks *)

(** The separator of ["\n".join]. *)
Definition line_feed : string := String (ascii_of_nat 10) EmptyString.

(** One turn of the loop of [split_by_copy] on the state
    [(blocks, current)]: a line that holds "COPY" in capitals closes the
    block being read, unless that block is empty; the line then joins the
    block being read. *)
Definition split_by_copy_step (st : list string * list string) (line : string)
    : list string * list string :=
  let '(blocks, current) := st in
  let '(blocks, current) :=
    if contains "COPY" (upper line) then
      match current with
      | [] => (blocks, current)
      | _ :: _ => (blocks ++ [join line_feed current], [])
      end
    else (blocks, current) in
  (blocks, current ++ [line]).

Definition split_by_copy (text : string) : list string :=
  let '(blocks, current) := fold_left split_by_copy_step (splitlines text) ([], []) in
  match current with
  | [] => blocks
  | _ :: _ => blocks ++ [join line_feed current]
  end.

(** [GROSS\s+PREMIUM] and [\bTEL\b|\bFAX\b], without flags. *)
Definition gross_premium_capitals_pattern : regex :=
  cats [lit "GROSS"; plus is_space; lit "PREMIUM"].

Definition tel_fax_pattern : regex :=
  Alt (cats [Wb; lit "TEL"; Wb]) (cats [Wb; lit "FAX"; Wb]).

Definition is_valid_financial_block (block : string) : bool :=
  let b := upper block in
  if negb (bool_decide (is_Some (search gross_premium_capitals_pattern b))) then false
  else if bool_decide (is_Some (search tel_fax_pattern b)) then false
  else if (2 <? count "ROOM" b) || (2 <? count "STREET" b) then false
  else true.

(** *** The parser *)

Record debit_note : Type := mk_debit_note {
  account_number : string;
  policy_number : string;
  endorsement_number : string;
  insured_or_agent : string;
  issue_date : string;
  insurance_class : string;
  financials : list financial
}.

(** [DATE[:;]?\s*(\d{1,2}\s+\w+\s+\d{4})], IGNORECASE | MULTILINE. *)
Definition issue_date_pattern : regex :=
  cats [ilit "DATE"; opt_chr (one_of ":;"); star is_space;
        Grp 1 (cats [between 1 2 is_digit; plus is_space; plus is_word; plus is_space;
                     times 4 is_digit])].

(** [x or y] on strings. *)
Definition str_or (x y : string) : string := if is_empty x then y else x.

(** The two [print] calls write to the console and are left out. *)
Definition parse_debit_note_text (raw_text : string) (insured_or_agent : string)
    : exc debit_note :=
  let text := normalize_text raw_text in
  let r_policy_number := extract_policy_number text in
  let r_insured_or_agent := str_or (extract_insured_or_agent text) insured_or_agent in
  let r_issue_date := extract_first issue_date_pattern text in
  let r_insurance_class := extract_insurance_class text in
  r_financials ← extract_manager_financials text;
  let r_account_number := clean_account_number (extract_account_number_dn text) in
  let r_insurance_class :=
    replace "0o3" "003" (replace "O03" "003" (replace "0O3" "003" r_insurance_class)) in
  let raw_endorsement := extract_endorsement_number_dn text in
  let r_endorsement_number := clean_endorsement_number raw_endorsement in
  Ok (mk_debit_note r_account_number r_policy_number r_endorsement_number
                    r_insured_or_agent r_issue_date r_insurance_class r_financials).

End DebitNote.

(* ===================================================================== *)
(** ** [ocr/account_statement_parser.py] *)
(* ===================================================================== *)

Module AccountStatement.
Import Py Re PyNum.

Definition TEXT_OCR_CORRECTIONS : list (string * string) :=
  [("i1", "11"); ("Noyember", "November"); ("20z5", "2025");
   ("EOWARD", "EDWARD"); ("LEYEL", "LEVEL");
   ("MQNGKOK", "MONGKOK"); ("MONGKOX", "MONGKOK");
   ("XQWLOON", "KOWLOON"); ("XOWI_OON_", "KOWLOON");
   ("S2E", "SZE")].

Definition NUMERIC_OCR_CORRECTIONS : list (string * string) :=
  [("O", "0"); ("Q", "0"); ("l", "1"); ("I", "1");
   ("7o", "70"); ("QQ", "00")].

Definition replace_all (table : list (string * string)) (text : string) : string :=
  fold_left (fun text kv => replace (fst kv) (snd kv) text) table text.

Definition apply_ocr_corrections (text : string) (numeric_only : bool) : string :=
  let text := replace_all TEXT_OCR_CORRECTIONS text in
  if numeric_only then replace_all NUMERIC_OCR_CORRECTIONS text else text.

Definition letter : ascii -> bool := either is_AZ is_az.
Definition newline : ascii := ascii_of_nat 10.
(** The dot without DOTALL. *)
Definition dot : ascii -> bool := neg (is_char newline).

(** [\d{1,2}\s+[A-Za-z]+\s+\d{4}] *)
Definition day_month_year : regex :=
  cats [between 1 2 is_digit; plus is_space; plus letter; plus is_space; times 4 is_digit].

(** [Issued Date\s*[:：]?\s*.*?(\d{1,2}\s+[A-Za-z]+\s+\d{4})], IGNORECASE.
    The second colon of the class is the full-width one, a code point the
    subject cannot hold here. *)
Definition issued_date_pattern : regex :=
  cats [ilit "Issued Date"; star is_space; opt_chr (is_char ":"); star is_space;
        lazy_star dot; Grp 1 day_month_year].

(** [datetime.strptime(s, '%d %B %Y').strftime('%Y-%m-%d')] under
    [try/except]: [None] when [strptime] raises. *)
Definition reformat_date (s : string) : option string :=
  option_map strftime_Ymd (strptime_dBY s).

Definition extract_issue_date (text : string) : string :=
  let text := apply_ocr_corrections text false in
  match search issued_date_pattern text with
  | Some m =>
      match reformat_date (group 1 m) with
      | Some iso => iso
      | None => EmptyString
      end
  | None => EmptyString
  end.

(** The loop of [extract_premium_due_date]; [prev] is [lines[i-1]], absent
    for the first line. *)
Fixpoint due_date_scan (prev : option string) (lines : list string) : option string :=
  match lines with
  | [] => None
  | line :: rest =>
      match (if contains "PREMIUM DUE DATE" (upper line) then prev else None) with
      | Some p =>
          let date_line := strip p in
          match reformat_date date_line with
          | Some iso => Some iso
          | None =>
              let date_line := apply_ocr_corrections date_line false in
              match reformat_date date_line with
              | Some iso => Some iso
              | None => due_date_scan (Some line) rest
              end
          end
      | None => due_date_scan (Some line) rest
      end
  end.

Definition extract_premium_due_date (text : string) : string :=
  let text := apply_ocr_corrections text false in
  match due_date_scan None (splitlines text) with
  | Some iso => iso
  | None => extract_issue_date text
  end.

(** The loop of [extract_address]. *)
Fixpoint address_scan (capture : bool) (lines : list string) : list string :=
  match lines with
  | [] => []
  | line :: rest =>
      let line := strip line in
      if is_empty line then address_scan capture rest
      else if bool_decide (is_Some (rematch day_month_year line))
      then address_scan true rest
      else if contains "EFFECTIVE DATE" line then []
      else if capture then line :: address_scan capture rest
      else address_scan capture rest
  end.

Definition extract_address (text : string) : string :=
  join " " (address_scan false (splitlines text)).

(** [ACCOUNT NUMBER\s*[:：]?\s*([A-Z0-9]+)], IGNORECASE. *)
Definition account_number_pattern : regex :=
  cats [ilit "ACCOUNT NUMBER"; star is_space; opt_chr (is_char ":"); star is_space;
        Grp 1 (plus (ci_class (either is_AZ is_digit)))].

Definition extract_account_number (text : string) : string :=
  let text := apply_ocr_corrections text false in
  match search account_number_pattern text with
  | Some m => group 1 m
  | None => "N/A"
  end.

Definition global_replacements : list (string * string) :=
  [("T,", "TJ"); ("Tj", "TJ"); ("t,", "TJ"); ("T.", "TJ");
   ("PFF25o", "PFF250"); ("Ro", "R0"); ("Q", "0")].

Definition clean_global_ocr (text : string) : string :=
  replace_all global_replacements text.

(** [^(\d)\s+(\d{3})\s+(\d{2})$] *)
Definition spaced_pattern : regex :=
  cats [Bos; Grp 1 (Chr is_digit); plus is_space; Grp 2 (times 3 is_digit);
        plus is_space; Grp 3 (times 2 is_digit); Eol].

(** [float(s)] where the source does not guard it. *)
Definition float_or_raise (s : string) : exc pyfloat :=
  match py_float s with
  | Some v => Ok v
  | None => Raise (ValueError ("could not convert string to float: " +:+ s))
  end.

(** [float(s)] under [try/except], with 0.0 for the failure. *)
Definition float_or_zero (s : string) : pyfloat :=
  match py_float s with
  | Some v => v
  | None => zero
  end.

Definition clean_number (raw : string) : exc pyfloat :=
  if is_empty raw then Ok zero
  else
    let raw := strip raw in
    match rematch spaced_pattern raw with
    | Some m => float_or_raise (group 1 m +:+ group 2 m +:+ "." +:+ group 3 m)
    | None =>
        let s := replace "Q" "0" raw in
        let s := replace "O" "0" s in
        let s := replace "l" "1" s in
        let s := sub (plus is_space) "" s in
        let s := replace "," "" s in
        let s := sub (Chr (neg (either is_digit (is_char ".")))) "" s in
        Ok (float_or_zero s)
    end.

Record pair : Type := mk_pair {
  pair_policy_number : string;
  pair_nature : pyfloat
}.

(** [([A-Za-z0-9,\-]+)\s+([\dOQol.,]+)\)], IGNORECASE. *)
Definition policy_nature_pattern : regex :=
  cats [Grp 1 (plus (either letter (either is_digit (one_of ",-"))));
        plus is_space;
        Grp 2 (plus (ci_class (either is_digit (one_of "OQol.,"))));
        Chr (is_char ")")].

Definition extract_policy_nature_pairs (big_row_text : string) : list pair :=
  map
    (fun m =>
       let policy_raw := group 1 m in
       let nature_raw := group 2 m in
       let policy :=
         replace "l" "1" (replace "O" "0" (replace "o" "0"
           (replace "," "" (replace " " "" policy_raw)))) in
       let nature :=
         replace "," "" (replace "l" "1" (replace "o" "0"
           (replace "Q" "0" (replace "O" "0" nature_raw)))) in
       mk_pair policy (float_or_zero nature))
    (finditer policy_nature_pattern big_row_text).

(** [^\d{2}/\d{2}/\d{4}$] *)
Definition date_pattern : regex :=
  cats [Bos; times 2 is_digit; Chr (is_char "/"); times 2 is_digit; Chr (is_char "/");
        times 4 is_digit; Eol].

(** [^B[\w\-?]+$], IGNORECASE. *)
Definition debit_pattern : regex :=
  cats [Bos; Chr (ci "B"); plus (either is_word (one_of "-?")); Eol].

Definition matches (r : regex) (s : string) : bool :=
  bool_decide (is_Some (rematch r s)).

Definition has_digit (s : string) : bool :=
  bool_decide (is_Some (search (Chr is_digit) s)).

(** [[l.strip() for l in text.splitlines() if l.strip()]] *)
Definition stripped_lines (text : string) : list string :=
  filter (fun l => is_empty l = false) (map strip (splitlines text)).

(** The loop of [extract_header_premium_from_block]: it ends at the first
    date line, whose predecessor is [prev]. *)
Fixpoint header_premium_scan (prev : option string) (lines : list string) : exc pyfloat :=
  match lines with
  | [] => Ok zero
  | line :: rest =>
      if matches date_pattern line then
        match prev with
        | Some prev_line =>
            if has_digit prev_line then clean_number prev_line else Ok zero
        | None => Ok zero
        end
      else header_premium_scan (Some line) rest
  end.

Definition extract_header_premium_from_block (text : string) : exc pyfloat :=
  header_premium_scan None (stripped_lines text).

Record structured_entry : Type := mk_structured_entry {
  se_effective_date : string;
  se_debit_note : option string;
  se_premium : pyfloat
}.

(** [EFFECTIVE\s+DATE\s+DEBIT\s+NOTE\s+NO\.\s*(\d{2}/\d{2}/\d{4})\s+(B[\w\-?]+)],
    IGNORECASE. *)
Definition header_pattern : regex :=
  cats [ilit "EFFECTIVE"; plus is_space; ilit "DATE"; plus is_space; ilit "DEBIT";
        plus is_space; ilit "NOTE"; plus is_space; ilit "NO"; Chr (is_char ".");
        star is_space;
        Grp 1 (cats [times 2 is_digit; Chr (is_char "/"); times 2 is_digit;
                     Chr (is_char "/"); times 4 is_digit]);
        plus is_space;
        Grp 2 (Cat (Chr (ci "B")) (plus (either is_word (one_of "-?"))))].

Definition extract_header_entry (text : string) : exc (option structured_entry) :=
  match search header_pattern text with
  | None => Ok None
  | Some m =>
      premium ← extract_header_premium_from_block text;
      Ok (Some (mk_structured_entry (group 1 m) (Some (group 2 m)) premium))
  end.

(** The [while] loop of [extract_date_debit_premium] over the index [i].
    Every turn advances [i], so [length lines] turns are enough. *)
Fixpoint date_debit_premium_loop (fuel : nat) (lines : list string) (i : nat)
    : exc (list structured_entry) :=
  match fuel with
  | O => Ok []
  | S fuel' =>
      match lines !! i with
      | None => Ok []
      | Some line =>
          if matches date_pattern line then
            let '(debit_note, i) :=
              match lines !! (i + 1) with
              | Some l1 => if matches debit_pattern l1 then (Some l1, i + 1) else (None, i)
              | None => (None, i)
              end in
            '(premium, i) ←
              match lines !! (i + 1) with
              | Some next_line =>
                  if negb (matches date_pattern next_line)
                     && negb (matches debit_pattern next_line)
                     && has_digit next_line
                  then p ← clean_number next_line; Ok (p, i + 1)
                  else Ok (zero, i)
              | None => Ok (zero, i)
              end;
            rest ← date_debit_premium_loop fuel' lines (i + 1);
            Ok (mk_structured_entry line debit_note premium :: rest)
          else date_debit_premium_loop fuel' lines (i + 1)
      end
  end.

Definition extract_date_debit_premium (text : string) : exc (list structured_entry) :=
  let lines := stripped_lines text in
  date_debit_premium_loop (length lines) lines 0.

Record entry : Type := mk_entry {
  effective_date : string;
  debit_note : option string;
  policy_number : option string;
  nature : option pyfloat;
  premium : pyfloat
}.

(** [PREM[1I]UM\s*(.*?)(?:T[O0]TAL)\s+HXS], DOTALL | IGNORECASE. *)
Definition big_row_pattern : regex :=
  cats [ilit "PREM"; Chr (ci_class (one_of "1I")); ilit "UM"; star is_space;
        Grp 1 (lazy_star any_char);
        Chr (ci "T"); Chr (ci_class (one_of "O0")); ilit "TAL";
        plus is_space; ilit "HXS"].

(** The pairs [parse_entries] aligns the entries with. *)
Definition policy_nature_pairs_of (text : string) : list pair :=
  match search big_row_pattern text with
  | Some m => extract_policy_nature_pairs (group 1 m)
  | None => []
  end.

(** The date/debit/premium sequence: the header entry, when there is one,
    then the column entries. *)
Definition structured_entries_of (text : string) : exc (list structured_entry) :=
  header_entry ← extract_header_entry text;
  column_entries ← extract_date_debit_premium text;
  Ok (match header_entry with
      | Some e => e :: column_entries
      | None => column_entries
      end).

(** The loop [for i in range(len(structured_entries))]. *)
Definition align (pairs : list pair) (structured_entries : list structured_entry)
    : list entry :=
  imap
    (fun i se =>
       match pairs !! i with
       | Some p =>
           mk_entry (se_effective_date se) (se_debit_note se)
                    (Some (pair_policy_number p)) (Some (pair_nature p)) (se_premium se)
       | None =>
           mk_entry (se_effective_date se) (se_debit_note se) None None (se_premium se)
       end)
    structured_entries.

Definition parse_entries (normalized_text : string) : exc (list entry) :=
  let text := clean_global_ocr normalized_text in
  let policy_nature_pairs := policy_nature_pairs_of text in
  structured_entries ← structured_entries_of text;
  Ok (align policy_nature_pairs structured_entries).

Record account_statement : Type := mk_account_statement {
  issue_date : string;
  premium_due_date : string;
  account_number : string;
  address : string;
  total_premium_due : pyfloat;
  entries : list entry;
  warnings : list string
}.

(** [not e.get('policy_number')]: the policy number is [None] or empty. *)
Definition policy_missing (e : entry) : bool :=
  match policy_number e with
  | Some p => is_empty p
  | None => true
  end.

(** The [print] calls are left out.  Every premium is a float, so the
    [isinstance] filter keeps all entries and both sums run over the same
    list.  Without entries the sum is the integer 0, which the model does
    not tell apart from 0.0. *)
Definition parse_account_statement_text (raw_text : string) (insured_or_agent : string)
    : exc account_statement :=
  let text := apply_ocr_corrections raw_text false in
  let issue_date := extract_issue_date text in
  let premium_due_date := extract_premium_due_date text in
  let account_number := extract_account_number text in
  let address := extract_address text in
  entries ← parse_entries text;
  let total_premium_due := round2 (sum (map premium entries)) in
  let total_premium_due :=
    if feq total_premium_due zero then round2 (sum (map premium entries))
    else total_premium_due in
  let warnings :=
    if existsb policy_missing entries
    then ["Some policy numbers missing or unreliable."] else [] in
  Ok (mk_account_statement issue_date premium_due_date account_number address
                           total_premium_due entries warnings).

End AccountStatement.

(* ===================================================================== *)
(** ** [ocr/renewal_notice_parser.py] *)
(* ===================================================================== *)

Module RenewalNotice.
Import Py Re PyNum.

Definition newline : ascii := ascii_of_nat 10.
Definition NL : string := String newline EmptyString.
Definition CR : string := String (ascii_of_nat 13) EmptyString.
Definition dot : ascii -> bool := neg (is_char newline).
Definition AZ09 : ascii -> bool := ci_class (either is_AZ is_digit).

Definition non_empty (l : string) : Prop := is_empty l = false.
#[global] Instance non_empty_dec l : Decision (non_empty l).
Proof. unfold non_empty. apply _. Defined.

Definition normalize_ocr_text (raw_text : string) : string :=
  if is_empty raw_text then EmptyString
  else
    let text := replace CR NL raw_text in
    let lines := map strip (split_char newline text) in
    let lines := filter non_empty lines in
    let lines := map (fun line => join " " (split_ws line)) lines in
    join NL lines.

(** [extract_first(pattern, text, flags)]; the pattern is given as it reads
    under the flags.  [match.lastindex] is set exactly when a group took
    part in the match. *)
Definition extract_first (pattern : regex) (text : string) : string :=
  match search pattern text with
  | None => EmptyString
  | Some m =>
      match m_caps m with
      | _ :: _ => strip (group 1 m)
      | [] => strip (group 0 m)
      end
  end.

(** [\d{2}/\d{2}/\d{4}] *)
Definition slash_date : regex :=
  cats [times 2 is_digit; Chr (is_char "/"); times 2 is_digit; Chr (is_char "/");
        times 4 is_digit].

(** [rf"{label}.*?(\d{{2}}/\d{{2}}/\d{{4}})"], IGNORECASE | DOTALL.  The two
    labels of the source, "ISSUE DATE" and "EXPIRY DATE", hold no character
    that is special in a pattern, so the label is read as literal text. *)
Definition date_after_pattern (label : string) : regex :=
  cats [ilit label; lazy_star any_char; Grp 1 slash_date].

Definition extract_date_after (label : string) (text : string) : string :=
  extract_first (date_after_pattern label) text.

(** [POLICY\s*NO\.?\s*[:\-]?\s*([A-Z0-9\-]+)], IGNORECASE. *)
Definition policy_number_pattern : regex :=
  cats [ilit "POLICY"; star is_space; ilit "NO"; opt_chr (is_char "."); star is_space;
        opt_chr (one_of ":-"); star is_space;
        Grp 1 (plus (either AZ09 (is_char "-")))].

Definition extract_policy_number_r (text : string) : string :=
  match search policy_number_pattern text with
  | None => EmptyString
  | Some m => strip (replace " " "" (group 1 m))
  end.

(** [ACICODE\s+([A-Z0-9]+)], IGNORECASE. *)
Definition ac_code_pattern : regex :=
  cats [ilit "ACICODE"; plus is_space; Grp 1 (plus AZ09)].

Definition extract_ac_code (text : string) : string :=
  extract_first ac_code_pattern text.

(** [\bINSURED\b] and [\bPOLICY\s*NO], IGNORECASE. *)
Definition insured_start_pattern : regex := cats [Wb; ilit "INSURED"; Wb].
Definition insured_end_pattern : regex := cats [Wb; ilit "POLICY"; star is_space; ilit "NO"].

(** [CLASS\s+OF\s+INSURANCE], IGNORECASE. *)
Definition class_of_insurance_pattern : regex :=
  cats [ilit "CLASS"; plus is_space; ilit "OF"; plus is_space; ilit "INSURANCE"].

(** [\bROOM\b|\bBLOCK\b|\bFLAT\b|\bUNIT\b], IGNORECASE. *)
Definition address_stop_pattern : regex :=
  alts [cats [Wb; ilit "ROOM"; Wb]; cats [Wb; ilit "BLOCK"; Wb];
        cats [Wb; ilit "FLAT"; Wb]; cats [Wb; ilit "UNIT"; Wb]].

Definition extract_insured_name (text : string) : string :=
  match search insured_start_pattern text, search insured_end_pattern text with
  | Some start, Some end_ =>
      let segment := slice (m_end start) (m_start end_) text in
      let segment := sub class_of_insurance_pattern "" segment in
      let segment := split_head address_stop_pattern segment in
      strip (strip_chars " {" segment)
  | _, _ => EmptyString
  end.

(** [\bBUSINESS\s+INSURANCE\b], IGNORECASE. *)
Definition business_insurance_pattern : regex :=
  cats [Wb; ilit "BUSINESS"; plus is_space; ilit "INSURANCE"; Wb].

Definition extract_insurance_class_r (text : string) : string :=
  extract_first business_insurance_pattern text.

(** *** Money *)

Definition float_or_raise (s : string) : exc pyfloat :=
  match py_float s with
  | Some v => Ok v
  | None => Raise (ValueError ("could not convert string to float: " +:+ s))
  end.

(** [[^\d\s,]] *)
Definition money_noise : ascii -> bool :=
  neg (either is_digit (either is_space (is_char ","))).

Definition clean_money (raw : string) : exc pyfloat :=
  if is_empty raw then Ok zero
  else
    let raw := sub (Chr money_noise) "" raw in
    let digits := findall (plus is_digit) raw in
    match digits with
    | [] => Ok zero
    | _ => float_or_raise (join "" digits)
    end.

(** [TOTAL.*?\n] followed by the group [.*], IGNORECASE. *)
Definition total_pattern : regex :=
  cats [ilit "TOTAL"; lazy_star dot; Chr (is_char newline); Grp 1 (star dot)].

Definition extract_total_earning (text : string) : exc pyfloat :=
  match search total_pattern text with
  | None => Ok zero
  | Some m => clean_money (group 1 m)
  end.

(** [RENEWAL\s+PREMIUM.*?(\d[\d\s,]+)], IGNORECASE | DOTALL. *)
Definition renewal_premium_pattern : regex :=
  cats [ilit "RENEWAL"; plus is_space; ilit "PREMIUM"; lazy_star any_char;
        Grp 1 (Cat (Chr is_digit) (plus (either is_digit (either is_space (is_char ",")))))].

Definition extract_renewal_premium (text : string) : exc pyfloat :=
  match search renewal_premium_pattern text with
  | Some m => clean_money (group 1 m)
  | None => Ok zero
  end.

(** *** Renewal entries *)

Definition corrections : list (string * string) :=
  [("Q", "0"); ("o", "0"); ("O", "0"); ("z", "2"); ("Z", "2");
   ("l", "1"); ("|", "1"); ("I", "1")].

Definition fix_ocr_numbers (line : string) : string :=
  fold_left (fun line kv => replace (fst kv) (snd kv) line) corrections line.

Record renewal_entry : Type := mk_renewal_entry {
  label : string;
  amount : pyfloat
}.

(** [EMPLOYEES.*?(?=TOTAL)], IGNORECASE | DOTALL. *)
Definition block_pattern : regex :=
  cats [ilit "EMPLOYEES"; lazy_star any_char; Look (ilit "TOTAL")].

(** [[^A-Za-z0-9\s\-/\(\)]] *)
Definition label_noise : ascii -> bool :=
  neg (either is_AZ (either is_az (either is_digit (either is_space (one_of "-/()"))))).

(** [\s(?=\d[\.\-]?)] *)
Definition label_split_pattern : regex :=
  Cat (Chr is_space) (Look (Cat (Chr is_digit) (opt_chr (one_of ".-")))).

(** [[\d,]+\.\d+|[\d,]+] *)
Definition amount_pattern : regex :=
  Alt (cats [plus (either is_digit (is_char ",")); Chr (is_char "."); plus is_digit])
      (plus (either is_digit (is_char ","))).

(** [[line.strip() for line in block.split("\n") if line.strip()]] *)
Definition block_lines (block : string) : list string :=
  filter non_empty (map strip (split_char newline block)).

(** The labels: the second line of the block, cleaned and split. *)
Definition labels_of (lines : list string) : list string :=
  let labels_line := match lines !! 1 with Some l => l | None => EmptyString end in
  let labels_line_clean := sub (Chr label_noise) "" labels_line in
  filter non_empty (map strip (split label_split_pattern labels_line_clean)).

(** The body of the loop over [amount_lines]: the largest number of the
    line, 0.0 for a line without one.  [float] is not guarded here. *)
Definition amount_of_line (line : string) : exc pyfloat :=
  let clean_line := fix_ocr_numbers line in
  let num_strs := findall amount_pattern clean_line in
  match num_strs with
  | [] => Ok zero
  | _ =>
      let num_strs_clean := map (replace "," "") num_strs in
      nums ← emap float_or_raise num_strs_clean;
      pymax nums
  end.

(** [lines[2:]] *)
Definition amount_lines_of (lines : list string) : list string := drop 2 lines.

(** The loop [for i, label in enumerate(labels)]. *)
Definition zip_entries (labels : list string) (amounts : list pyfloat) : list renewal_entry :=
  imap
    (fun i label =>
       mk_renewal_entry label (match amounts !! i with Some a => a | None => zero end))
    labels.

Definition extract_renewal_entries (text : string) : exc (list renewal_entry) :=
  match search block_pattern text with
  | None => Ok []
  | Some block_match =>
      let block := group 0 block_match in
      let lines := block_lines block in
      let labels := labels_of lines in
      amounts ← emap amount_of_line (amount_lines_of lines);
      Ok (zip_entries labels amounts)
  end.

(** *** The parser *)

Record renewal_notice : Type := mk_renewal_notice {
  issue_date : string;
  insured : string;
  insurance_class : string;
  policy_number : string;
  expiry_date : string;
  ac_code : string;
  renewal_entries : list renewal_entry;
  total_earning : pyfloat;
  renewal_premium : pyfloat;
  uploaded_by : string
}.

(** The [print] calls are left out. *)
Definition parse_renewal_notice_text (raw_text : string) (insured_or_agent : string)
    : exc renewal_notice :=
  let text := normalize_ocr_text raw_text in
  let issue_date := extract_date_after "ISSUE DATE" text in
  let expiry_date := extract_date_after "EXPIRY DATE" text in
  let insured := extract_insured_name text in
  let insurance_class := extract_insurance_class_r text in
  let policy_number := extract_policy_number_r text in
  let ac_code := extract_ac_code text in
  renewal_entries ← extract_renewal_entries text;
  total_earning ← extract_total_earning text;
  renewal_premium ← extract_renewal_premium text;
  Ok (mk_renewal_notice issue_date insured insurance_class policy_number expiry_date
                        ac_code renewal_entries total_earning renewal_premium
                        insured_or_agent).

End RenewalNotice.

(* ===================================================================== *)
(** ** [ocr/document_parser.py] *)
(* ===================================================================== *)

Module DocumentParser.
Import Py.

(** What [parse_document] returns: the record of one of the three parsers. *)
Inductive parsed_document : Type :=
| DebitNoteRecord (d : DebitNote.debit_note)
| AccountStatementRecord (a : AccountStatement.account_statement)
| RenewalNoticeRecord (r : RenewalNotice.renewal_notice).

(** The parsers are called with their second parameter at its default,
    the empty string. *)
Definition parse_document (raw_text : string) (doc_type : string) : exc parsed_document :=
  if String.eqb doc_type "debit_note" then
    DebitNoteRecord <$> DebitNote.parse_debit_note_text raw_text ""
  else if String.eqb doc_type "account_statement" then
    AccountStatementRecord <$> AccountStatement.parse_account_statement_text raw_text ""
  else if String.eqb doc_type "renewal_notice" then
    RenewalNoticeRecord <$> RenewalNotice.parse_renewal_notice_text raw_text ""
  else Raise (ValueError ("Unsupported document type: " +:+ doc_type)).

End DocumentParser.

(* ===================================================================== *)
(** ** [app.py]: the check of an uploaded file name *)
(* ===================================================================== *)

Module App.
Import Py.

(** [l[i]] *)
Definition item {A : Type} (i : nat) (l : list A) : exc A :=
  match l !! i with
  | Some x => Ok x
  | None => Raise (IndexError "list index out of range")
  end.

Definition ALLOWED_EXTENSIONS : gset string := {[ "pdf"; "docx"; "xlsx"; "txt" ]}.

(** [s.rsplit(sep, 1)] for a one-character separator: the text before the
    last separator and the text after it, or the text alone when it holds
    no separator. *)
Definition rsplit1 (sep : ascii) (s : string) : list string :=
  let (after, before) := span (fun c => negb (Ascii.eqb c sep)) (srev s) in
  match before with
  | EmptyString => [s]
  | String _ before' => [srev before'; srev after]
  end.

(** [allowed_file(filename)], of which the callers read the truth value:
    the [and] chain stops at the first operand that is false. *)
Definition allowed_file (filename : string) : exc bool :=
  if is_empty filename then Ok false
  else if negb (contains "." filename) then Ok false
  else
    ext ← item 1 (rsplit1 "." filename);
    Ok (bool_decide (lower ext ∈ ALLOWED_EXTENSIONS)).

End App.

(* ===================================================================== *)
(** ** [db.py]: the statements of the list queries *)
(* ===================================================================== *)

Module Db.
Import Py.

(** A bound parameter. *)
Inductive sql_value : Type :=
| SqlInteger (z : Z)
| SqlText (s : string).

(** A filter, the dict with the keys 'field', 'op' and 'value'. *)
Record query_filter : Type := mk_query_filter {
  f_field : string;
  f_op : string;
  f_value : string
}.

(** One turn of the loop [for f in filters], which the six list queries
    have in common, on the state [(query, params)]. *)
Definition add_filter (fields : list string) (st : string * list sql_value) (f : query_filter)
    : string * list sql_value :=
  let '(query, params) := st in
  if bool_decide (f_field f ∈ fields) then
    if String.eqb (upper (f_op f)) "LIKE" then
      (query +:+ " AND " +:+ f_field f +:+ " LIKE ?",
       params ++ [SqlText ("%" +:+ f_value f +:+ "%")])
    else
      (query +:+ " AND " +:+ f_field f +:+ " " +:+ f_op f +:+ " ?",
       params ++ [SqlText (f_value f)])
  else (query, params).

Definition line_feed : string := String (ascii_of_nat 10) EmptyString.

(** The text of a triple-quoted query, line by line. *)
Definition query_text (lines : list string) : string := join line_feed lines.

Definition debit_notes_query : string :=
  query_text
    [""; "        SELECT id, issue_date, insured_or_agent, insurance_class,";
     "               policy_number, endorsement_number, account_number, uploaded_by,";
     "               file_name";
     "        FROM debit_notes";
     "        WHERE 1=1";
     "    "].

Definition debit_notes_fields : list string :=
  ["id"; "issue_date"; "insured_or_agent"; "insurance_class"; "policy_number";
   "endorsement_number"; "account_number"; "uploaded_by"].

Definition debit_note_financials_query : string :=
  query_text
    [""; "        SELECT id, category, gross_premium, commission,";
     "               overriding_insurer, cost, profit";
     "        FROM debit_note_financials";
     "        WHERE debit_note_id = ?";
     "    "].

Definition debit_note_financials_fields : list string :=
  ["category"; "gross_premium"; "commission"; "overriding_insurer"; "cost"; "profit"].

Definition account_statements_query : string :=
  query_text
    [""; "        SELECT id, issue_date, address, account_number,";
     "               total_premium_due, premium_due_date, uploaded_by,";
     "               file_name";
     "        FROM account_statements";
     "        WHERE 1=1";
     "    "].

Definition account_statements_fields : list string :=
  ["id"; "issue_date"; "address"; "account_number"; "total_premium_due";
   "premium_due_date"; "uploaded_by"].

Definition account_statement_entries_query : string :=
  query_text
    [""; "        SELECT id, effective_date, debit_note, policy_number, premium";
     "        FROM account_statement_entries";
     "        WHERE account_statement_id = ?";
     "    "].

Definition account_statement_entries_fields : list string :=
  ["effective_date"; "debit_note"; "policy_number"; "premium"].

Definition renewal_notices_query : string :=
  query_text
    [""; "        SELECT id, issue_date, insured, insurance_class,";
     "               policy_number, expiry_date, ac_code,";
     "               total_earning, renewal_premium, uploaded_by,";
     "               file_name";
     "        FROM renewal_notices";
     "        WHERE 1=1";
     "    "].

Definition renewal_notices_fields : list string :=
  ["id"; "issue_date"; "insured"; "insurance_class"; "policy_number"; "expiry_date";
   "ac_code"; "total_earning"; "renewal_premium"; "uploaded_by"].

Definition renewal_notice_entries_query : string :=
  query_text
    [""; "        SELECT id, label, amount";
     "        FROM renewal_notice_entries";
     "        WHERE renewal_notice_id = ?";
     "    "].

Definition renewal_notice_entries_fields : list string := ["label"; "amount"].

(** What each list query passes to [cur.execute]: the text of the statement
    and its parameters. *)
Definition fetch_debit_notes (filters : list query_filter) : string * list sql_value :=
  fold_left (add_filter debit_notes_fields) filters (debit_notes_query, []).

Definition fetch_debit_note_financials (note_id : Z) (filters : list query_filter)
    : string * list sql_value :=
  fold_left (add_filter debit_note_financials_fields) filters
            (debit_note_financials_query, [SqlInteger note_id]).

Definition fetch_account_statements (filters : list query_filter) : string * list sql_value :=
  fold_left (add_filter account_statements_fields) filters (account_statements_query, []).

Definition fetch_account_statement_entries (stmt_id : Z) (filters : list query_filter)
    : string * list sql_value :=
  fold_left (add_filter account_statement_entries_fields) filters
            (account_statement_entries_query, [SqlInteger stmt_id]).

Definition fetch_renewal_notices (filters : list query_filter) : string * list sql_value :=
  fold_left (add_filter renewal_notices_fields) filters (renewal_notices_query, []).

Definition fetch_renewal_notice_entries (notice_id : Z) (filters : list query_filter)
    : string * list sql_value :=
  fold_left (add_filter renewal_notice_entries_fields) filters
            (renewal_notice_entries_query, [SqlInteger notice_id]).

End Db.

(* ===================================================================== *)
(** ** What a match is: a relational reading of the patterns *)
(* ===================================================================== *)

Module ReSem.
Import Py Re.

(** The character before the position reached by reading [w]. *)
Fixpoint prev_after (prev : option ascii) (w : string) : option ascii :=
  match w with
  | EmptyString => prev
  | String a w' => prev_after (Some a) w'
  end.

(** [Matches r c g c' g']: read from the position [c] with the groups [g],
    the pattern [r] can end at [c'] with the groups [g'].  The relation says
    which matches exist, not which one the matcher prefers. *)
Inductive Matches : regex -> cursor -> caps -> cursor -> caps -> Prop :=
| M_Eps c g : Matches Eps c g c g
| M_Chr p prev a s g :
    p a = true -> Matches (Chr p) (prev, String a s) g (Some a, s) g
| M_Cat r1 r2 c g c1 g1 c2 g2 :
    Matches r1 c g c1 g1 -> Matches r2 c1 g1 c2 g2 -> Matches (Cat r1 r2) c g c2 g2
| M_AltL r1 r2 c g c' g' : Matches r1 c g c' g' -> Matches (Alt r1 r2) c g c' g'
| M_AltR r1 r2 c g c' g' : Matches r2 c g c' g' -> Matches (Alt r1 r2) c g c' g'
| M_Rep greedy lo hi p prev w s g :
    sforall p w = true -> lo <= String.length w ->
    (forall h, hi = Some h -> String.length w <= h) ->
    Matches (Rep greedy lo hi p) (prev, w +:+ s) g (prev_after prev w, s) g
| M_OptTake r c g c' g' : Matches r c g c' g' -> Matches (Opt r) c g c' g'
| M_OptSkip r c g : Matches (Opt r) c g c g
| M_Grp n r c g c' g' :
    Matches r c g c' g' ->
    Matches (Grp n r) c g c' ((n, consumed (snd c) (snd c')) :: g')
| M_Look r c g c' g' : Matches r c g c' g' -> Matches (Look r) c g c g'
| M_Bos s g : Matches Bos (None, s) g (None, s) g
| M_Eol c g : at_end_or_last_newline (snd c) = true -> Matches Eol c g c g
| M_Eos prev g : Matches Eos (prev, EmptyString) g (prev, EmptyString) g
| M_Wb c g : xorb (word_before c) (word_after c) = true -> Matches Wb c g c g.

End ReSem.

(* ===================================================================== *)
(** ** What the claims are stated with *)
(* ===================================================================== *)

Module Spec.
Import Py Re PyNum.

(** [k] occurs in [x] as a substring. *)
Definition occurs_in (k x : string) : Prop :=
  exists pre post, x = pre +:+ k +:+ post.

(** [x] holds no trigger of the normalizer's replacement table. *)
Definition no_trigger (x : string) : Prop :=
  forall k v, (k, v) ∈ DebitNote.replacements -> ~ occurs_in k x.

(** The ISO form YYYY-MM-DD: four digits, a dash, two digits, a dash, two
    digits, and nothing else. *)
Definition is_iso_date (s : string) : bool :=
  match list_of_str s with
  | [y1; y2; y3; y4; d1; m1; m2; d2; a1; a2] =>
      is_digit y1 && is_digit y2 && is_digit y3 && is_digit y4 && is_char "-" d1
      && is_digit m1 && is_digit m2 && is_char "-" d2 && is_digit a1 && is_digit a2
  | _ => false
  end.

(** The form dd/mm/yyyy. *)
Definition is_slash_date (s : string) : bool :=
  match list_of_str s with
  | [a1; a2; d1; m1; m2; d2; y1; y2; y3; y4] =>
      is_digit a1 && is_digit a2 && is_char "/" d1 && is_digit m1 && is_digit m2
      && is_char "/" d2 && is_digit y1 && is_digit y2 && is_digit y3 && is_digit y4
  | _ => false
  end.

(** A value exceeds the floor of the debit-note financial extractor. *)
Definition above_floor (v : pyfloat) : Prop := gt v (of_Z 50) = true.

(** The text of the spec's end-to-end example, and one whose five tokens all
    exceed the floor. *)
Definition text_three_above : string := "GROSS PREMIUM 1000 200 50 30 120 MANAGER COPY".
Definition text_five_above : string := "GROSS PREMIUM 1000 200 150 130 120 MANAGER COPY".

(** The characters a cleaned number is made of. *)
Definition digit_or_dot : ascii -> bool := either is_digit (is_char ".").

(** A float is finite and not negative. *)
Definition finite_nonneg (v : pyfloat) : Prop := exists q, v = Fin q /\ (0 <= q)%Q.

(** A float without a fractional part: [inf], or an integer that is not
    negative. *)
Definition whole_number (v : pyfloat) : Prop :=
  v = PosInf \/ exists z : Z, (0 <= z)%Z /\ v = Fin (inject_Z z).

(** The outcome of [strftime] for a year below 1000. *)
Definition short_year_date (s : string) : Prop :=
  exists d, year d < 1000 /\ s = strftime_Ymd d.

(** A date field of the account statement: empty, or in ISO form, or the
    shorter form of a year below 1000. *)
Definition iso_or_empty (s : string) : Prop :=
  s = "" \/ is_iso_date s = true \/ short_year_date s.

(** A renewal-notice block with two labels and one amount line, which
    holds nothing but a comma. *)
Definition comma_line_text : string :=
  "EMPLOYEES" +:+ RenewalNotice.NL +:+ "1. Clerk 2. Driver" +:+ RenewalNotice.NL
  +:+ "," +:+ RenewalNotice.NL +:+ "TOTAL".

(** A renewal-notice block with three labels and two amount lines. *)
Definition three_labels_text : string :=
  "EMPLOYEES" +:+ RenewalNotice.NL +:+ "1. Clerk 2. Driver 3. Cook" +:+ RenewalNotice.NL
  +:+ "10 1,200.50" +:+ RenewalNotice.NL +:+ "3400" +:+ RenewalNotice.NL +:+ "TOTAL".

(** The entry block of an account statement: a header entry, three dated
    lines, and two policy/nature pairs. *)
Definition sample_statement : string :=
  "EFFECTIVE DATE DEBIT NOTE NO. 01/02/2025 BX-123" +:+ RenewalNotice.NL
  +:+ "PREMIUM POL-1 12.0) POL-2 3Q.5) T0TAL HXS" +:+ RenewalNotice.NL
  +:+ "1 296 20" +:+ RenewalNotice.NL
  +:+ "01/02/2025" +:+ RenewalNotice.NL +:+ "B123" +:+ RenewalNotice.NL
  +:+ "500.25" +:+ RenewalNotice.NL
  +:+ "02/02/2025" +:+ RenewalNotice.NL
  +:+ "03/02/2025" +:+ RenewalNotice.NL +:+ "77".

(** A text of [n] nines. *)
Definition nines (n : nat) : string := str_of_list (repeat "9"%char n).

End Spec.

(* ===================================================================== *)
(** ** What the further properties are stated with *)
(* ===================================================================== *)

Module Props.
Import Py Re PyNum Spec.

(** The character map of [s.replace(a, b)] for single characters. *)
Definition swap_char (a b : ascii) : ascii -> ascii :=
  fun c => if Ascii.eqb a c then b else c.

(** The labels of the copies of a debit note. *)
Definition copy_labels : list string := ["manager"; "agent"; "account"; "file"].

(** A figure of a financial line item: a finite number above 50. *)
Definition figure (v : pyfloat) : Prop := exists q, v = Fin q /\ (50 < q)%Q.

(** What the loop of [extract_manager_financials] passes to [float]. *)
Definition token_text (n : string) : string := replace "," "." (replace " " "" n).

(** The form of a numeric token: two to four digits, at most one separator
    (a point, a comma or a blank) and at most two more digits. *)
Definition number_token (n : string) : Prop :=
  exists w1 w2 w3,
    n = w1 +:+ w2 +:+ w3 /\ sforall is_digit w1 = true /\ 2 <= String.length w1 <= 4
    /\ (w2 = "" \/ w2 = "." \/ w2 = "," \/ w2 = " ")
    /\ sforall is_digit w3 = true /\ String.length w3 <= 2.

#[global] Instance above_floor_dec v : Decision (above_floor v).
Proof. unfold above_floor. apply _. Defined.

(** A text with the label and the five numbers 1000, 200, 51, 52 and 120,
    all above the floor, of which the second and the third make one
    token. *)
Definition text_joined_numbers : string := "GROSS PREMIUM 1000 200 51 52 120".

(** A text of characters below 128, on which [str.upper] and [str.lower]
    change nothing but the letters a to z and A to Z. *)
Definition ascii_text (s : string) : Prop := sforall (fun c => code c <? 128) s = true.

(** [s] holds [n] consecutive characters of the class [p]. *)
Definition has_run (n : nat) (p : ascii -> bool) (s : string) : Prop :=
  exists pre w post, s = pre +:+ w +:+ post /\ String.length w = n /\ sforall p w = true.

(** A letter of either case, a digit or a hyphen. *)
Definition code_char (c : ascii) : bool := is_AZ c || is_az c || is_digit c || is_char "-" c.

(** A letter of either case or a digit. *)
Definition letter_or_digit (c : ascii) : bool := is_AZ c || is_az c || is_digit c.

(** A capital letter or a blank. *)
Definition capital_or_blank : ascii -> bool := either is_AZ (is_char " ").

(** A float read from an unsigned text: finite and not negative, or [inf]. *)
Definition unsigned_value (v : pyfloat) : Prop := finite_nonneg v \/ v = PosInf.

(** Neither a minus sign nor the letter n, without which [float] reads
    neither a negative number nor [nan]. *)
Definition unsigned_char (c : ascii) : bool := negb (is_char "-" c) && negb (ci "n" c).

(** A debit note reference: the letter B, then at least one character that
    is alphanumeric, an underscore, a hyphen or a question mark. *)
Definition debit_reference (s : string) : Prop :=
  exists b rest,
    s = String b rest /\ ci "B" b = true /\ rest <> ""
    /\ sforall (either is_word (one_of "-?")) rest = true.

(** A character of a cleaned policy number: a letter, a digit or a hyphen,
    but none of o, O and l, which are read as digits. *)
Definition policy_char (c : ascii) : bool := code_char c && negb (one_of "oOl" c).

(** The fields of an element of the date/debit/premium sequence, and of a
    policy/nature pair. *)
Definition structured_fields (se : AccountStatement.structured_entry) : Prop :=
  is_slash_date (AccountStatement.se_effective_date se) = true
  /\ (forall d, AccountStatement.se_debit_note se = Some d -> debit_reference d)
  /\ unsigned_value (AccountStatement.se_premium se).

Definition pair_fields (p : AccountStatement.pair) : Prop :=
  sforall policy_char (AccountStatement.pair_policy_number p) = true
  /\ unsigned_value (AccountStatement.pair_nature p).

(** The fields of an entry of an account statement. *)
Definition entry_fields (e : AccountStatement.entry) : Prop :=
  is_slash_date (AccountStatement.effective_date e) = true
  /\ (forall d, AccountStatement.debit_note e = Some d -> debit_reference d)
  /\ unsigned_value (AccountStatement.premium e)
  /\ (forall p, AccountStatement.policy_number e = Some p -> sforall policy_char p = true)
  /\ (forall v, AccountStatement.nature e = Some v -> unsigned_value v).

(** The character map of [fix_ocr_numbers]. *)
Definition fix_char (c : ascii) : ascii :=
  if one_of "QoO" c then "0"%char
  else if one_of "zZ" c then "2"%char
  else if one_of "l|I" c then "1"%char
  else c.

(** A word: a text that is not empty and holds no white space. *)
Definition word (w : string) : Prop := w <> "" /\ sforall (neg is_space) w = true.

(** A tidy line: words, at least one, with single blanks between them. *)
Definition tidy_line (l : string) : Prop :=
  exists ws, ws <> [] /\ Forall word ws /\ l = join " " ws.

(** A text without a comma. *)
Definition comma_free (s : string) : Prop := sforall (neg (is_char ",")) s = true.

(** A digit or a comma. *)
Definition digit_or_comma : ascii -> bool := either is_digit (is_char ",").

(** A line that holds "COPY" once put in capitals. *)
Definition copy_line (line : string) : bool := contains "COPY" (upper line).

(** A block of lines: not empty, and with no COPY line after its first
    line. *)
Definition copy_block (g : list string) : Prop :=
  g <> [] /\ Forall (fun l => copy_line l = false) (tail g).

(** A block whose first line is a COPY line. *)
Definition opened_block (g : list string) : Prop :=
  exists l rest, g = l :: rest /\ copy_line l = true.

(** The blocks of a text: every block but the first starts at a COPY
    line. *)
Definition copy_blocks (groups : list (list string)) : Prop :=
  Forall copy_block groups /\ Forall opened_block (tail groups).

(** A filter on one of the listed columns; a filter whose operator holds no
    question mark. *)
Definition known_field (fields : list string) (f : Db.query_filter) : Prop :=
  Db.f_field f ∈ fields.
#[global] Instance known_field_dec fields f : Decision (known_field fields f).
Proof. unfold known_field. apply _. Defined.

Definition plain_op (f : Db.query_filter) : Prop := count "?" (Db.f_op f) = 0.

(** A statement with as many placeholders as parameters. *)
Definition balanced (st : string * list Db.sql_value) : Prop :=
  count "?" (fst st) = length (snd st).

(** A line that is a date of the form dd/mm/yyyy and nothing else. *)
Definition date_line (l : string) : Prop :=
  AccountStatement.matches AccountStatement.date_pattern l = true.
#[global] Instance date_line_dec l : Decision (date_line l).
Proof. unfold date_line. apply _. Defined.

(** The month abbreviations of an endorsement number, and a reference made
    of one of them, a hyphen, at most one capital letter and one to four
    digits. *)
Definition month_codes : list string :=
  ["JAN"; "FEB"; "MAR"; "APR"; "MAY"; "JUN"; "JUL"; "AUG"; "SEP"; "OCT"; "NOV"; "DEC"].

Definition month_reference (s : string) : Prop :=
  exists mon l d,
    s = mon +:+ "-" +:+ l +:+ d /\ mon ∈ month_codes
    /\ String.length l <= 1 /\ sforall is_AZ l = true
    /\ 1 <= String.length d <= 4 /\ sforall is_digit d = true.

(** Neither white space nor an underscore. *)
Definition joined (c : ascii) : bool := negb (either is_space (is_char "_") c).

(** A character of the code of an insurance class: a digit, or a small o
    or q, which the corrections of capital O and Q leave as they are. *)
Definition class_code_char : ascii -> bool := either is_digit (one_of "oq").

(** A pattern without lookahead. *)
Fixpoint look_free (r : regex) : bool :=
  match r with
  | Cat r1 r2 | Alt r1 r2 => look_free r1 && look_free r2
  | Opt r1 | Grp _ r1 => look_free r1
  | Look _ => false
  | _ => true
  end.

End Props.

(* ===================================================================== *)
(** ** Strings: replacement *)
(* ===================================================================== *)

Module StringFacts.
Import Py Spec.

Lemma append_nil_r (s : string) : s +:+ "" = s.
Proof. induction s as [|c s IH]; simpl; [reflexivity | now rewrite IH]. Qed.

Lemma append_assoc (a b c : string) : (a +:+ b) +:+ c = a +:+ (b +:+ c).
Proof. induction a as [|x a IH]; simpl; [reflexivity | now rewrite IH]. Qed.

Lemma length_append (a b : string) :
  String.length (a +:+ b) = String.length a + String.length b.
Proof. induction a as [|x a IH]; simpl; [reflexivity | now rewrite IH]. Qed.

Lemma starts_with_spec (k x : string) :
  starts_with k x = true <-> exists post, x = k +:+ post.
Proof.
  revert x. induction k as [|a k IH]; intros x; simpl.
  - split; [intros _; now exists x | reflexivity].
  - destruct x as [|b x].
    + split; [discriminate | intros [post H]; discriminate].
    + rewrite andb_true_iff, Ascii.eqb_eq, IH. split.
      * intros [-> [post ->]]. now exists post.
      * intros [post H]. injection H as -> ->. split; [reflexivity | now exists post].
Qed.

Lemma contains_spec (k x : string) : contains k x = true <-> occurs_in k x.
Proof.
  induction x as [|c x IH].
  - simpl. rewrite orb_false_r, starts_with_spec. split.
    + intros [post H]. exists "", post. exact H.
    + intros [pre [post H]]. destruct pre; simpl in H.
      * now exists post.
      * discriminate.
  - simpl. rewrite orb_true_iff, starts_with_spec, IH. split.
    + intros [[post H] | [pre [post H]]].
      * exists "", post. exact H.
      * exists (String c pre), post. simpl. now rewrite H.
    + intros [pre [post H]]. destruct pre as [|d pre]; simpl in H.
      * left. now exists post.
      * right. injection H as _ H. now exists pre, post.
Qed.

Lemma replace_from_absent (old new s : string) :
  contains old s = false -> replace_from old new 0 s = s.
Proof.
  induction s as [|c s IH]; simpl; [reflexivity |].
  intros H. apply orb_false_iff in H as [Hp Hc].
  simpl in Hp. rewrite Hp. now rewrite IH.
Qed.

(** A text without the key is left as it is. *)
Lemma replace_absent (old new s : string) :
  old <> "" -> contains old s = false -> replace old new s = s.
Proof.
  intros Hne Hc. destruct old; [congruence |].
  unfold replace. now apply replace_from_absent.
Qed.

Lemma replace_table_absent (table : list (string * string)) (x : string) :
  Forall (fun kv => fst kv <> "" /\ contains (fst kv) x = false) table ->
  fold_left (fun text kv => replace (fst kv) (snd kv) text) table x = x.
Proof.
  induction 1 as [|kv table [Hne Hc] _ IH]; simpl; [reflexivity |].
  rewrite replace_absent by assumption. exact IH.
Qed.

Lemma no_trigger_iff (x : string) :
  no_trigger x <->
  forallb (fun kv => negb (contains (fst kv) x)) DebitNote.replacements = true.
Proof.
  rewrite forallb_forall. split.
  - intros H [k v] Hin. simpl. destruct (contains k x) eqn:E; [| reflexivity].
    exfalso. apply (H k v); [now apply list_elem_of_In | now apply contains_spec].
  - intros H k v Hin Hocc. apply list_elem_of_In in Hin.
    specialize (H (k, v) Hin). simpl in H.
    apply contains_spec in Hocc. rewrite Hocc in H. discriminate.
Qed.

End StringFacts.

(* ===================================================================== *)
(** ** The normalizer *)
(* ===================================================================== *)

Module NormalizerFacts.
Import Py Spec StringFacts DebitNote.

Lemma replacement_keys_nonempty :
  Forall (fun kv : string * string => fst kv <> "") replacements.
Proof. repeat constructor; discriminate. Qed.

Lemma normalize_text_absent (x : string) : no_trigger x -> normalize_text x = x.
Proof.
  intros H. unfold normalize_text. apply replace_table_absent.
  apply Forall_forall. intros [k v] Hin. simpl. split.
  - pose proof replacement_keys_nonempty as Hk.
    rewrite Forall_forall in Hk. exact (Hk (k, v) Hin).
  - destruct (contains k x) eqn:E; [| reflexivity].
    exfalso. apply (H k v Hin). now apply contains_spec.
Qed.

(** C9.  On a text that holds no trigger substring of the replacement
    table the normalizer changes nothing, so applying it twice gives the
    same as applying it once. *)
Theorem normalize_text_noop_without_trigger (x : string) :
  no_trigger x ->
  normalize_text x = x /\ normalize_text (normalize_text x) = normalize_text x.
Proof.
  intros H. pose proof (normalize_text_absent x H) as E.
  split; [exact E | now rewrite E].
Qed.

Lemma normalize_text_noop_without_trigger_witness :
  no_trigger "POLICY NO. ABC-1234567890" /\
  normalize_text "POLICY NO. ABC-1234567890" = "POLICY NO. ABC-1234567890" /\
  normalize_text (normalize_text "POLICY NO. ABC-1234567890")
    = normalize_text "POLICY NO. ABC-1234567890".
Proof.
  assert (Hn : no_trigger "POLICY NO. ABC-1234567890")
    by (apply no_trigger_iff; vm_compute; reflexivity).
  split; [exact Hn |].
  apply (normalize_text_noop_without_trigger "POLICY NO. ABC-1234567890"). exact Hn.
Defined.

End NormalizerFacts.

(* ===================================================================== *)
(** ** Debit note: the financial line items *)
(* ===================================================================== *)

Module FinancialFacts.
Import Py Re PyNum DebitNote Spec.

Section FromEnd.
Context {A : Type}.
Implicit Types (l pre suf : list A) (k : nat).

Lemma from_end_app pre suf k :
  1 <= k -> k <= length suf -> from_end k (pre ++ suf) = from_end k suf.
Proof.
  intros H1 H2. unfold from_end. rewrite length_app.
  destruct (Nat.leb_spec k (length pre + length suf)); [| lia].
  destruct (Nat.leb_spec k (length suf)); [| lia].
  rewrite lookup_app_r by lia.
  replace (length pre + length suf - k - length pre) with (length suf - k) by lia.
  reflexivity.
Qed.

Lemma from_end_elem l k x : from_end k l = Ok x -> x ∈ l.
Proof.
  unfold from_end. destruct (k <=? length l); [| discriminate].
  destruct (l !! (length l - k)) eqn:E; [| discriminate].
  intros [= <-]. apply list_elem_of_lookup. eauto.
Qed.
End FromEnd.

Lemma qualifying_value_above_floor n v : qualifying_value n = Some v -> above_floor v.
Proof.
  unfold qualifying_value, above_floor.
  destruct (py_float _) as [w|]; [| discriminate].
  destruct (gt w (of_Z 50)) eqn:E; [| discriminate].
  now intros [= <-].
Qed.

Lemma qualifying_values_above_floor text v :
  v ∈ qualifying_values text -> above_floor v.
Proof.
  unfold qualifying_values. intros H.
  apply list_elem_of_omap in H as (n & _ & Hn).
  eapply qualifying_value_above_floor; eauto.
Qed.

(** Every figure of every line item exceeds the floor of 50. *)
Lemma financials_above_floor text results r :
  extract_manager_financials text = Ok results -> r ∈ results ->
  above_floor (gross_premium r) /\ above_floor (commission r)
  /\ above_floor (overriding_insurer r) /\ above_floor (cost r)
  /\ above_floor (profit r).
Proof.
  unfold extract_manager_financials.
  destruct (search gross_premium_pattern text); [| intros [= <-] H; inversion H].
  destruct (length (qualifying_values text) <? 5); [intros [= <-] H; inversion H |].
  destruct (from_end 5 _) as [a|] eqn:Ea; [| discriminate].
  destruct (from_end 4 _) as [b|] eqn:Eb; [| discriminate].
  destruct (from_end 3 _) as [c|] eqn:Ec; [| discriminate].
  destruct (from_end 2 _) as [d|] eqn:Ed; [| discriminate].
  destruct (from_end 1 _) as [e|] eqn:Ee; [| discriminate].
  simpl. intros [= <-] H. apply list_elem_of_fmap in H as (l & -> & _). simpl.
  repeat split; eapply qualifying_values_above_floor, from_end_elem; eauto.
Qed.

(** The record of the result once the last five values are known. *)
Lemma extract_manager_financials_suffix text pre a b c d e :
  is_Some (search gross_premium_pattern text) ->
  qualifying_values text = pre ++ [a; b; c; d; e] ->
  extract_manager_financials text =
    Ok (map (mk_financial a b c d e)
            (elements (if decide (detect_copy_types text = ∅)
                       then {[ "manager" ]} else detect_copy_types text))).
Proof.
  intros [m Hm] Hv. unfold extract_manager_financials. rewrite Hm, Hv.
  destruct (Nat.ltb_spec (length (pre ++ [a; b; c; d; e])) 5) as [Hlt|_].
  { rewrite length_app in Hlt. simpl in Hlt. lia. }
  rewrite !from_end_app by (simpl; lia). reflexivity.
Qed.

(** The line items in terms of the values that the loop keeps: with the
    label and at least five values there is one item for each detected copy
    label, a single "manager" item when none is detected, and the figures
    of every item are the last five values in order; with fewer than five
    values the result is the empty list. *)
Lemma extract_manager_financials_last_five (text : string) :
  (length (qualifying_values text) < 5 -> extract_manager_financials text = Ok []) /\
  (forall pre a b c d e,
     is_Some (search gross_premium_pattern text) ->
     qualifying_values text = pre ++ [a; b; c; d; e] ->
     exists results,
       extract_manager_financials text = Ok results
       /\ NoDup results
       /\ (forall r, r ∈ results ->
             gross_premium r = a /\ commission r = b /\ overriding_insurer r = c
             /\ cost r = d /\ profit r = e)
       /\ (detect_copy_types text = ∅ -> results = [mk_financial a b c d e "manager"])
       /\ (detect_copy_types text <> ∅ ->
             length results = size (detect_copy_types text)
             /\ forall l, l ∈ detect_copy_types text <-> mk_financial a b c d e l ∈ results)).
Proof.
  split.
  - intros Hlt. unfold extract_manager_financials.
    destruct (search gross_premium_pattern text); [| reflexivity].
    destruct (Nat.ltb_spec (length (qualifying_values text)) 5); [reflexivity | lia].
  - intros pre a b c d e Hg Hv.
    eexists. split; [exact (extract_manager_financials_suffix text pre a b c d e Hg Hv) |].
    assert (Hinj : Inj (=) (=) (mk_financial a b c d e)) by (intros x y [= ->]; reflexivity).
    split; [| split; [| split]].
    + apply NoDup_fmap_2; [exact Hinj | apply NoDup_elements].
    + intros r Hr. apply list_elem_of_fmap in Hr as (l & -> & _). simpl. tauto.
    + intros ->. rewrite decide_True by reflexivity. now rewrite elements_singleton.
    + intros Hne. rewrite decide_False by exact Hne. split.
      * now rewrite length_map.
      * intros l. rewrite <- elem_of_elements. split.
        -- intros Hl. apply list_elem_of_fmap. eauto.
        -- intros Hl. apply list_elem_of_fmap in Hl as (l' & Heq & Hl').
           apply Hinj in Heq. now subst.
Qed.

(** C2, as the spec words it, fails: no text at all yields the record with
    overriding_insurer 50 and cost 30, since neither exceeds the floor; the
    text of the spec's example yields no record. *)
Lemma no_text_yields_spec_record :
  (~ exists text,
       extract_manager_financials text =
         Ok [mk_financial (Fin 1000) (Fin 200) (Fin 50) (Fin 30) (Fin 120) "manager"])
  /\ extract_manager_financials text_three_above = Ok [].
Proof.
  split; [| vm_compute; reflexivity].
  intros [text H].
  destruct (financials_above_floor text _ _ H (list_elem_of_here _ _))
    as (_ & _ & Hc & _).
  vm_compute in Hc. discriminate.
Qed.

(** C2, amended.  The text of the spec, with the tokens 1000 200 50 30 120,
    yields no line item; a text with a "GROSS PREMIUM" label, five tokens
    above the floor (1000 200 150 130 120) and a "MANAGER COPY" marker
    yields exactly one record, of category "manager", whose figures are
    those five tokens in order. *)
Theorem manager_copy_end_to_end :
  extract_manager_financials text_three_above = Ok [] /\
  extract_manager_financials text_five_above =
    Ok [mk_financial (Fin 1000) (Fin 200) (Fin 150) (Fin 130) (Fin 120) "manager"].
Proof. split; vm_compute; reflexivity. Qed.

End FinancialFacts.

(* ===================================================================== *)
(** ** The matcher is sound for the relational reading *)
(* ===================================================================== *)

Module ReFacts.
Import Py Re ReSem StringFacts.

Lemma rep_sound (R : Type) (greedy : bool) (p : ascii -> bool) :
  forall s lo hi prev g (k : cursor -> caps -> option R) x,
    rep R greedy p lo hi prev s g k = Some x ->
    exists w s',
      s = w +:+ s' /\ sforall p w = true /\ lo <= String.length w
      /\ (forall h, hi = Some h -> String.length w <= h)
      /\ k (prev_after prev w, s') g = Some x.
Proof.
  assert (Hstop : forall s lo hi prev g (k : cursor -> caps -> option R) x,
             match lo with O => k (prev, s) g | S _ => None end = Some x ->
             exists w s',
               s = w +:+ s' /\ sforall p w = true /\ lo <= String.length w
               /\ (forall h, hi = Some h -> String.length w <= h)
               /\ k (prev_after prev w, s') g = Some x).
  { intros s lo hi prev g k x H. destruct lo; [| discriminate].
    exists "", s. simpl. repeat split; auto; intros; lia. }
  induction s as [|a s IH]; intros lo hi prev g k x H.
  - apply Hstop. simpl in H.
    destruct greedy; simpl in H;
      destruct (match lo with O => k (prev, "") g | S _ => None end); now inversion H.
  - assert (Hmore : (if p a && may_take hi
                     then rep R greedy p (Nat.pred lo) (option_map Nat.pred hi) (Some a) s g k
                     else None) = Some x ->
             exists w s',
               String a s = w +:+ s' /\ sforall p w = true /\ lo <= String.length w
               /\ (forall h, hi = Some h -> String.length w <= h)
               /\ k (prev_after prev w, s') g = Some x).
    { destruct (p a) eqn:Hp; [| discriminate].
      destruct (may_take hi) eqn:Hm; [| discriminate]. simpl.
      intros H'. apply IH in H' as (w & s' & -> & Hw & Hlo & Hhi & Hk).
      exists (String a w), s'. simpl. rewrite Hp, Hw. repeat split; auto.
      - lia.
      - intros h ->. simpl in Hm. destruct h; [discriminate |].
        specialize (Hhi h eq_refl). simpl. lia. }
    simpl in H. destruct greedy.
    + destruct (if p a && may_take hi then _ else None) eqn:E.
      * injection H as ->. now apply Hmore.
      * now apply Hstop.
    + destruct (match lo with O => _ | S _ => None end) eqn:E.
      * injection H as ->. now apply Hstop.
      * now apply Hmore.
Qed.

(** Soundness of the matcher: a result comes from a match of the pattern
    followed by a success of the continuation. *)
Theorem run_sound (r : regex) :
  forall (R : Type) c g (k : cursor -> caps -> option R) x,
    run R r c g k = Some x ->
    exists c' g', Matches r c g c' g' /\ k c' g' = Some x.
Proof.
  induction r as [| p | r1 IH1 r2 IH2 | r1 IH1 r2 IH2 | greedy lo hi p | r IH | n r IH
                 | r IH | | | |]; intros R c g k x H; simpl in H.
  - exists c, g. split; [constructor | exact H].
  - destruct c as [prev [|a s]]; simpl in H; [discriminate |].
    destruct (p a) eqn:Hp; [| discriminate].
    exists (Some a, s), g. split; [now constructor | exact H].
  - apply IH1 in H as (c1 & g1 & M1 & H). apply IH2 in H as (c2 & g2 & M2 & H).
    exists c2, g2. split; [econstructor; eauto | exact H].
  - destruct (run R r1 c g k) eqn:E.
    + injection H as ->. apply IH1 in E as (c' & g' & M & E').
      exists c', g'. split; [now apply M_AltL | exact E'].
    + apply IH2 in H as (c' & g' & M & E').
      exists c', g'. split; [now apply M_AltR | exact E'].
  - destruct c as [prev s]. simpl in H.
    apply rep_sound in H as (w & s' & -> & Hw & Hlo & Hhi & Hk).
    eexists _, g. split; [apply M_Rep; eauto | exact Hk].
  - destruct (run R r c g k) eqn:E.
    + injection H as ->. apply IH in E as (c' & g' & M & E').
      exists c', g'. split; [now apply M_OptTake | exact E'].
    + exists c, g. split; [apply M_OptSkip | exact H].
  - apply IH in H as (c' & g' & M & H).
    eexists c', _. split; [apply M_Grp; exact M | exact H].
  - destruct (run caps r c g (fun _ g' => Some g')) as [g1|] eqn:E; [| discriminate].
    apply IH in E as (c' & g' & M & E'). injection E' as ->.
    exists c, g1. split; [eapply M_Look; exact M | exact H].
  - destruct c as [[a|] s]; simpl in H; [discriminate |].
    exists (None, s), g. split; [constructor | exact H].
  - destruct (at_end_or_last_newline (snd c)) eqn:E; [| discriminate].
    exists c, g. split; [now constructor | exact H].
  - destruct c as [prev [|a s]]; simpl in H; [| discriminate].
    exists (prev, ""), g. split; [constructor | exact H].
  - destruct (xorb (word_before c) (word_after c)) eqn:E; [| discriminate].
    exists c, g. split; [now constructor | exact H].
Qed.

Lemma prev_after_app prev w1 w2 :
  prev_after prev (w1 +:+ w2) = prev_after (prev_after prev w1) w2.
Proof. revert prev. induction w1 as [|a w1 IH]; intros prev; simpl; auto. Qed.

(** A match reads a piece of the subject and stops in front of the rest. *)
Lemma Matches_reads r c g c' g' :
  Matches r c g c' g' ->
  exists w, snd c = w +:+ snd c' /\ fst c' = prev_after (fst c) w.
Proof.
  induction 1; simpl in *;
    try (exists ""; split; reflexivity).
  - exists (String a ""). split; reflexivity.
  - destruct IHMatches1 as (w1 & E1 & P1). destruct IHMatches2 as (w2 & E2 & P2).
    exists (w1 +:+ w2). rewrite E1, E2, P2, P1, append_assoc, prev_after_app. split; reflexivity.
  - assumption.
  - assumption.
  - exists w. split; reflexivity.
  - assumption.
  - assumption.
Qed.

Lemma stake_app (w s : string) : stake (String.length w) (w +:+ s) = w.
Proof. induction w as [|a w IH]; simpl; [now destruct s | now rewrite IH]. Qed.

Lemma consumed_app (w s : string) : consumed (w +:+ s) s = w.
Proof.
  unfold consumed. rewrite length_append.
  replace (String.length w + String.length s - String.length s) with (String.length w) by lia.
  apply stake_app.
Qed.

End ReFacts.

(* ===================================================================== *)
(** ** Searching, deleting and collecting with simple patterns *)
(* ===================================================================== *)

Module ScanFacts.
Import Py Re ReSem StringFacts ReFacts.

Lemma match_at_sound r prev s i m :
  match_at r prev s i = Some m ->
  exists w,
    s = w +:+ snd (m_rest m)
    /\ Matches r (prev, s) [] (m_rest m) (m_caps m)
    /\ m_group0 m = w /\ m_start m = i /\ m_end m = i + String.length w.
Proof.
  unfold match_at. intros H.
  destruct (run _ r (prev, s) [] _) as [[c g]|] eqn:E; [| discriminate].
  injection H as <-. simpl.
  apply run_sound in E as (c' & g' & M & [= <- <-]).
  destruct (Matches_reads _ _ _ _ _ M) as (w & Hw & _). simpl in Hw.
  exists w. rewrite Hw at 1 3 4. rewrite consumed_app, length_append.
  repeat split; auto. lia.
Qed.

Lemma search_from_sound r : forall s prev i m,
  search_from r prev s i = Some m ->
  exists pre w,
    s = pre +:+ w +:+ snd (m_rest m)
    /\ Matches r (prev_after prev pre, w +:+ snd (m_rest m)) [] (m_rest m) (m_caps m)
    /\ m_group0 m = w /\ m_start m = i + String.length pre
    /\ m_end m = i + String.length pre + String.length w.
Proof.
  induction s as [|a s IH]; intros prev i m H; simpl in H.
  - destruct (match_at r prev "" i) eqn:E; [| discriminate].
    injection H as ->. apply match_at_sound in E as (w & Hs & M & G & S & En).
    exists "", w. simpl. rewrite <- Hs. repeat split; auto; lia.
  - destruct (match_at r prev (String a s) i) eqn:E.
    + injection H as ->. apply match_at_sound in E as (w & Hs & M & G & S & En).
      exists "", w. simpl. rewrite <- Hs. repeat split; auto; lia.
    + apply IH in H as (pre & w & Hs & M & G & S & En).
      exists (String a pre), w. simpl. rewrite <- Hs. repeat split; auto; lia.
Qed.

(** *** Scanning for one character of a class *)

Lemma sfilter_app p (a b : string) : sfilter p (a +:+ b) = sfilter p a +:+ sfilter p b.
Proof. induction a as [|c a IH]; simpl; [reflexivity |]. destruct (p c); simpl; now rewrite IH. Qed.

Lemma sfilter_none p (s : string) : sforall (neg p) s = true -> sfilter p s = "".
Proof.
  induction s as [|c s IH]; simpl; [reflexivity |]. unfold neg at 1.
  destruct (p c); simpl; [discriminate | exact IH].
Qed.

Lemma sfilter_all p (s : string) : sforall p s = true -> sfilter p s = s.
Proof.
  induction s as [|c s IH]; simpl; [reflexivity |].
  destruct (p c); simpl; [intros H; now rewrite IH | discriminate].
Qed.

Lemma sforall_neg_neg p (s : string) : sforall (neg (neg p)) s = sforall p s.
Proof.
  induction s as [|c s IH]; simpl; [reflexivity |]. unfold neg at 1 2.
  now rewrite negb_involutive, IH.
Qed.

Lemma search_from_Chr p : forall s prev i,
  match search_from (Chr p) prev s i with
  | None => sforall (neg p) s = true
  | Some m =>
      exists pre a s',
        s = pre +:+ String a s' /\ sforall (neg p) pre = true /\ p a = true
        /\ m_start m = i + String.length pre /\ m_group0 m = String a ""
        /\ m_rest m = (Some a, s')
  end.
Proof.
  induction s as [|a s IH]; intros prev i; [reflexivity |].
  simpl. unfold match_at. simpl. destruct (p a) eqn:Hp.
  - exists "", a, s. simpl. repeat split; auto.
    change (String a s) with (String a "" +:+ s). apply consumed_app.
  - specialize (IH (Some a) (S i)). destruct (search_from (Chr p) (Some a) s (S i)).
    + destruct IH as (pre & b & s' & -> & Hpre & Hb & Hs & Hg & Hr).
      exists (String a pre), b, s'. simpl. unfold neg at 1. rewrite Hp. simpl.
      repeat split; auto; lia.
    + simpl. unfold neg at 1. now rewrite Hp.
Qed.

(** [re.sub] of a class by nothing deletes the characters of the class. *)
Lemma sub_from_Chr p : forall fuel s prev,
  String.length s < fuel -> sub_from fuel (Chr p) "" prev s = sfilter (neg p) s.
Proof.
  induction fuel as [|fuel IH]; intros s prev Hlen; [lia |].
  simpl. pose proof (search_from_Chr p s prev 0) as H.
  destruct (search_from (Chr p) prev s 0) as [m|].
  - destruct H as (pre & a & s' & -> & Hpre & Ha & Hs & Hg & Hr).
    rewrite Hs, Hg, Hr. simpl. rewrite stake_app.
    rewrite length_append in Hlen. simpl in Hlen.
    rewrite IH by lia. rewrite sfilter_app. simpl. unfold neg at 3. rewrite Ha. simpl.
    rewrite (sfilter_all (neg p) pre) by exact Hpre. reflexivity.
  - now rewrite sfilter_all.
Qed.

Lemma sub_Chr p s : sub (Chr p) "" s = sfilter (neg p) s.
Proof. unfold sub. apply sub_from_Chr. lia. Qed.

(** *** Scanning for a run of characters of a class *)

Lemma rep_greedy_run p : forall s lo prev g,
  rep (cursor * caps) true p lo None prev s g (fun c g => Some (c, g)) =
    let (w, s') := span p s in
    if lo <=? String.length w then Some ((prev_after prev w, s'), g) else None.
Proof.
  induction s as [|a s IH]; intros lo prev g.
  - simpl. destruct lo; reflexivity.
  - simpl. destruct (p a) eqn:Hp; simpl.
    + rewrite IH. destruct (span p s) as [w s']. simpl.
      destruct lo as [|lo]; simpl.
      * reflexivity.
      * destruct (lo <=? String.length w); reflexivity.
    + destruct lo; reflexivity.
Qed.

Lemma span_spec p : forall s w s',
  span p s = (w, s') ->
  s = w +:+ s' /\ sforall p w = true
  /\ match s' with String c _ => p c = false | EmptyString => True end.
Proof.
  induction s as [|a s IH]; intros w s' H; simpl in H.
  - injection H as <- <-. auto.
  - destruct (p a) eqn:Hp.
    + destruct (span p s) as [w0 s0]. injection H as <- <-.
      destruct (IH _ _ eq_refl) as (-> & Hw & Hs). simpl. rewrite Hp. auto.
    + injection H as <- <-. simpl. auto.
Qed.

Lemma search_from_plus p : forall s prev i,
  match search_from (plus p) prev s i with
  | None => sforall (neg p) s = true
  | Some m =>
      exists pre a w s',
        s = pre +:+ String a w +:+ s' /\ sforall (neg p) pre = true
        /\ sforall p (String a w) = true
        /\ match s' with String c _ => p c = false | EmptyString => True end
        /\ m_start m = i + String.length pre
        /\ m_end m = i + String.length pre + String.length (String a w)
        /\ m_group0 m = String a w
        /\ m_rest m = (prev_after (Some a) w, s')
  end.
Proof.
  unfold plus. induction s as [|a s IH]; intros prev i; [reflexivity |].
  simpl. unfold match_at. simpl run. rewrite rep_greedy_run.
  simpl span. destruct (p a) eqn:Hp.
  - destruct (span p s) as [w s'] eqn:Hspan. simpl.
    destruct (span_spec _ _ _ _ Hspan) as (-> & Hw & Hs').
    exists "", a, w, s'. simpl. rewrite Hp, Hw.
    repeat split; auto.
    + rewrite length_append. lia.
    + change (String a (w +:+ s')) with (String a w +:+ s'). apply consumed_app.
  - simpl. specialize (IH (Some a) (S i)).
    destruct (search_from _ (Some a) s (S i)).
    + destruct IH as (pre & b & w & s' & -> & Hpre & Hw & Hs' & Hs & He & Hg & Hr).
      exists (String a pre), b, w, s'. simpl. unfold neg at 1. rewrite Hp. simpl.
      repeat split; auto; simpl in *; lia.
    + simpl. unfold neg at 1. now rewrite Hp.
Qed.

Lemma sub_from_plus p : forall fuel s prev,
  String.length s < fuel -> sub_from fuel (plus p) "" prev s = sfilter (neg p) s.
Proof.
  induction fuel as [|fuel IH]; intros s prev Hlen; [lia |].
  simpl. pose proof (search_from_plus p s prev 0) as H.
  destruct (search_from (plus p) prev s 0) as [m|].
  - destruct H as (pre & a & w & s' & -> & Hpre & Hw & _ & Hs & _ & Hg & Hr).
    rewrite Hs, Hg, Hr. simpl. rewrite stake_app.
    rewrite ?length_append in Hlen. simpl in Hlen. rewrite ?length_append in Hlen.
    rewrite IH by lia. rewrite sfilter_app.
    change (String a (w +:+ s')) with (String a w +:+ s').
    rewrite sfilter_app. rewrite (sfilter_none (neg p) (String a w)).
    + rewrite (sfilter_all (neg p) pre) by exact Hpre. reflexivity.
    + now rewrite sforall_neg_neg.
  - now rewrite sfilter_all.
Qed.

Lemma sub_plus p s : sub (plus p) "" s = sfilter (neg p) s.
Proof. unfold sub. apply sub_from_plus. lia. Qed.

Lemma join_empty_cons (x : string) (l : list string) : join "" (x :: l) = x +:+ join "" l.
Proof. destruct l; simpl; [now rewrite append_nil_r | reflexivity]. Qed.

(** [re.findall] of the runs of a class: their concatenation is the
    characters of the class, in order, and there is a run exactly when
    there is such a character. *)
Lemma finditer_from_plus p : forall fuel s prev i,
  String.length s < fuel ->
  join "" (map m_group0 (finditer_from fuel (plus p) prev s i)) = sfilter p s
  /\ (finditer_from fuel (plus p) prev s i = [] <-> sfilter p s = "").
Proof.
  induction fuel as [|fuel IH]; intros s prev i Hlen; [lia |].
  simpl. pose proof (search_from_plus p s prev i) as H.
  destruct (search_from (plus p) prev s i) as [m|].
  - destruct H as (pre & a & w & s' & -> & Hpre & Hw & _ & Hs & He & Hg & Hr).
    rewrite Hg, Hr. simpl snd. simpl fst.
    rewrite ?length_append in Hlen. simpl in Hlen. rewrite ?length_append in Hlen.
    assert (Hf : sfilter p (pre +:+ String a w +:+ s') = String a w +:+ sfilter p s').
    { rewrite sfilter_app. rewrite (sfilter_none p pre) by exact Hpre.
      change (String a (w +:+ s')) with (String a w +:+ s').
      now rewrite sfilter_app, (sfilter_all p (String a w)) by exact Hw. }
    rewrite Hf. split; [| split; discriminate].
    rewrite map_cons, join_empty_cons, Hg.
    now rewrite (proj1 (IH s' _ _ ltac:(lia))).
  - rewrite (sfilter_none p s H). split; [reflexivity | split; reflexivity].
Qed.

Lemma findall_plus p s :
  join "" (findall (plus p) s) = sfilter p s
  /\ (findall (plus p) s = [] <-> sfilter p s = "").
Proof.
  unfold findall, finditer.
  destruct (finditer_from_plus p (S (String.length s)) s None 0 ltac:(lia)) as [H1 H2].
  split; [exact H1 |]. rewrite <- H2.
  destruct (finditer_from _ _ _ _ _); split; intros; (reflexivity || discriminate).
Qed.

End ScanFacts.

(* ===================================================================== *)
(** ** The fuel of the scans and of the entry loop is enough *)
(* ===================================================================== *)

Module FuelFacts.
Import Py Re ReSem StringFacts ReFacts ScanFacts AccountStatement.

(** After a match that is not empty, what remains to be scanned is
    shorter; after an empty one, so is what follows the next character. *)
Lemma search_from_progress r s prev i m :
  search_from r prev s i = Some m ->
  match m_group0 m with
  | EmptyString =>
      match snd (m_rest m) with
      | String _ s' => String.length s' < String.length s
      | EmptyString => True
      end
  | String _ _ => String.length (snd (m_rest m)) < String.length s
  end.
Proof.
  intros H. apply search_from_sound in H as (pre & w & Hs & _ & Hg & _).
  rewrite Hg. rewrite Hs, !length_append. destruct w as [|a w]; simpl.
  - destruct (snd (m_rest m)); simpl; [exact I | lia].
  - lia.
Qed.

(** The fuel of the scans is enough: above the length of the subject the
    result does not depend on it. *)
Lemma finditer_from_fuel r : forall f1 f2 s prev i,
  String.length s < f1 -> String.length s < f2 ->
  finditer_from f1 r prev s i = finditer_from f2 r prev s i.
Proof.
  induction f1 as [|f1 IH]; intros f2 s prev i H1 H2; [lia |].
  destruct f2 as [|f2]; [lia |]. simpl.
  destruct (search_from r prev s i) as [m|] eqn:E; [| reflexivity].
  pose proof (search_from_progress _ _ _ _ _ E) as P.
  destruct (m_group0 m).
  - destruct (snd (m_rest m)); [reflexivity |]. f_equal. apply IH; lia.
  - f_equal. apply IH; lia.
Qed.

Lemma sub_from_fuel r repl : forall f1 f2 s prev,
  String.length s < f1 -> String.length s < f2 ->
  sub_from f1 r repl prev s = sub_from f2 r repl prev s.
Proof.
  induction f1 as [|f1 IH]; intros f2 s prev H1 H2; [lia |].
  destruct f2 as [|f2]; [lia |]. simpl.
  destruct (search_from r prev s 0) as [m|] eqn:E; [| reflexivity].
  pose proof (search_from_progress _ _ _ _ _ E) as P.
  destruct (m_group0 m).
  - destruct (snd (m_rest m)); [reflexivity |]. do 3 f_equal. apply IH; lia.
  - do 2 f_equal. apply IH; lia.
Qed.

Lemma split_from_fuel r : forall f1 f2 s prev,
  String.length s < f1 -> String.length s < f2 ->
  split_from f1 r prev s = split_from f2 r prev s.
Proof.
  induction f1 as [|f1 IH]; intros f2 s prev H1 H2; [lia |].
  destruct f2 as [|f2]; [lia |]. simpl.
  destruct (search_from r prev s 0) as [m|] eqn:E; [| reflexivity].
  pose proof (search_from_progress _ _ _ _ _ E) as P.
  destruct (m_group0 m).
  - destruct (snd (m_rest m)); [reflexivity |]. rewrite (IH f2); [reflexivity | lia | lia].
  - f_equal. apply IH; lia.
Qed.

(** The same for the loop of [extract_date_debit_premium]: once the fuel
    covers the lines from [i] on, more fuel changes nothing. *)
Lemma date_debit_premium_loop_fuel lines : forall f1 f2 i,
  length lines <= i + f1 -> length lines <= i + f2 ->
  date_debit_premium_loop f1 lines i = date_debit_premium_loop f2 lines i.
Proof.
  induction f1 as [|f1 IH]; intros f2 i H1 H2.
  - destruct f2 as [|f2]; [reflexivity |]. simpl.
    now rewrite (lookup_ge_None_2 lines i) by lia.
  - destruct f2 as [|f2].
    + simpl. now rewrite (lookup_ge_None_2 lines i) by lia.
    + simpl. destruct (lines !! i) as [line|]; [| reflexivity].
      destruct (matches date_pattern line); [| apply IH; lia].
      assert (Hj : forall j, i <= j ->
                date_debit_premium_loop f1 lines (j + 1)
                = date_debit_premium_loop f2 lines (j + 1))
        by (intros j Hj; apply IH; lia).
      assert (Hdn : forall dn j,
                (match lines !! (i + 1) with
                 | Some l1 =>
                     if matches debit_pattern l1 then (Some l1, i + 1) else (None, i)
                 | None => (None, i)
                 end) = (dn, j) -> i <= j).
      { intros dn j. destruct (lines !! (i + 1)) as [l1|];
          [destruct (matches debit_pattern l1) |]; intros [= <- <-]; lia. }
      destruct (match lines !! (i + 1) with Some l1 => _ | None => _ end) as [dn j].
      specialize (Hdn dn j eq_refl).
      destruct (lines !! (j + 1)) as [nl|].
      * destruct (negb _ && negb _ && has_digit nl).
        -- destruct (clean_number nl); [| reflexivity]. simpl.
           now rewrite (Hj (j + 1)) by lia.
        -- simpl. now rewrite (Hj j) by lia.
      * simpl. now rewrite (Hj j) by lia.
Qed.

End FuelFacts.

(* ===================================================================== *)
(** ** Characters, stripping, and [float] of decimal texts *)
(* ===================================================================== *)

Module NumFacts.
Import Py Re PyNum Spec StringFacts ScanFacts.

(** Case analysis on a character, for facts about the fixed classes. *)
Ltac ascii_cases c :=
  destruct c as [[] [] [] [] [] [] [] []]; vm_compute; try reflexivity; try discriminate.

Lemma digit_not_space c : is_digit c = true -> is_space c = false.
Proof. ascii_cases c. Qed.

Lemma digit_or_dot_not_space c : digit_or_dot c = true -> is_space c = false.
Proof. ascii_cases c. Qed.

Lemma digit_or_dot_not_sign c :
  digit_or_dot c = true -> is_char "-" c = false /\ is_char "+" c = false.
Proof. ascii_cases c; intros; split; reflexivity. Qed.

Lemma digit_or_dot_not_letter c :
  digit_or_dot c = true ->
  Ascii.eqb (lower_char c) "i" = false /\ Ascii.eqb (lower_char c) "n" = false
  /\ ci "e" c = false.
Proof. ascii_cases c; intros; repeat split; reflexivity. Qed.

Lemma digit_val_range c : is_digit c = true -> (0 <= digit_val c <= 9)%Z.
Proof. ascii_cases c; intros _; split; discriminate. Qed.

(** *** Stripping *)

Lemma srev_onto_app (s acc : string) : srev_onto s acc = srev s +:+ acc.
Proof.
  unfold srev. revert acc. induction s as [|c s IH]; intros acc; simpl; [reflexivity |].
  rewrite IH, (IH (String c "")), append_assoc. reflexivity.
Qed.

Lemma srev_app (a b : string) : srev (a +:+ b) = srev b +:+ srev a.
Proof.
  induction a as [|c a IH]; simpl.
  - now rewrite append_nil_r.
  - unfold srev. simpl. rewrite !(srev_onto_app _ (String c "")).
    fold (srev (a +:+ b)). rewrite IH, append_assoc. reflexivity.
Qed.

Lemma srev_involutive (s : string) : srev (srev s) = s.
Proof.
  induction s as [|c s IH]; [reflexivity |].
  unfold srev at 2. simpl. rewrite srev_onto_app, srev_app, IH. reflexivity.
Qed.

Lemma length_srev (s : string) : String.length (srev s) = String.length s.
Proof.
  induction s as [|c s IH]; [reflexivity |].
  unfold srev. simpl. rewrite srev_onto_app, length_append, IH. simpl. lia.
Qed.

Lemma sforall_app p (a b : string) : sforall p (a +:+ b) = sforall p a && sforall p b.
Proof. induction a as [|c a IH]; simpl; [reflexivity |]. now rewrite IH, andb_assoc. Qed.

Lemma sforall_srev p (s : string) : sforall p (srev s) = sforall p s.
Proof.
  induction s as [|c s IH]; [reflexivity |].
  unfold srev. simpl. rewrite srev_onto_app, sforall_app, IH. simpl.
  rewrite andb_true_r. apply andb_comm.
Qed.

Lemma lstrip_by_suffix p (s : string) :
  exists pre, s = pre +:+ lstrip_by p s.
Proof.
  induction s as [|c s [pre IH]]; simpl.
  - now exists "".
  - destruct (p c); [exists (String c pre); simpl; now rewrite <- IH | now exists ""].
Qed.

Lemma length_lstrip_by p (s : string) : String.length (lstrip_by p s) <= String.length s.
Proof.
  destruct (lstrip_by_suffix p s) as [pre H]. rewrite H at 2. rewrite length_append. lia.
Qed.

Lemma sforall_lstrip_by q p (s : string) :
  sforall q s = true -> sforall q (lstrip_by p s) = true.
Proof.
  destruct (lstrip_by_suffix p s) as [pre H]. rewrite H at 1.
  rewrite sforall_app. intros E. now apply andb_true_iff in E.
Qed.

Lemma length_strip_by p (s : string) : String.length (strip_by p s) <= String.length s.
Proof.
  unfold strip_by, rstrip_by. rewrite length_srev.
  etransitivity; [apply length_lstrip_by |]. rewrite length_srev. apply length_lstrip_by.
Qed.

Lemma sforall_strip_by q p (s : string) :
  sforall q s = true -> sforall q (strip_by p s) = true.
Proof.
  intros H. unfold strip_by, rstrip_by. rewrite sforall_srev.
  apply sforall_lstrip_by. rewrite sforall_srev. now apply sforall_lstrip_by.
Qed.

Lemma lstrip_by_none p (s : string) : sforall (neg p) s = true -> lstrip_by p s = s.
Proof.
  destruct s as [|c s]; simpl; [reflexivity |]. unfold neg at 1.
  destruct (p c); simpl; [discriminate | reflexivity].
Qed.

(** A text without white space is its own [strip]. *)
Lemma strip_by_none p (s : string) : sforall (neg p) s = true -> strip_by p s = s.
Proof.
  intros H. unfold strip_by, rstrip_by. rewrite (lstrip_by_none p s H).
  rewrite lstrip_by_none by (now rewrite sforall_srev). apply srev_involutive.
Qed.

Lemma sforall_impl (p q : ascii -> bool) (s : string) :
  (forall c, p c = true -> q c = true) -> sforall p s = true -> sforall q s = true.
Proof.
  intros Hpq. induction s as [|c s IH]; simpl; [reflexivity |].
  intros H. apply andb_true_iff in H as [Hc Hs]. now rewrite (Hpq c Hc), IH.
Qed.

(** *** Reading digits *)

Lemma Z_of_digits_from_app (a b : string) (acc : Z) :
  Z_of_digits_from acc (a +:+ b) = Z_of_digits_from (Z_of_digits_from acc a) b.
Proof. revert acc. induction a as [|c a IH]; intros acc; simpl; [reflexivity | apply IH]. Qed.

Lemma Z_of_digits_from_bound (s : string) : forall acc : Z,
  sforall is_digit s = true -> (0 <= acc)%Z ->
  (0 <= Z_of_digits_from acc s < (acc + 1) * 10 ^ Z.of_nat (String.length s))%Z.
Proof.
  induction s as [|c s IH]; intros acc H Hacc.
  - simpl. lia.
  - simpl in H. apply andb_true_iff in H as [Hc Hs].
    pose proof (digit_val_range c Hc) as Hd.
    cbn [Z_of_digits_from String.length].
    specialize (IH (acc * 10 + digit_val c)%Z Hs ltac:(lia)).
    rewrite Nat2Z.inj_succ, Z.pow_succ_r by lia.
    assert (0 < 10 ^ Z.of_nat (String.length s))%Z by (apply Z.pow_pos_nonneg; lia).
    nia.
Qed.

Lemma Z_of_digits_bound (s : string) :
  sforall is_digit s = true ->
  (0 <= Z_of_digits s < 10 ^ Z.of_nat (String.length s))%Z.
Proof.
  intros H. pose proof (Z_of_digits_from_bound s 0 H ltac:(lia)) as B.
  unfold Z_of_digits. lia.
Qed.

(** *** [float] of a text of digits and points *)

Lemma span_all p (s : string) : sforall p s = true -> span p s = (s, "").
Proof.
  induction s as [|c s IH]; simpl; [reflexivity |].
  destruct (p c); simpl; [intros H; now rewrite IH | discriminate].
Qed.

Lemma span_stop p (w rest : string) :
  sforall p w = true ->
  match rest with String c _ => p c = false | EmptyString => True end ->
  span p (w +:+ rest) = (w, rest).
Proof.
  intros Hw Hr. induction w as [|c w IH]; simpl in *.
  - destruct rest as [|c rest]; [reflexivity |]. simpl. now rewrite Hr.
  - apply andb_true_iff in Hw as [Hc Hw]. now rewrite Hc, IH.
Qed.

Lemma parse_exponent_digit_or_dot (s : string) :
  sforall digit_or_dot s = true ->
  parse_exponent s = match s with EmptyString => Some 0%Z | String _ _ => None end.
Proof.
  destruct s as [|c s]; [reflexivity |]. simpl. intros H.
  apply andb_true_iff in H as [Hc _].
  destruct (digit_or_dot_not_letter c Hc) as (_ & _ & He). now rewrite He.
Qed.

(** What [parse_decimal] reads from digits and points is a non-negative
    decimal below [10 ^ length]. *)
Lemma parse_decimal_digit_or_dot (s : string) (q : Q) :
  sforall digit_or_dot s = true -> parse_decimal s = Some q ->
  exists (m : Z) (d : positive),
    q = Qmake m d /\ (0 <= m < 10 ^ Z.of_nat (String.length s))%Z.
Proof.
  intros Hs. unfold parse_decimal.
  destruct (span is_digit s) as [ip r1] eqn:E1.
  destruct (span_spec _ _ _ _ E1) as (-> & Hip & _).
  rewrite sforall_app in Hs. apply andb_true_iff in Hs as [_ Hr1].
  assert (Hfp : forall fp r2,
             (match r1 with
              | String c t => if is_char "." c then span is_digit t else ("", r1)
              | EmptyString => ("", r1)
              end) = (fp, r2) ->
             sforall is_digit fp = true /\ sforall digit_or_dot r2 = true
             /\ String.length fp <= String.length r1).
  { intros fp r2. destruct r1 as [|c t].
    - intros [= <- <-]. auto.
    - destruct (is_char "." c).
      + intros E2. destruct (span_spec _ _ _ _ E2) as (-> & Hfp & _).
        simpl in Hr1. apply andb_true_iff in Hr1 as [_ Hr1].
        rewrite sforall_app in Hr1. apply andb_true_iff in Hr1 as [_ Hr2].
        repeat split; auto. simpl. rewrite length_append. lia.
      + intros [= <- <-]. repeat split; auto. simpl. lia. }
  destruct (match r1 with String c t => _ | EmptyString => _ end) as [fp r2].
  destruct (Hfp fp r2 eq_refl) as (Hdfp & Hr2 & Hlen).
  destruct (is_empty ip && is_empty fp); [discriminate |].
  rewrite (parse_exponent_digit_or_dot r2 Hr2).
  destruct r2; [| discriminate].
  rewrite Z.sub_0_r.
  destruct (Z.leb_spec 0 (Z.of_nat (String.length fp))) as [_|Hneg]; [| lia].
  intros [= <-]. eexists _, _. split; [reflexivity |].
  assert (Hd : sforall is_digit (ip +:+ fp) = true) by (now rewrite sforall_app, Hip, Hdfp).
  pose proof (Z_of_digits_bound _ Hd) as B. rewrite length_append in *.
  split; [lia |]. eapply Z.lt_le_trans; [apply B |].
  apply Z.pow_le_mono_r; lia.
Qed.

Lemma parse_decimal_digits (s : string) :
  s <> "" -> sforall is_digit s = true ->
  parse_decimal s = Some (inject_Z (Z_of_digits s)).
Proof.
  intros Hne Hs. unfold parse_decimal. rewrite (span_all _ _ Hs).
  destruct s as [|c s]; [congruence |]. simpl is_empty. simpl andb. cbn iota.
  simpl parse_exponent. cbn iota. rewrite append_nil_r. reflexivity.
Qed.

Lemma parse_decimal_point (ip fp : string) :
  ip <> "" -> sforall is_digit ip = true -> sforall is_digit fp = true ->
  is_Some (parse_decimal (ip +:+ "." +:+ fp)).
Proof.
  intros Hne Hip Hfp. unfold parse_decimal.
  rewrite (span_stop is_digit ip ("." +:+ fp) Hip) by reflexivity.
  simpl. rewrite (span_all _ _ Hfp).
  destruct ip; [congruence |]. simpl. eauto.
Qed.

Lemma py_float_digit_or_dot (s : string) :
  sforall digit_or_dot s = true ->
  py_float s = option_map of_Q (parse_decimal s).
Proof.
  intros Hs. unfold py_float, strip.
  rewrite strip_by_none
    by (eapply sforall_impl; [| exact Hs]; intros c Hc; unfold neg;
        now rewrite (digit_or_dot_not_space c Hc)).
  destruct s as [|c s]; [reflexivity |].
  simpl in Hs. apply andb_true_iff in Hs as [Hc _].
  destruct (digit_or_dot_not_sign c Hc) as [-> ->].
  destruct (digit_or_dot_not_letter c Hc) as (Hi & Hn & _).
  simpl. rewrite Hi, Hn. simpl. destruct (parse_decimal (String c s)); reflexivity.
Qed.

(** *** Rounding *)

Lemma overflow_bound_above : (10 ^ 308 < overflow_bound)%Z.
Proof. vm_compute. reflexivity. Qed.

Lemma of_Q_nonneg (m : Z) (d : positive) :
  (0 <= m)%Z ->
  of_Q (Qmake m d) = PosInf \/ finite_nonneg (of_Q (Qmake m d)).
Proof.
  intros Hm. unfold of_Q.
  destruct (Qle_bool (inject_Z overflow_bound) (Qmake m d)); [now left |].
  destruct (Qle_bool (Qmake m d) (inject_Z (- overflow_bound))) eqn:E.
  - apply Qle_bool_iff in E. unfold Qle in E. simpl in E.
    pose proof overflow_bound_above. assert (0 < 10 ^ 308)%Z by reflexivity. nia.
  - right. eexists. split; [reflexivity |]. rewrite Qred_correct.
    unfold Qle. simpl. lia.
Qed.

Lemma of_Q_small (m : Z) (d : positive) :
  (0 <= m < 10 ^ 308)%Z -> finite_nonneg (of_Q (Qmake m d)).
Proof.
  intros Hm. destruct (of_Q_nonneg m d ltac:(lia)) as [H|H]; [| exact H].
  exfalso. unfold of_Q in H.
  destruct (Qle_bool (inject_Z overflow_bound) (Qmake m d)) eqn:E.
  - apply Qle_bool_iff in E. unfold Qle in E. simpl in E.
    pose proof overflow_bound_above. nia.
  - destruct (Qle_bool (Qmake m d) (inject_Z (- overflow_bound))); discriminate.
Qed.

End NumFacts.

(* ===================================================================== *)
(** ** Account statement: [clean_number] *)
(* ===================================================================== *)

Module CleanNumberFacts.
Import Py Re ReSem PyNum Spec StringFacts ReFacts ScanFacts NumFacts AccountStatement.

Lemma length_replace_char (a b : ascii) (s : string) :
  String.length (replace (String a "") (String b "") s) = String.length s.
Proof.
  unfold replace. induction s as [|c s IH]; simpl; [reflexivity |].
  destruct (Ascii.eqb a c); simpl; now rewrite IH.
Qed.

Lemma length_delete_char (a : ascii) (s : string) :
  String.length (replace (String a "") "" s) <= String.length s.
Proof.
  unfold replace. induction s as [|c s IH]; simpl; [lia |].
  destruct (Ascii.eqb a c); simpl; lia.
Qed.

Lemma length_sfilter p (s : string) : String.length (sfilter p s) <= String.length s.
Proof. induction s as [|c s IH]; simpl; [lia |]. destruct (p c); simpl; lia. Qed.

Lemma sforall_sfilter (p q : ascii -> bool) (s : string) :
  (forall c, p c = true -> q c = true) -> sforall q (sfilter p s) = true.
Proof.
  intros Hpq. induction s as [|c s IH]; simpl; [reflexivity |].
  destruct (p c) eqn:Hp; [simpl; now rewrite (Hpq c Hp) | exact IH].
Qed.

Lemma consumed_cons (a : ascii) (s : string) : consumed (String a s) s = String a "".
Proof. change (String a s) with (String a "" +:+ s). apply consumed_app. Qed.

(** Inversion of a match along the structure of the pattern. *)
Ltac invert_match :=
  repeat match goal with
  | H : Matches (Cat _ _) _ _ _ _ |- _ => inversion H; subst; clear H
  | H : Matches (Grp _ _) _ _ _ _ |- _ => inversion H; subst; clear H
  | H : Matches (Chr _) _ _ _ _ |- _ => inversion H; subst; clear H
  | H : Matches (Rep _ _ _ _) _ _ _ _ |- _ => inversion H; subst; clear H
  | H : Matches Bos _ _ _ _ |- _ => inversion H; subst; clear H
  | H : Matches Eol _ _ _ _ |- _ => inversion H; subst; clear H
  | H : Matches Eos _ _ _ _ |- _ => inversion H; subst; clear H
  | H : Matches Eps _ _ _ _ |- _ => inversion H; subst; clear H
  end.

(** The groups of the spaced-thousands pattern are one, three and two
    digits. *)
Lemma spaced_groups (raw : string) (m : rmatch) :
  rematch spaced_pattern raw = Some m ->
  exists a w2 w3,
    group 1 m = String a "" /\ group 2 m = w2 /\ group 3 m = w3
    /\ is_digit a = true /\ sforall is_digit w2 = true /\ sforall is_digit w3 = true
    /\ String.length w2 = 3 /\ String.length w3 = 2.
Proof.
  unfold rematch. intros H.
  apply match_at_sound in H as (w & _ & M & _).
  unfold spaced_pattern, cats, plus, times in M.
  destruct (m_rest m) as [prev' rest']. destruct (m_caps m) as [|] eqn:Ecaps;
    invert_match.
  unfold group. rewrite Ecaps. simpl cap_get. simpl snd.
  rewrite consumed_cons, !consumed_app.
  eexists _, _, _. repeat split; eauto.
  - match goal with H1 : 3 <= String.length ?w, H2 : forall h, Some 3 = Some h -> _ |- String.length ?w = 3 =>
      specialize (H2 3 eq_refl); lia end.
  - match goal with H1 : 2 <= String.length ?w, H2 : forall h, Some 2 = Some h -> _ |- String.length ?w = 2 =>
      specialize (H2 2 eq_refl); lia end.
Qed.

Lemma finite_nonneg_zero : finite_nonneg zero.
Proof. exists 0%Q. split; [reflexivity | apply Qle_refl]. Qed.

(** [float] of digits and points, when it reads them, is not negative, and
    finite for a text of at most 308 characters. *)
Lemma py_float_digit_or_dot_range (s : string) (v : pyfloat) :
  sforall digit_or_dot s = true -> py_float s = Some v ->
  (finite_nonneg v \/ v = PosInf)
  /\ (String.length s <= 308 -> finite_nonneg v).
Proof.
  intros Hs Hv. rewrite (py_float_digit_or_dot s Hs) in Hv.
  destruct (parse_decimal s) as [q|] eqn:Eq; [| discriminate].
  injection Hv as <-.
  destruct (parse_decimal_digit_or_dot s q Hs Eq) as (m & d & -> & Hm).
  split.
  - destruct (of_Q_nonneg m d ltac:(lia)); auto.
  - intros Hlen. apply of_Q_small. split; [lia |].
    eapply Z.lt_le_trans; [apply Hm |]. apply Z.pow_le_mono_r; lia.
Qed.

(** What [clean_number] returns: never an exception; a finite float that
    is not negative, or else [inf], and that only for a text longer than
    308 characters. *)
Lemma clean_number_outcome (raw : string) :
  exists v,
    clean_number raw = Ok v
    /\ (finite_nonneg v \/ (v = PosInf /\ 308 < String.length raw)).
Proof.
  unfold clean_number. destruct (is_empty raw); [exists zero; split; [reflexivity | left; apply finite_nonneg_zero] |].
  destruct (rematch spaced_pattern (strip raw)) as [m|] eqn:Em.
  - destruct (spaced_groups _ _ Em) as (a & w2 & w3 & -> & -> & -> & Ha & H2 & H3 & L2 & L3).
    change (String a "" +:+ w2 +:+ "." +:+ w3) with (String a w2 +:+ "." +:+ w3).
    set (s := String a w2 +:+ "." +:+ w3).
    assert (Hs : sforall digit_or_dot s = true).
    { unfold s. rewrite !sforall_app.
      rewrite (sforall_impl is_digit digit_or_dot (String a w2)),
              (sforall_impl is_digit digit_or_dot w3);
        auto; unfold digit_or_dot, either; try (intros c ->; reflexivity).
      simpl. now rewrite Ha. }
    assert (Hlen : String.length s <= 308).
    { unfold s. rewrite !length_append. simpl. lia. }
    destruct (parse_decimal_point (String a w2) w3) as [q Hq];
      [discriminate | simpl; now rewrite Ha | exact H3 |].
    fold s in Hq. unfold float_or_raise.
    pose proof (py_float_digit_or_dot s Hs) as Hf. rewrite Hq in Hf. simpl in Hf.
    rewrite Hf. eexists. split; [reflexivity |]. left.
    now apply (py_float_digit_or_dot_range s _ Hs Hf).
  - set (s5 := replace "," "" _).
    set (s6 := sub _ "" s5).
    assert (Hs6 : sforall digit_or_dot s6 = true).
    { unfold s6. rewrite sub_Chr. apply sforall_sfilter.
      intros c. unfold neg. fold digit_or_dot. now rewrite negb_involutive. }
    assert (Hlen : String.length s6 <= String.length raw).
    { unfold s6. rewrite sub_Chr. etransitivity; [apply length_sfilter |].
      unfold s5. etransitivity; [apply length_delete_char |].
      rewrite sub_plus. etransitivity; [apply length_sfilter |].
      rewrite !length_replace_char. apply length_strip_by. }
    eexists. split; [reflexivity |]. unfold float_or_zero.
    destruct (py_float s6) as [v|] eqn:Ev; [| left; apply finite_nonneg_zero].
    destruct (py_float_digit_or_dot_range s6 v Hs6 Ev) as [[Hv|Hv] Hsmall]; [now left |].
    destruct (Nat.le_gt_cases (String.length raw) 308) as [Hle|Hgt].
    + left. apply Hsmall. lia.
    + right. split; [exact Hv | lia].
Qed.

(** C1, amended.  [clean_number] returns for every text, the empty one
    included, and never raises; the float it returns is never NaN and never
    negative; it is finite for every text of at most 308 characters, and
    otherwise finite or [inf]. *)
Theorem clean_number_total_never_nan (raw : string) :
  exists v,
    clean_number raw = Ok v
    /\ v <> NaN
    /\ (finite_nonneg v \/ (v = PosInf /\ 308 < String.length raw)).
Proof.
  destruct (clean_number_outcome raw) as (v & Hv & Hr).
  exists v. split; [exact Hv |]. split; [| exact Hr].
  destruct Hr as [(q & -> & _) | [-> _]]; discriminate.
Qed.

(** C1, as the spec words it, fails: a text of 309 nines denotes a number
    that rounds to [inf], and [inf] is what [clean_number] returns. *)
Lemma clean_number_returns_inf :
  clean_number (nines 309) = Ok PosInf /\ is_finite PosInf = false.
Proof. split; vm_compute; reflexivity. Qed.

(** The examples of the specification: spaced thousands, a comma
    separator, the empty text, letters read for digits, and noise. *)
Example clean_number_examples :
  clean_number "1 296 20" = Ok (Fin (6481 # 5))
  /\ clean_number "12,500" = Ok (Fin 12500)
  /\ clean_number "" = Ok (Fin 0)
  /\ clean_number "Q12O" = Ok (Fin 120)
  /\ clean_number "n/a" = Ok (Fin 0)
  /\ clean_number "1.2.3" = Ok (Fin 0).
Proof. repeat split; vm_compute; reflexivity. Qed.

End CleanNumberFacts.

(* ===================================================================== *)
(** ** Renewal notice: [clean_money] *)
(* ===================================================================== *)

Module CleanMoneyFacts.
Import Py Re ReSem PyNum Spec StringFacts ReFacts ScanFacts NumFacts CleanNumberFacts RenewalNotice.

Lemma sfilter_sfilter (p q : ascii -> bool) (s : string) :
  (forall c, p c = true -> q c = true) -> sfilter p (sfilter q s) = sfilter p s.
Proof.
  intros Hpq. induction s as [|c s IH]; simpl; [reflexivity |].
  destruct (q c) eqn:Hq; simpl.
  - destruct (p c); now rewrite IH.
  - destruct (p c) eqn:Hp; [| exact IH]. rewrite (Hpq c Hp) in Hq. discriminate.
Qed.

Lemma digit_not_money_noise c : is_digit c = true -> neg money_noise c = true.
Proof.
  unfold neg, money_noise, neg, either. intros ->. reflexivity.
Qed.

Lemma digit_is_digit_or_dot c : is_digit c = true -> digit_or_dot c = true.
Proof. unfold digit_or_dot, either. now intros ->. Qed.

(** [float] of a non-empty text of digits is the integer they spell. *)
Lemma py_float_digits (s : string) :
  s <> "" -> sforall is_digit s = true -> py_float s = Some (of_Z (Z_of_digits s)).
Proof.
  intros Hne Hs.
  rewrite py_float_digit_or_dot
    by (eapply sforall_impl; [apply digit_is_digit_or_dot | exact Hs]).
  now rewrite parse_decimal_digits.
Qed.

Lemma sfilter_empty_iff p (s : string) : sfilter p s = "" <-> sforall (neg p) s = true.
Proof.
  split; [| apply sfilter_none].
  induction s as [|c s IH]; simpl; [reflexivity |]. unfold neg at 1.
  destruct (p c); simpl; [discriminate | exact IH].
Qed.

(** What [clean_money] returns: the integer spelled by the digits of the
    text, all other characters deleted. *)
Lemma clean_money_digits (raw : string) :
  clean_money raw = Ok (of_Z (Z_of_digits (sfilter is_digit raw))).
Proof.
  unfold clean_money. destruct raw as [|c raw]; [reflexivity |].
  simpl is_empty. cbn iota. set (s := String c raw).
  rewrite sub_Chr.
  destruct (findall_plus is_digit (sfilter (neg money_noise) s)) as [Hjoin Hnil].
  rewrite (sfilter_sfilter is_digit (neg money_noise) s digit_not_money_noise) in Hjoin, Hnil.
  destruct (findall (plus is_digit) (sfilter (neg money_noise) s)) as [|d ds] eqn:E.
  - rewrite (proj1 Hnil eq_refl). reflexivity.
  - rewrite Hjoin. unfold float_or_raise.
    rewrite py_float_digits; [reflexivity | | apply sforall_sfilter; auto].
    intros Hempty. apply Hnil in Hempty. discriminate.
Qed.

Lemma of_Z_whole (z : Z) : (0 <= z)%Z -> whole_number (of_Z z).
Proof.
  intros Hz. unfold whole_number, of_Z, of_Q.
  destruct (Qle_bool (inject_Z overflow_bound) (inject_Z z)); [now left |].
  destruct (Qle_bool (inject_Z z) (inject_Z (- overflow_bound))) eqn:E.
  - apply Qle_bool_iff in E. unfold Qle in E. simpl in E.
    pose proof overflow_bound_above. assert (0 < 10 ^ 308)%Z by reflexivity. lia.
  - right. exists z. split; [exact Hz |]. f_equal. apply Qcanon.Qred_identity.
    simpl. apply Z.gcd_1_r.
Qed.

Lemma clean_money_whole (raw : string) : exists v, clean_money raw = Ok v /\ whole_number v.
Proof.
  eexists. split; [apply clean_money_digits |]. apply of_Z_whole.
  apply Z_of_digits_bound. apply sforall_sfilter. auto.
Qed.

(** C10.  [clean_money] never raises; it deletes every character that is
    not a digit, white space or a comma, the decimal point among them, and
    returns the float spelled by all digits of the text taken together, 0.0
    when there is none.  So "1,296.20" gives 129620.0, and total_earning and
    renewal_premium are always whole numbers. *)
Theorem clean_money_joins_all_digits (raw : string) :
  sub (Chr money_noise) "" raw = sfilter (either is_digit (either is_space (is_char ","))) raw
  /\ money_noise "." = true
  /\ clean_money raw = Ok (of_Z (Z_of_digits (sfilter is_digit raw)))
  /\ (sfilter is_digit raw = "" -> clean_money raw = Ok zero)
  /\ clean_money "1,296.20" = Ok (Fin 129620)
  /\ (forall text, exists v, extract_total_earning text = Ok v /\ whole_number v)
  /\ (forall text, exists v, extract_renewal_premium text = Ok v /\ whole_number v).
Proof.
  split; [| split; [| split; [| split; [| split; [| split]]]]].
  - rewrite sub_Chr. unfold money_noise.
    induction raw as [|c raw IH]; simpl; [reflexivity |].
    unfold neg at 1 2. rewrite negb_involutive, IH. reflexivity.
  - reflexivity.
  - apply clean_money_digits.
  - intros H. rewrite clean_money_digits, H. reflexivity.
  - vm_compute. reflexivity.
  - intros text. unfold extract_total_earning.
    destruct (search total_pattern text); [apply clean_money_whole |].
    exists zero. split; [reflexivity |]. right. exists 0%Z. split; [lia | reflexivity].
  - intros text. unfold extract_renewal_premium.
    destruct (search renewal_premium_pattern text); [apply clean_money_whole |].
    exists zero. split; [reflexivity |]. right. exists 0%Z. split; [lia | reflexivity].
Qed.

Lemma clean_money_joins_all_digits_witness :
  sfilter is_digit "n/a" = "" /\ clean_money "n/a" = Ok zero.
Proof.
  split; [reflexivity |].
  apply (proj1 (proj2 (proj2 (proj2 (clean_money_joins_all_digits "n/a"))))).
  reflexivity.
Defined.

End CleanMoneyFacts.

(* ===================================================================== *)
(** ** Account statement: the entries *)
(* ===================================================================== *)

Module EntriesFacts.
Import Py Re PyNum Spec CleanNumberFacts AccountStatement.

Lemma clean_number_ok (raw : string) : exists v, clean_number raw = Ok v.
Proof. destruct (clean_number_outcome raw) as (v & Hv & _). eauto. Qed.

Lemma header_premium_scan_ok (lines : list string) :
  forall prev, exists v, header_premium_scan prev lines = Ok v.
Proof.
  induction lines as [|line rest IH]; intros prev; simpl; [eauto |].
  destruct (matches date_pattern line); [| apply IH].
  destruct prev as [prev_line|]; [| eauto].
  destruct (has_digit prev_line); [apply clean_number_ok | eauto].
Qed.

Lemma extract_header_entry_ok (text : string) :
  exists o, extract_header_entry text = Ok o.
Proof.
  unfold extract_header_entry. destruct (search header_pattern text); [| eauto].
  unfold extract_header_premium_from_block.
  destruct (header_premium_scan_ok (stripped_lines text) None) as [v ->]. simpl. eauto.
Qed.

Lemma date_debit_premium_loop_ok (lines : list string) :
  forall fuel i, exists l, date_debit_premium_loop fuel lines i = Ok l.
Proof.
  induction fuel as [|fuel IH]; intros i; simpl; [eauto |].
  destruct (lines !! i) as [line|]; [| eauto].
  destruct (matches date_pattern line); [| apply IH].
  destruct (match lines !! (i + 1) with
            | Some l1 => if matches debit_pattern l1 then (Some l1, i + 1) else (None, i)
            | None => (None, i)
            end) as [dn j].
  destruct (lines !! (j + 1)) as [next_line|].
  - destruct (negb (matches date_pattern next_line)
              && negb (matches debit_pattern next_line) && has_digit next_line).
    + destruct (clean_number_ok next_line) as [p ->]. simpl.
      destruct (IH (j + 1 + 1)) as [l ->]. simpl. eauto.
    + simpl. destruct (IH (j + 1)) as [l ->]. simpl. eauto.
  - simpl. destruct (IH (j + 1)) as [l ->]. simpl. eauto.
Qed.

(** The date/debit/premium sequence is always obtained. *)
Lemma structured_entries_of_ok (text : string) :
  exists l, structured_entries_of text = Ok l.
Proof.
  unfold structured_entries_of.
  destruct (extract_header_entry_ok text) as [o ->]. simpl.
  unfold extract_date_debit_premium.
  destruct (date_debit_premium_loop_ok (stripped_lines text)
              (length (stripped_lines text)) 0) as [l ->]. simpl. eauto.
Qed.

Lemma align_length pairs ses : length (align pairs ses) = length ses.
Proof. unfold align. apply length_imap. Qed.

Lemma align_lookup pairs ses i e :
  align pairs ses !! i = Some e ->
  exists se,
    ses !! i = Some se
    /\ effective_date e = se_effective_date se
    /\ debit_note e = se_debit_note se
    /\ premium e = se_premium se
    /\ match pairs !! i with
       | Some p => policy_number e = Some (pair_policy_number p)
                   /\ nature e = Some (pair_nature p)
       | None => policy_number e = None /\ nature e = None
       end.
Proof.
  unfold align. rewrite list_lookup_imap.
  destruct (ses !! i) as [se|]; [| discriminate]. simpl.
  intros [= <-]. exists se. split; [reflexivity |].
  destruct (pairs !! i); simpl; auto.
Qed.

(** C6.  [parse_entries] returns one entry for each element of the
    date/debit/premium sequence, in order; the policy number and the nature
    of entry [i] are those of pair [i] of the separately extracted pair
    sequence, whatever they hold, and both are null for every entry from
    the end of the pair sequence on. *)
Theorem parse_entries_aligns_by_index (normalized_text : string) :
  exists structured entries,
    structured_entries_of (clean_global_ocr normalized_text) = Ok structured
    /\ parse_entries normalized_text = Ok entries
    /\ length entries = length structured
    /\ (forall i e p,
          entries !! i = Some e ->
          policy_nature_pairs_of (clean_global_ocr normalized_text) !! i = Some p ->
          policy_number e = Some (pair_policy_number p) /\ nature e = Some (pair_nature p))
    /\ (forall i e,
          entries !! i = Some e ->
          length (policy_nature_pairs_of (clean_global_ocr normalized_text)) <= i ->
          policy_number e = None /\ nature e = None)
    /\ (forall i e,
          entries !! i = Some e ->
          exists se, structured !! i = Some se
                     /\ effective_date e = se_effective_date se
                     /\ debit_note e = se_debit_note se
                     /\ premium e = se_premium se).
Proof.
  destruct (structured_entries_of_ok (clean_global_ocr normalized_text)) as [ses Hses].
  exists ses, (align (policy_nature_pairs_of (clean_global_ocr normalized_text)) ses).
  split; [exact Hses |]. split; [unfold parse_entries; now rewrite Hses |].
  split; [apply align_length |]. split; [| split].
  - intros i e p He Hp. apply align_lookup in He as (se & _ & _ & _ & _ & H).
    now rewrite Hp in H.
  - intros i e He Hlen. apply align_lookup in He as (se & _ & _ & _ & _ & H).
    now rewrite (lookup_ge_None_2 _ _ Hlen) in H.
  - intros i e He. apply align_lookup in He as (se & H1 & H2 & H3 & H4 & _). eauto.
Qed.

(** Four entries against two pairs: the last two entries have neither
    policy number nor nature. *)
Example parse_entries_sample :
  parse_entries sample_statement =
    Ok [mk_entry "01/02/2025" (Some "BX-123") (Some "P0L-1") (Some (Fin 12)) (Fin (6481 # 5));
        mk_entry "01/02/2025" (Some "B123") (Some "P0L-2") (Some (Fin (61 # 2))) (Fin (2001 # 4));
        mk_entry "02/02/2025" None None None (Fin 0);
        mk_entry "03/02/2025" None None None (Fin 77)].
Proof. vm_compute. reflexivity. Qed.

End EntriesFacts.

(* ===================================================================== *)
(** ** The date fields of the three parsers *)
(* ===================================================================== *)

Module DateFacts.
Import Py Re ReSem PyNum Spec StringFacts ReFacts ScanFacts NumFacts CleanNumberFacts.

(** *** The account statement: [strftime] *)

Lemma digit_char_is_digit (n : nat) : is_digit (digit_char n) = true.
Proof.
  unfold digit_char. pose proof (Nat.mod_upper_bound n 10 ltac:(lia)) as H.
  destruct (n mod 10) as [|[|[|[|[|[|[|[|[|[|k]]]]]]]]]]; first [lia | reflexivity].
Qed.

Lemma dec4_date_is_iso (y m d : nat) :
  is_iso_date (dec4 y +:+ "-" +:+ dec2 m +:+ "-" +:+ dec2 d) = true.
Proof.
  unfold dec4, dec3, dec2.
  generalize (digit_char_is_digit (y / 1000)) (digit_char_is_digit (y / 100))
             (digit_char_is_digit (y / 10)) (digit_char_is_digit y)
             (digit_char_is_digit (m / 10)) (digit_char_is_digit m)
             (digit_char_is_digit (d / 10)) (digit_char_is_digit d).
  generalize (digit_char (y / 1000)) (digit_char (y / 100)) (digit_char (y / 10))
             (digit_char y) (digit_char (m / 10)) (digit_char m)
             (digit_char (d / 10)) (digit_char d).
  intros a1 a2 a3 a4 a5 a6 a7 a8 H1 H2 H3 H4 H5 H6 H7 H8.
  unfold is_iso_date. simpl. now rewrite H1, H2, H3, H4, H5, H6, H7, H8.
Qed.

Lemma strftime_Ymd_shape (d : date) :
  is_iso_date (strftime_Ymd d) = true \/ short_year_date (strftime_Ymd d).
Proof.
  destruct (Nat.lt_ge_cases (year d) 1000) as [Hlt|Hge].
  - right. exists d. auto.
  - left. unfold strftime_Ymd, year_text.
    destruct (Nat.ltb_spec (year d) 10); [lia |].
    destruct (Nat.ltb_spec (year d) 100); [lia |].
    destruct (Nat.ltb_spec (year d) 1000); [lia |].
    apply dec4_date_is_iso.
Qed.

Lemma reformat_date_shape (s r : string) :
  AccountStatement.reformat_date s = Some r -> iso_or_empty r.
Proof.
  unfold AccountStatement.reformat_date.
  destruct (strptime_dBY s) as [d|]; [| discriminate].
  intros H. cbv [option_map] in H. injection H as <-. right. apply strftime_Ymd_shape.
Qed.

Lemma extract_issue_date_shape (text : string) :
  iso_or_empty (AccountStatement.extract_issue_date text).
Proof.
  unfold AccountStatement.extract_issue_date.
  destruct (search _ _) as [m|]; [| now left].
  destruct (AccountStatement.reformat_date _) as [r|] eqn:E; [| now left].
  eapply reformat_date_shape; eauto.
Qed.

Lemma due_date_scan_shape (lines : list string) :
  forall prev r, AccountStatement.due_date_scan prev lines = Some r -> iso_or_empty r.
Proof.
  induction lines as [|line rest IH]; intros prev r;
    cbn [AccountStatement.due_date_scan]; [discriminate |].
  destruct (if contains "PREMIUM DUE DATE" (upper line) then prev else None) as [p|];
    [| apply IH].
  destruct (AccountStatement.reformat_date (strip p)) as [r1|] eqn:E1.
  { intros [= <-]. eapply reformat_date_shape; eauto. }
  destruct (AccountStatement.reformat_date
              (AccountStatement.apply_ocr_corrections (strip p) false)) as [r2|] eqn:E2.
  { intros [= <-]. eapply reformat_date_shape; eauto. }
  apply IH.
Qed.

Lemma extract_premium_due_date_shape (text : string) :
  iso_or_empty (AccountStatement.extract_premium_due_date text).
Proof.
  unfold AccountStatement.extract_premium_due_date.
  destruct (AccountStatement.due_date_scan _ _) as [r|] eqn:E.
  - eapply due_date_scan_shape; eauto.
  - apply extract_issue_date_shape.
Qed.

(** *** Groups *)

(** What a group holds after a match: the text its pattern has read. *)
Lemma Grp_reads n r c g c' g' :
  Matches (Grp n r) c g c' g' ->
  exists w g0, snd c = w +:+ snd c' /\ g' = (n, w) :: g0 /\ Matches r c g c' g0.
Proof.
  intros H. inversion H; subst.
  match goal with M : Matches r _ _ _ _ |- _ =>
    destruct (Matches_reads _ _ _ _ _ M) as (w & Hw & _);
    exists w; eexists; rewrite Hw at 2; rewrite consumed_app; eauto end.
Qed.

Lemma append_inv_tail (a b s : string) : a +:+ s = b +:+ s -> a = b.
Proof.
  revert b. induction a as [|x a IH]; intros b H.
  - destruct b as [|y b]; [reflexivity |]. exfalso.
    apply (f_equal String.length) in H. simpl in H. rewrite length_append in H. lia.
  - destruct b as [|y b].
    + exfalso. apply (f_equal String.length) in H. simpl in H.
      rewrite length_append in H. lia.
    + simpl in H. injection H as -> H. f_equal. now apply IH.
Qed.

(** A text whose first and last characters are outside the class is its
    own [strip]. *)
Lemma strip_by_ends p (s : string) :
  match s with String a _ => p a = false | EmptyString => True end ->
  match srev s with String b _ => p b = false | EmptyString => True end ->
  strip_by p s = s.
Proof.
  intros H1 H2. unfold strip_by, rstrip_by.
  assert (E1 : lstrip_by p s = s) by (destruct s; simpl in *; [| rewrite H1]; reflexivity).
  rewrite E1.
  assert (E2 : lstrip_by p (srev s) = srev s)
    by (destruct (srev s); simpl in *; [| rewrite H2]; reflexivity).
  rewrite E2. apply srev_involutive.
Qed.

(** Texts of a known length. *)
Ltac exact_length w :=
  match goal with
  | Hlo : ?n <= String.length w, Hhi : forall h, Some ?n = Some h -> String.length w <= h |- _ =>
      specialize (Hhi n eq_refl);
      repeat (destruct w as [|? w]; simpl in Hlo, Hhi; try lia);
      clear Hlo Hhi
  end.

(** *** The renewal notice: dd/mm/yyyy *)

Lemma slash_date_reads c g c' g' w :
  Matches RenewalNotice.slash_date c g c' g' -> snd c = w +:+ snd c' ->
  is_slash_date w = true /\ strip w = w.
Proof.
  unfold RenewalNotice.slash_date, cats, times. intros M Hw.
  destruct c as [prev s]. destruct c' as [prev' s']. simpl in Hw.
  invert_match.
  repeat match goal with
         | Hlo : _ <= String.length ?w |- _ => exact_length w
         end.
  cbn [sforall String.append] in *.
  repeat match goal with
         | H : _ && _ = true |- _ => apply andb_true_iff in H as [? ?]
         end.
  match goal with
  | H : String ?a1 (String ?a2 (String ?s1 (String ?m1 (String ?m2 (String ?s2
          (String ?y1 (String ?y2 (String ?y3 (String ?y4 ?rest))))))))) = w +:+ ?rest |- _ =>
      change (String a1 (String a2 (String s1 (String m1 (String m2 (String s2
               (String y1 (String y2 (String y3 (String y4 rest))))))))))
        with (String a1 (String a2 (String s1 (String m1 (String m2 (String s2
               (String y1 (String y2 (String y3 (String y4 ""))))))))) +:+ rest) in H;
      apply append_inv_tail in H; subst w
  end.
  split.
  - unfold is_slash_date, list_of_str. cbn [list_ascii_of_string].
    repeat match goal with H : is_digit _ = true |- _ => rewrite H; clear H end.
    match goal with H1 : is_char "/" _ = true, H2 : is_char "/" _ = true |- _ =>
      rewrite H1, H2 end. reflexivity.
  - apply strip_by_ends; [| unfold srev; cbn [srev_onto]]; now apply digit_not_space.
Qed.

Lemma extract_date_after_shape (label text : string) :
  RenewalNotice.extract_date_after label text = ""
  \/ is_slash_date (RenewalNotice.extract_date_after label text) = true.
Proof.
  unfold RenewalNotice.extract_date_after, RenewalNotice.extract_first.
  destruct (search _ text) as [m|] eqn:E; [| now left].
  apply search_from_sound in E as (pre & w & _ & M & _).
  unfold RenewalNotice.date_after_pattern, cats in M.
  inversion M as [| | ? ? ? ? c1 g1 ? ? M1 M2 | | | | | | | | | | |]; subst.
  inversion M2 as [| | ? ? ? ? c2 g2 ? ? M3 M4 | | | | | | | | | | |]; subst.
  apply Grp_reads in M4 as (d & g0 & Hd & Hcaps & M5).
  unfold group. rewrite Hcaps. simpl.
  destruct (slash_date_reads _ _ _ _ d M5 Hd) as [Hs Hstrip].
  right. now rewrite Hstrip.
Qed.

(** *** The debit note: day, word, year *)

Lemma is_iso_date_inv (s : string) :
  is_iso_date s = true ->
  exists c1 c2 c3 rest,
    s = String c1 (String c2 (String c3 rest))
    /\ is_digit c2 = true /\ is_digit c3 = true.
Proof.
  unfold is_iso_date, list_of_str.
  destruct s as [|c1 [|c2 [|c3 [|c4 [|c5 [|c6 [|c7 [|c8 [|c9 [|c10 [|c11 s]]]]]]]]]]];
    cbn [list_ascii_of_string]; try discriminate.
  intros H. repeat (apply andb_true_iff in H as [H ?]).
  eexists _, _, _, _. repeat split; eauto.
Qed.

(** Inversion of a match down to its groups, which are left whole. *)
Ltac invert_outer :=
  repeat match goal with
  | H : Matches (Cat _ _) _ _ _ _ |- _ => inversion H; subst; clear H
  | H : Matches (Chr _) _ _ _ _ |- _ => inversion H; subst; clear H
  | H : Matches (Rep _ _ _ _) _ _ _ _ |- _ => inversion H; subst; clear H
  end.

Lemma day_word_year_reads c g c' g' d :
  Matches (cats [between 1 2 is_digit; plus is_space; plus is_word; plus is_space;
                 times 4 is_digit]) c g c' g' ->
  snd c = d +:+ snd c' ->
  strip d = d /\ is_iso_date d = false.
Proof.
  unfold cats, between, plus, times. intros M Hd.
  destruct c as [prev s]. destruct c' as [prev' s']. simpl in Hd.
  invert_match.
  match goal with
  | H : ?w1 +:+ ?w2 +:+ ?w3 +:+ ?w4 +:+ ?w5 +:+ s' = d +:+ s' |- _ =>
      rewrite <- (append_assoc w4 w5 s'), <- (append_assoc w3 (w4 +:+ w5) s'),
              <- (append_assoc w2 (w3 +:+ w4 +:+ w5) s'),
              <- (append_assoc w1 (w2 +:+ w3 +:+ w4 +:+ w5) s') in H;
      apply append_inv_tail in H; subst d;
      rename w1 into day, w2 into gap, w5 into yr
  end.
  repeat match goal with
         | Hlo : ?n <= String.length yr, Hhi : forall h, Some ?n = Some h -> _ |- _ =>
             exact_length yr
         end.
  destruct day as [|d1 day]; [simpl in *; lia |].
  destruct gap as [|sp gap]; [simpl in *; lia |].
  cbn [sforall] in *.
  repeat match goal with
         | H : _ && _ = true |- _ => apply andb_true_iff in H as [? ?]
         end.
  split.
  - apply strip_by_ends.
    + cbn [String.append]. now apply digit_not_space.
    + rewrite !srev_app. unfold srev at 1. cbn [srev_onto String.append].
      now apply digit_not_space.
  - destruct (is_iso_date _) eqn:E; [| reflexivity]. exfalso.
    apply is_iso_date_inv in E as (c1 & c2 & c3 & rest & E & Hc2 & Hc3).
    assert (Hsp : is_digit sp = false).
    { destruct (is_digit sp) eqn:D; [| reflexivity].
      apply digit_not_space in D. congruence. }
    match goal with
    | Hhi : forall h, Some 2 = Some h -> String.length (String d1 day) <= h |- _ =>
        specialize (Hhi 2 eq_refl); simpl in Hhi
    end.
    destruct day as [|b [|? ?]]; cbn [String.append] in E; simpl in *; try lia;
      injection E as ? ? ?; subst; congruence.
Qed.

Lemma debit_issue_date_shape (text : string) :
  DebitNote.extract_first DebitNote.issue_date_pattern text = ""
  \/ is_iso_date (DebitNote.extract_first DebitNote.issue_date_pattern text) = false.
Proof.
  unfold DebitNote.extract_first.
  destruct (search _ text) as [m|] eqn:E; [| now left].
  apply search_from_sound in E as (pre & w & _ & M & _).
  unfold DebitNote.issue_date_pattern in M.
  cbn [cats ilit opt_chr star] in M.
  invert_outer.
  match goal with
  | M4 : Matches (Grp 1 _) _ _ _ _ |- _ =>
      apply Grp_reads in M4 as (dt & gs & Hd & Hcaps & M5)
  end.
  unfold group. rewrite Hcaps. cbn [cap_get Nat.eqb].
  destruct (day_word_year_reads _ _ _ _ dt M5 Hd) as [Hstrip Hiso].
  right. now rewrite Hstrip.
Qed.

End DateFacts.

(* ===================================================================== *)
(** ** The parsers and the dispatcher *)
(* ===================================================================== *)

Module ParserFacts.
Import Py Re PyNum Spec FinancialFacts EntriesFacts DateFacts.

Lemma is_slash_date_not_iso (s : string) :
  is_slash_date s = true -> is_iso_date s = false.
Proof.
  unfold is_slash_date, is_iso_date, list_of_str.
  destruct s as [|c1 [|c2 [|c3 [|c4 [|c5 [|c6 [|c7 [|c8 [|c9 [|c10 [|c11 s]]]]]]]]]]];
    cbn [list_ascii_of_string]; try discriminate.
  intros H. repeat (apply andb_true_iff in H as [H ?]).
  assert (Hc3 : is_digit c3 = false).
  { destruct c3 as [[] [] [] [] [] [] [] []]; try reflexivity; discriminate. }
  rewrite Hc3, !andb_false_r. reflexivity.
Qed.

(** C5, amended.  A date field is never an exception.  The account
    statement's issue date and premium due date are empty, or in ISO form
    YYYY-MM-DD (a year below 1000 comes out with fewer digits); they are
    empty also when the text matches the grammar and names no real date.
    The renewal notice returns the dd/mm/yyyy text it finds as it stands,
    and the debit note the "day word year" text as it stands; neither is in
    ISO form. *)
Theorem date_fields_shape :
  (forall text, iso_or_empty (AccountStatement.extract_issue_date text))
  /\ (forall text, iso_or_empty (AccountStatement.extract_premium_due_date text))
  /\ (forall label text,
        RenewalNotice.extract_date_after label text = ""
        \/ (is_slash_date (RenewalNotice.extract_date_after label text) = true
            /\ is_iso_date (RenewalNotice.extract_date_after label text) = false))
  /\ (forall text,
        DebitNote.extract_first DebitNote.issue_date_pattern text = ""
        \/ is_iso_date (DebitNote.extract_first DebitNote.issue_date_pattern text) = false)
  /\ AccountStatement.extract_issue_date "Issued Date: 15 November 2025" = "2025-11-15"
  /\ AccountStatement.extract_issue_date "Issued Date: 31 February 2025" = ""
  /\ AccountStatement.extract_issue_date "Issued Date: 15/11/2025" = ""
  /\ RenewalNotice.extract_date_after "ISSUE DATE" "ISSUE DATE 15/11/2025" = "15/11/2025"
  /\ RenewalNotice.extract_date_after "ISSUE DATE" "ISSUE DATE 15 November 2025" = ""
  /\ DebitNote.extract_first DebitNote.issue_date_pattern "DATE: 15 November 2025"
     = "15 November 2025"
  /\ DebitNote.extract_first DebitNote.issue_date_pattern "DATE: 15/11/2025" = "".
Proof.
  split; [exact extract_issue_date_shape |].
  split; [exact extract_premium_due_date_shape |].
  split.
  { intros label text. destruct (extract_date_after_shape label text) as [H|H];
      [now left | right; split; [exact H | now apply is_slash_date_not_iso]]. }
  split; [exact debit_issue_date_shape |].
  repeat split; vm_compute; reflexivity.
Qed.

(** C5, as the spec words it, fails: for a text that matches the date
    grammar, the renewal notice and the debit note return the date as it is
    written, not in ISO form. *)
Lemma date_fields_not_iso :
  RenewalNotice.issue_date <$> RenewalNotice.parse_renewal_notice_text
      "ISSUE DATE 15/11/2025" "" = Ok "15/11/2025"
  /\ is_iso_date "15/11/2025" = false
  /\ DebitNote.issue_date <$> DebitNote.parse_debit_note_text
      "DATE: 15 November 2025" "" = Ok "15 November 2025"
  /\ is_iso_date "15 November 2025" = false.
Proof. repeat split; vm_compute; reflexivity. Qed.

(** *** The empty text *)

(** C8, amended.  On the empty text each parser returns a complete record
    without raising; every list is empty and every scalar is the empty
    string or 0.0, except the account number of the account statement,
    which is the marker "N/A". *)
Theorem parsers_on_empty_text :
  DebitNote.parse_debit_note_text "" ""
    = Ok (DebitNote.mk_debit_note "" "" "" "" "" "" [])
  /\ AccountStatement.parse_account_statement_text "" ""
    = Ok (AccountStatement.mk_account_statement "" "" "N/A" "" zero [] [])
  /\ RenewalNotice.parse_renewal_notice_text "" ""
    = Ok (RenewalNotice.mk_renewal_notice "" "" "" "" "" "" [] zero zero "").
Proof. repeat split; vm_compute; reflexivity. Qed.

(** C8, as the spec words it, fails: the account statement of the empty
    text has an account number that is not empty. *)
Lemma empty_text_account_number_not_empty :
  AccountStatement.account_number <$> AccountStatement.parse_account_statement_text "" ""
    = Ok "N/A"
  /\ "N/A" <> "".
Proof. split; [vm_compute; reflexivity | discriminate]. Qed.

(** *** The renewal entries *)

Lemma zip_entries_lookup labels amounts i e :
  RenewalNotice.zip_entries labels amounts !! i = Some e ->
  labels !! i = Some (RenewalNotice.label e)
  /\ RenewalNotice.amount e = match amounts !! i with Some a => a | None => zero end.
Proof.
  unfold RenewalNotice.zip_entries. rewrite list_lookup_imap.
  destruct (labels !! i); [| discriminate]. simpl. intros [= <-]. auto.
Qed.

(** X1.  When the amounts of all lines are obtained, the entries are the
    labels in order, each with the amount of the line of its index, 0.0
    past the last line. *)
Lemma extract_renewal_entries_zip text m amounts :
  search RenewalNotice.block_pattern text = Some m ->
  emap RenewalNotice.amount_of_line
       (RenewalNotice.amount_lines_of (RenewalNotice.block_lines (group 0 m))) = Ok amounts ->
  exists entries,
    RenewalNotice.extract_renewal_entries text = Ok entries
    /\ map RenewalNotice.label entries
       = RenewalNotice.labels_of (RenewalNotice.block_lines (group 0 m))
    /\ forall i e, entries !! i = Some e ->
         RenewalNotice.amount e = match amounts !! i with Some a => a | None => zero end.
Proof.
  intros Hm Ha. unfold RenewalNotice.extract_renewal_entries. rewrite Hm, Ha.
  eexists. split; [reflexivity |]. split.
  - unfold RenewalNotice.zip_entries. apply list_eq. intros i.
    rewrite list_lookup_fmap, list_lookup_imap.
    destruct (RenewalNotice.labels_of _ !! i); reflexivity.
  - intros i e He. now apply zip_entries_lookup in He.
Qed.

Lemma extract_renewal_entries_zip_witness :
  exists entries,
    RenewalNotice.extract_renewal_entries three_labels_text = Ok entries
    /\ map RenewalNotice.label entries = ["1 Clerk"; "2 Driver"; "3 Cook"].
Proof.
  edestruct (extract_renewal_entries_zip three_labels_text) as (entries & H1 & H2 & _);
    [vm_compute; reflexivity | vm_compute; reflexivity |].
  exists entries. split; [exact H1 |]. rewrite H2. vm_compute. reflexivity.
Defined.

(** C7 fails on the code: an amount line made of a comma alone makes
    [extract_renewal_entries], and with it the parser, raise the ValueError
    of [float('')] instead of returning one entry for each label.  With
    three labels and two readable amount lines the third amount is 0.0. *)
Theorem extract_renewal_entries_raises_on_comma :
  RenewalNotice.extract_renewal_entries comma_line_text
    = Raise (ValueError "could not convert string to float: ")
  /\ RenewalNotice.parse_renewal_notice_text comma_line_text ""
    = Raise (ValueError "could not convert string to float: ")
  /\ RenewalNotice.extract_renewal_entries three_labels_text
    = Ok [RenewalNotice.mk_renewal_entry "1 Clerk" (Fin (2401 # 2));
          RenewalNotice.mk_renewal_entry "2 Driver" (Fin 3400);
          RenewalNotice.mk_renewal_entry "3 Cook" zero].
Proof. repeat split; vm_compute; reflexivity. Qed.

(** *** The dispatcher *)

Lemma from_end_ok {A : Type} (k : nat) (l : list A) :
  1 <= k -> k <= length l -> exists x, from_end k l = Ok x.
Proof.
  intros H1 H2. unfold from_end.
  destruct (Nat.leb_spec k (length l)); [| lia].
  destruct (lookup_lt_is_Some_2 l (length l - k) ltac:(lia)) as [x ->]. eauto.
Qed.

Lemma extract_manager_financials_ok text :
  exists l, DebitNote.extract_manager_financials text = Ok l.
Proof.
  unfold DebitNote.extract_manager_financials.
  destruct (search _ text); [| eauto].
  destruct (Nat.ltb_spec (length (DebitNote.qualifying_values text)) 5); [eauto |].
  destruct (from_end_ok 5 (DebitNote.qualifying_values text)) as [a ->]; [lia.. |].
  destruct (from_end_ok 4 (DebitNote.qualifying_values text)) as [b ->]; [lia.. |].
  destruct (from_end_ok 3 (DebitNote.qualifying_values text)) as [c ->]; [lia.. |].
  destruct (from_end_ok 2 (DebitNote.qualifying_values text)) as [d ->]; [lia.. |].
  destruct (from_end_ok 1 (DebitNote.qualifying_values text)) as [e ->]; [lia.. |].
  simpl. eauto.
Qed.

Lemma parse_debit_note_text_ok raw_text insured_or_agent :
  exists d, DebitNote.parse_debit_note_text raw_text insured_or_agent = Ok d.
Proof.
  unfold DebitNote.parse_debit_note_text.
  destruct (extract_manager_financials_ok (DebitNote.normalize_text raw_text)) as [l ->].
  simpl. eauto.
Qed.

Lemma parse_account_statement_text_ok raw_text insured_or_agent :
  exists a, AccountStatement.parse_account_statement_text raw_text insured_or_agent = Ok a.
Proof.
  unfold AccountStatement.parse_account_statement_text, AccountStatement.parse_entries.
  destruct (structured_entries_of_ok
              (AccountStatement.clean_global_ocr
                 (AccountStatement.apply_ocr_corrections raw_text false))) as [l ->].
  simpl. eauto.
Qed.

(** What holds of the dispatcher for every text: for a tag outside the
    three recognized ones [parse_document] raises the unsupported-type
    error; for a recognized tag its outcome is that of the parser of the
    tag, so it adds no exception of its own; with "debit_note" and
    "account_statement" it returns a record. *)
Lemma parse_document_dispatch (raw_text doc_type : string) :
  (doc_type <> "debit_note" -> doc_type <> "account_statement" ->
   doc_type <> "renewal_notice" ->
   DocumentParser.parse_document raw_text doc_type
     = Raise (ValueError ("Unsupported document type: " +:+ doc_type)))
  /\ (exists d,
        DebitNote.parse_debit_note_text raw_text "" = Ok d
        /\ DocumentParser.parse_document raw_text "debit_note"
           = Ok (DocumentParser.DebitNoteRecord d))
  /\ (exists a,
        AccountStatement.parse_account_statement_text raw_text "" = Ok a
        /\ DocumentParser.parse_document raw_text "account_statement"
           = Ok (DocumentParser.AccountStatementRecord a))
  /\ DocumentParser.parse_document raw_text "renewal_notice"
     = DocumentParser.RenewalNoticeRecord
         <$> RenewalNotice.parse_renewal_notice_text raw_text "".
Proof.
  split; [| split; [| split]].
  - intros H1 H2 H3. unfold DocumentParser.parse_document.
    apply String.eqb_neq in H1, H2, H3. now rewrite H1, H2, H3.
  - destruct (parse_debit_note_text_ok raw_text "") as [d Hd]. exists d.
    split; [exact Hd |]. unfold DocumentParser.parse_document.
    cbn [String.eqb Ascii.eqb Bool.eqb]. now rewrite Hd.
  - destruct (parse_account_statement_text_ok raw_text "") as [a Ha]. exists a.
    split; [exact Ha |]. unfold DocumentParser.parse_document.
    cbn [String.eqb Ascii.eqb Bool.eqb]. now rewrite Ha.
  - reflexivity.
Qed.

Lemma parse_document_dispatch_witness :
  DocumentParser.parse_document "" "unknown_type"
    = Raise (ValueError "Unsupported document type: unknown_type").
Proof.
  apply (proj1 (parse_document_dispatch "" "unknown_type")); discriminate.
Defined.

(** C4 fails on the code: with the recognized tag "renewal_notice"
    [parse_document] raises where it should return a result: on a text whose
    EMPLOYEES block has the amount line ",", the [ValueError] of the
    unguarded [float] in [extract_renewal_entries] comes through
    [parse_renewal_notice_text] and the dispatcher, neither of which
    catches it. *)
Theorem parse_document_raises_for_recognized_tag :
  DocumentParser.parse_document comma_line_text "renewal_notice"
    = Raise (ValueError "could not convert string to float: ").
Proof. vm_compute. reflexivity. Qed.

End ParserFacts.

(* ===================================================================== *)
(** ** Texts: strips, character maps and the matches of a scan *)
(* ===================================================================== *)

Module TextFacts.
Import Py Re ReSem Spec Props StringFacts ReFacts ScanFacts NumFacts CleanNumberFacts DateFacts.

(** *** Stripping leaves no character of the class at either end *)

Lemma lstrip_by_head p (s : string) :
  match lstrip_by p s with String c _ => p c = false | EmptyString => True end.
Proof.
  induction s as [|c s IH]; simpl; [exact I |].
  destruct (p c) eqn:Hp; [exact IH | exact Hp].
Qed.

Lemma head_app (a b : string) :
  a <> "" ->
  match a +:+ b with String c _ => Some c | EmptyString => None end
  = match a with String c _ => Some c | EmptyString => None end.
Proof. destruct a; [congruence | reflexivity]. Qed.

Lemma strip_by_head p (s : string) :
  match strip_by p s with String c _ => p c = false | EmptyString => True end.
Proof.
  unfold strip_by, rstrip_by.
  pose proof (lstrip_by_head p s) as Ht. set (t := lstrip_by p s) in *.
  destruct (lstrip_by_suffix p (srev t)) as [pre Hpre].
  set (u := lstrip_by p (srev t)) in *.
  assert (Et : t = srev u +:+ srev pre).
  { rewrite <- srev_app, <- Hpre. symmetry. apply srev_involutive. }
  destruct (srev u) as [|c v] eqn:Eu; [exact I |].
  rewrite Et in Ht. exact Ht.
Qed.

Lemma strip_by_last p (s : string) :
  match srev (strip_by p s) with String c _ => p c = false | EmptyString => True end.
Proof.
  unfold strip_by, rstrip_by. rewrite srev_involutive. apply lstrip_by_head.
Qed.

Lemma strip_by_idem p (s : string) : strip_by p (strip_by p s) = strip_by p s.
Proof. apply strip_by_ends; [apply strip_by_head | apply strip_by_last]. Qed.

(** *** Replacing one character *)

Lemma replace_char (a b : ascii) (s : string) :
  replace (String a "") (String b "") s = smap (swap_char a b) s.
Proof.
  unfold replace, swap_char. induction s as [|c s IH]; simpl; [reflexivity |].
  destruct (Ascii.eqb a c); simpl; now rewrite IH.
Qed.

Lemma delete_char (a : ascii) (s : string) :
  replace (String a "") "" s = sfilter (fun c => negb (Ascii.eqb a c)) s.
Proof.
  unfold replace. induction s as [|c s IH]; simpl; [reflexivity |].
  destruct (Ascii.eqb a c); simpl; now rewrite IH.
Qed.

Lemma sforall_smap (p : ascii -> bool) (f : ascii -> ascii) (s : string) :
  sforall p (smap f s) = sforall (fun c => p (f c)) s.
Proof. induction s as [|c s IH]; simpl; [reflexivity | now rewrite IH]. Qed.

Lemma length_smap (f : ascii -> ascii) (s : string) :
  String.length (smap f s) = String.length s.
Proof. induction s as [|c s IH]; simpl; [reflexivity | now rewrite IH]. Qed.

Lemma smap_smap (f g : ascii -> ascii) (s : string) :
  smap f (smap g s) = smap (fun c => f (g c)) s.
Proof. induction s as [|c s IH]; simpl; [reflexivity | now rewrite IH]. Qed.

Lemma smap_ext (f g : ascii -> ascii) (s : string) :
  (forall c, f c = g c) -> smap f s = smap g s.
Proof. intros H. induction s as [|c s IH]; simpl; [reflexivity | now rewrite H, IH]. Qed.

Lemma smap_id_on (p : ascii -> bool) (f : ascii -> ascii) (s : string) :
  (forall c, p c = true -> f c = c) -> sforall p s = true -> smap f s = s.
Proof.
  intros H. induction s as [|c s IH]; simpl; [reflexivity |].
  intros E. apply andb_true_iff in E as [Hc Hs]. now rewrite (H c Hc), IH.
Qed.

Lemma sforall_ext (p q : ascii -> bool) (s : string) :
  (forall c, p c = q c) -> sforall p s = sforall q s.
Proof. intros H. induction s as [|c s IH]; simpl; [reflexivity | now rewrite H, IH]. Qed.

Lemma sforall_stake p n (s : string) : sforall p s = true -> sforall p (stake n s) = true.
Proof.
  revert n. induction s as [|c s IH]; intros [|n]; simpl; auto.
  intros E. apply andb_true_iff in E as [Hc Hs]. now rewrite Hc, IH.
Qed.

Lemma length_stake n (s : string) : String.length (stake n s) <= String.length s.
Proof.
  revert n. induction s as [|c s IH]; intros [|n]; simpl; try lia.
  specialize (IH n). lia.
Qed.

Lemma sforall_join p sep (l : list string) :
  sforall p sep = true -> Forall (fun x => sforall p x = true) l ->
  sforall p (join sep l) = true.
Proof.
  intros Hsep. induction 1 as [|x l Hx Hl IH]; [reflexivity |].
  destruct l as [|y l]; [exact Hx |].
  change (join sep (x :: y :: l)) with (x +:+ sep +:+ join sep (y :: l)).
  now rewrite !sforall_app, Hx, Hsep, IH.
Qed.

Lemma sforall_sfilter_class (p q r : ascii -> bool) (s : string) :
  (forall c, q c = true -> p c = true -> r c = true) ->
  sforall q s = true -> sforall r (sfilter p s) = true.
Proof.
  intros H. induction s as [|c s IH]; simpl; [reflexivity |].
  intros E. apply andb_true_iff in E as [Hc Hs].
  destruct (p c) eqn:Hp; [simpl; now rewrite (H c Hc Hp), IH | now apply IH].
Qed.

Lemma conj_sforall (p q : ascii -> bool) (s : string) :
  sforall p s = true -> sforall q s = true -> sforall (fun c => p c && q c) s = true.
Proof.
  induction s as [|c s IH]; simpl; [reflexivity |].
  intros Hp Hq. apply andb_true_iff in Hp as [Hp1 Hp2]. apply andb_true_iff in Hq as [Hq1 Hq2].
  now rewrite Hp1, Hq1, IH.
Qed.

(** *** Replacements within a class *)

Lemma replace_from_class p (old new : string) :
  sforall p new = true ->
  forall s skip, sforall p s = true -> sforall p (replace_from old new skip s) = true.
Proof.
  intros Hnew. induction s as [|c s IH]; intros skip Hs; [reflexivity |].
  cbn [sforall] in Hs. apply andb_true_iff in Hs as [Hc Hs].
  cbn [replace_from]. destruct skip as [|n]; [| now apply IH].
  destruct (starts_with old (String c s)).
  - rewrite sforall_app, Hnew. now apply IH.
  - cbn [sforall]. rewrite Hc. now apply IH.
Qed.

Lemma replace_class p (old new s : string) :
  old <> "" -> sforall p new = true -> sforall p s = true ->
  sforall p (replace old new s) = true.
Proof.
  intros Hne Hnew Hs. destruct old; [congruence |].
  unfold replace. now apply replace_from_class.
Qed.

(** *** The matches of a scan *)

Lemma finditer_from_sound r : forall fuel s prev i m,
  m ∈ finditer_from fuel r prev s i ->
  exists pre,
    s = pre +:+ m_group0 m +:+ snd (m_rest m)
    /\ Matches r (prev_after prev pre, m_group0 m +:+ snd (m_rest m)) []
               (m_rest m) (m_caps m).
Proof.
  induction fuel as [|fuel IH]; intros s prev i m Hm; simpl in Hm; [inversion Hm |].
  destruct (search_from r prev s i) as [m0|] eqn:E; [| inversion Hm].
  apply search_from_sound in E as (pre0 & w0 & Hs & M0 & Hg & _).
  assert (Hhere : m = m0 ->
            exists pre, s = pre +:+ m_group0 m +:+ snd (m_rest m)
              /\ Matches r (prev_after prev pre, m_group0 m +:+ snd (m_rest m)) []
                         (m_rest m) (m_caps m)).
  { intros ->. exists pre0. rewrite Hg. auto. }
  destruct (m_group0 m0) as [|a0 w0'] eqn:Eg.
  - destruct (snd (m_rest m0)) as [|a s1] eqn:Er.
    + apply list_elem_of_singleton in Hm. now apply Hhere.
    + apply elem_of_cons in Hm as [Hm|Hm]; [now apply Hhere |].
      apply IH in Hm as (pre1 & Hs1 & M1).
      exists (pre0 +:+ String a pre1). subst w0. simpl in Hs.
      split.
      * rewrite Hs. rewrite append_assoc. simpl. now rewrite <- Hs1.
      * rewrite prev_after_app. simpl. exact M1.
  - apply elem_of_cons in Hm as [Hm|Hm]; [now apply Hhere |].
    apply IH in Hm as (pre1 & Hs1 & M1).
    destruct (Matches_reads _ _ _ _ _ M0) as (w' & Hw' & Hp'). simpl in Hw', Hp'.
    apply append_inv_tail in Hw'. subst w'.
    exists (pre0 +:+ w0 +:+ pre1). split.
    + rewrite Hs. rewrite !append_assoc. now rewrite <- Hs1.
    + rewrite !prev_after_app, <- Hp'. exact M1.
Qed.

Lemma findall_sound r s w :
  w ∈ findall r s ->
  exists pre prev rest c' g',
    s = pre +:+ w +:+ rest /\ Matches r (prev, w +:+ rest) [] c' g' /\ snd c' = rest.
Proof.
  unfold findall, finditer. intros H.
  apply list_elem_of_fmap in H as (m & -> & Hm).
  apply finditer_from_sound in Hm as (pre & Hs & M).
  exists pre, (prev_after None pre), (snd (m_rest m)), (m_rest m), (m_caps m). auto.
Qed.

(** The text of a group that ends where the match ends. *)
Ltac group_text Hp :=
  repeat match goal with
         | H : (_, _) = m_rest ?m |- _ => rewrite <- H in Hp
         end;
  simpl in Hp;
  try match type of Hp with
      | String ?a (?v +:+ ?s) = _ =>
          change (String a (v +:+ s)) with (String a v +:+ s) in Hp
      end;
  apply append_inv_tail in Hp.

End TextFacts.

(* ===================================================================== *)
(** ** The matcher finds every match of a pattern without lookahead *)
(* ===================================================================== *)

Module CompleteFacts.
Import Py Re ReSem Spec Props StringFacts ReFacts ScanFacts.

Lemma rep_complete (R : Type) (greedy : bool) (p : ascii -> bool) :
  forall (w s : string) lo hi prev g (k : cursor -> caps -> option R) x,
    sforall p w = true -> lo <= String.length w ->
    (forall h, hi = Some h -> String.length w <= h) ->
    k (prev_after prev w, s) g = Some x ->
    is_Some (rep R greedy p lo hi prev (w +:+ s) g k).
Proof.
  induction w as [|a w IH]; intros s lo hi prev g k x Hw Hlo Hhi Hk.
  - simpl in *. assert (lo = 0) as -> by lia.
    destruct s as [|b s]; simpl; destruct greedy; simpl; rewrite ?Hk; eauto.
    + destruct (if p b && may_take hi then _ else None); eauto.
  - simpl in Hw. apply andb_true_iff in Hw as [Ha Hw].
    assert (Hm : may_take hi = true).
    { destruct hi as [[|h]|]; try reflexivity. specialize (Hhi 0 eq_refl). simpl in Hhi. lia. }
    assert (Hrec : is_Some (rep R greedy p (Nat.pred lo) (option_map Nat.pred hi) (Some a)
                              (w +:+ s) g k)).
    { apply (IH s _ _ _ _ _ x); auto.
      - simpl in Hlo. lia.
      - intros h Hh. destruct hi as [h0|]; [| discriminate].
        injection Hh as <-. specialize (Hhi h0 eq_refl). simpl in Hhi. lia. }
    destruct Hrec as [y Hy].
    simpl. rewrite Ha, Hm. simpl. destruct greedy.
    + rewrite Hy. eauto.
    + destruct (match lo with 0 => _ | S _ => None end); eauto.
Qed.

(** Completeness of the matcher for patterns without lookahead: when the
    pattern has a match after which the continuation succeeds, the matcher
    returns a result (of its preferred match). *)
Lemma run_complete r c g c' g' :
  Matches r c g c' g' -> look_free r = true ->
  forall (R : Type) (k : cursor -> caps -> option R) x,
    k c' g' = Some x -> is_Some (run R r c g k).
Proof.
  induction 1 as [c g | p prev a s g Hp | r1 r2 c g c1 g1 c2 g2 M1 IH1 M2 IH2
                  | r1 r2 c g c' g' M IH | r1 r2 c g c' g' M IH
                  | greedy lo hi p prev w s g Hw Hlo Hhi
                  | r c g c' g' M IH | r c g | n r c g c' g' M IH | r c g c' g' M IH
                  | s g | c g He | prev g | c g Hb];
    intros Hlf R k x Hk; simpl in *.
  - eauto.
  - rewrite Hp. eauto.
  - apply andb_true_iff in Hlf as [H1 H2].
    destruct (IH2 H2 R k x Hk) as [y Hy].
    exact (IH1 H1 R (fun c' g' => run R r2 c' g' k) y Hy).
  - apply andb_true_iff in Hlf as [H1 H2].
    destruct (IH H1 R k x Hk) as [y ->]. eauto.
  - apply andb_true_iff in Hlf as [H1 H2].
    destruct (run R r1 c g k); [eauto |]. exact (IH H2 R k x Hk).
  - eapply rep_complete; eauto.
  - destruct (IH Hlf R k x Hk) as [y ->]. eauto.
  - destruct (run R r c g k); eauto.
  - exact (IH Hlf R (fun c' g'' => k c' ((n, consumed (snd c) (snd c')) :: g'')) x Hk).
  - discriminate.
  - eauto.
  - rewrite He. eauto.
  - eauto.
  - rewrite Hb. eauto.
Qed.

Lemma match_at_complete r prev s i c' g' :
  Matches r (prev, s) [] c' g' -> look_free r = true -> is_Some (match_at r prev s i).
Proof.
  intros M Hlf. unfold match_at.
  destruct (run_complete _ _ _ _ _ M Hlf (cursor * caps) (fun c g => Some (c, g)) (c', g') eq_refl)
    as [[c g] ->]. eauto.
Qed.

(** A pattern that matches somewhere in the subject is found by the
    search. *)
Lemma search_from_complete r : forall (pre rest : string) prev i c' g',
  Matches r (prev_after prev pre, rest) [] c' g' -> look_free r = true ->
  is_Some (search_from r prev (pre +:+ rest) i).
Proof.
  induction pre as [|a pre IH]; intros rest prev i c' g' M Hlf.
  - simpl in *. destruct (match_at_complete r prev rest i c' g' M Hlf) as [m Hm].
    destruct rest; simpl; rewrite Hm; eauto.
  - simpl. destruct (match_at r prev (String a (pre +:+ rest)) i); [eauto |].
    eapply IH; eauto.
Qed.

End CompleteFacts.

(* ===================================================================== *)
(** ** The debit note: figures and copy labels *)
(* ===================================================================== *)

Module FigureFacts.
Import Py Re ReSem PyNum Spec Props StringFacts ReFacts ScanFacts NumFacts CleanNumberFacts
       CleanMoneyFacts DateFacts FinancialFacts TextFacts CompleteFacts DebitNote.

(** *** The copy labels *)

Lemma detect_fold_elem text (pats : list (string * regex)) : forall (acc : gset string) l,
  l ∈ fold_left (fun found kp =>
                   match search (snd kp) text with
                   | Some _ => found ∪ {[ fst kp ]}
                   | None => found
                   end) pats acc
  <-> l ∈ acc \/ exists pat, (l, pat) ∈ pats /\ is_Some (search pat text).
Proof.
  induction pats as [|[k p] pats IH]; intros acc l; simpl.
  - split; [auto | intros [H | (pat & H & _)]; [exact H | inversion H]].
  - rewrite IH. split.
    + intros [H | (pat & Hin & Hs)].
      * destruct (search p text) eqn:E.
        -- apply elem_of_union in H as [H|H]; [now left |].
           apply elem_of_singleton in H as ->. right. exists p. split; [left | rewrite E; eauto].
        -- now left.
      * right. exists pat. split; [now right | exact Hs].
    + intros [H | (pat & Hin & Hs)].
      * left. destruct (search p text); [apply elem_of_union; now left | exact H].
      * apply elem_of_cons in Hin as [[= -> ->] | Hin].
        -- left. destruct Hs as [m ->]. apply elem_of_union. right. now apply elem_of_singleton.
        -- right. eauto.
Qed.

Lemma detect_copy_types_elem text l :
  l ∈ detect_copy_types text
  <-> exists pat, (l, pat) ∈ copy_patterns /\ is_Some (search pat text).
Proof.
  unfold detect_copy_types. rewrite detect_fold_elem. split; [| auto].
  intros [H | H]; [| exact H]. apply elem_of_empty in H. destruct H.
Qed.

Lemma copy_patterns_labels l pat : (l, pat) ∈ copy_patterns -> l ∈ copy_labels.
Proof.
  unfold copy_patterns, copy_labels. intros H.
  repeat (apply elem_of_cons in H as [[= -> _] | H]; [set_solver |]).
  inversion H.
Qed.

Lemma detect_copy_types_labels text l : l ∈ detect_copy_types text -> l ∈ copy_labels.
Proof.
  intros H. apply detect_copy_types_elem in H as (pat & H & _).
  eapply copy_patterns_labels; eauto.
Qed.

Lemma detect_copy_types_size text : size (detect_copy_types text) <= 4.
Proof.
  assert (H : detect_copy_types text ⊆ list_to_set copy_labels).
  { intros l Hl. apply elem_of_list_to_set. now apply (detect_copy_types_labels text). }
  apply subseteq_size in H. etransitivity; [exact H |]. vm_compute. lia.
Qed.

End FigureFacts.

Module TokenFacts.
Import Py Re ReSem PyNum Spec Props StringFacts ReFacts ScanFacts NumFacts CleanNumberFacts
       CleanMoneyFacts DateFacts FinancialFacts TextFacts CompleteFacts FigureFacts DebitNote.

Ltac invert_wb :=
  match goal with H : Matches Wb _ _ _ _ |- _ => inversion H; subst; clear H end.

(** A token of [\b\d{2,4}[., ]?\d{0,2}\b]: two to four digits, at most one
    separator, at most two digits. *)
Lemma number_token_shape text n :
  n ∈ findall number_pattern text ->
  exists w1 w2 w3,
    n = w1 +:+ w2 +:+ w3 /\ sforall is_digit w1 = true /\ 2 <= String.length w1 <= 4
    /\ (w2 = "" \/ w2 = "." \/ w2 = "," \/ w2 = " ")
    /\ sforall is_digit w3 = true /\ String.length w3 <= 2.
Proof.
  intros H. apply findall_sound in H as (pre & prev & rest & [prev' s'] & g' & Hs & M & Hr).
  simpl in Hr. subst s'.
  unfold number_pattern, cats, between, opt_chr in M.
  repeat (invert_match || invert_wb).
  match goal with
  | H : n +:+ rest = ?a +:+ ?b +:+ ?c +:+ rest |- _ =>
      rewrite <- (append_assoc b c rest), <- (append_assoc a (b +:+ c) rest) in H;
      apply append_inv_tail in H; subst n;
      exists a, b, c
  end.
  repeat match goal with
         | H : forall h : nat, Some ?k = Some h -> _ |- _ => specialize (H k eq_refl)
         end.
  repeat split; auto.
  destruct w0 as [|c [|d w0]]; simpl in *; [auto | | lia].
  match goal with H : one_of "., " c && true = true |- _ =>
    rewrite andb_true_r in H; revert H end.
  clear. intros H. destruct c as [[] [] [] [] [] [] [] []]; try discriminate H; auto.
Qed.

Lemma digit_not_blank c : is_digit c = true -> negb (Ascii.eqb " " c) = true.
Proof. ascii_cases c. Qed.

Lemma digit_not_comma c : is_digit c = true -> swap_char "," "." c = c.
Proof. ascii_cases c. Qed.

Lemma token_text_digits (w : string) :
  sforall is_digit w = true -> token_text w = w.
Proof.
  intros H. unfold token_text. rewrite delete_char, replace_char.
  rewrite sfilter_all by (eapply sforall_impl; [apply digit_not_blank | exact H]).
  eapply smap_id_on; [apply digit_not_comma | exact H].
Qed.

Lemma smap_app f (a b : string) : smap f (a +:+ b) = smap f a +:+ smap f b.
Proof. induction a as [|c a IH]; simpl; [reflexivity | now rewrite IH]. Qed.

Lemma token_text_app (a b : string) : token_text (a +:+ b) = token_text a +:+ token_text b.
Proof.
  unfold token_text. rewrite !delete_char, !replace_char.
  now rewrite sfilter_app, smap_app.
Qed.

(** [float] reads every token: as the integer its digits spell, or as a
    decimal with at most two places. *)
Lemma number_token_read text n :
  n ∈ findall number_pattern text ->
  exists v, py_float (token_text n) = Some v /\ finite_nonneg v.
Proof.
  intros H.
  destruct (number_token_shape text n H) as (w1 & w2 & w3 & -> & H1 & L1 & H2 & H3 & L3).
  rewrite !token_text_app, (token_text_digits w1 H1), (token_text_digits w3 H3).
  assert (Hne : w1 <> "") by (destruct w1; simpl in L1; [lia | discriminate]).
  assert (Hd1 : sforall digit_or_dot w1 = true)
    by (eapply sforall_impl; [apply digit_is_digit_or_dot | exact H1]).
  assert (Hd3 : sforall digit_or_dot w3 = true)
    by (eapply sforall_impl; [apply digit_is_digit_or_dot | exact H3]).
  assert (Hcase : token_text w2 = "" \/ token_text w2 = ".")
    by (destruct H2 as [-> | [-> | [-> | ->]]]; vm_compute; auto).
  destruct Hcase as [-> | ->].
  - simpl. set (s := w1 +:+ w3).
    assert (Hs : sforall digit_or_dot s = true) by (unfold s; now rewrite sforall_app, Hd1, Hd3).
    assert (Hf : is_Some (py_float s)).
    { unfold s. rewrite py_float_digits; [eauto | | now rewrite sforall_app, H1, H3].
      destruct w1; [congruence | discriminate]. }
    destruct Hf as [v Hv]. exists v. split; [exact Hv |].
    apply (py_float_digit_or_dot_range s v Hs Hv).
    unfold s. rewrite length_append. lia.
  - set (s := w1 +:+ "." +:+ w3).
    assert (Hs : sforall digit_or_dot s = true)
      by (unfold s; now rewrite !sforall_app, Hd1, Hd3).
    assert (Hf : is_Some (py_float s)).
    { rewrite (py_float_digit_or_dot s Hs). unfold s.
      destruct (parse_decimal_point w1 w3 Hne H1 H3) as [q ->]. simpl. eauto. }
    destruct Hf as [v Hv]. exists v. split; [exact Hv |].
    apply (py_float_digit_or_dot_range s v Hs Hv).
    unfold s. rewrite !length_append. simpl. lia.
Qed.

Lemma gt_fifty (v : pyfloat) : finite_nonneg v -> gt v (of_Z 50) = true -> figure v.
Proof.
  intros (q & -> & _). replace (of_Z 50) with (Fin 50) by (vm_compute; reflexivity).
  simpl. intros H. exists q. split; [reflexivity |].
  apply negb_true_iff in H. apply Qnot_le_lt. intros Hle.
  apply Qle_bool_iff in Hle. congruence.
Qed.

Lemma qualifying_values_figure text v : v ∈ qualifying_values text -> figure v.
Proof.
  unfold qualifying_values. intros H.
  apply list_elem_of_omap in H as (n & Hn & Hv).
  destruct (number_token_read text n Hn) as (v' & Hf & Hfin).
  unfold qualifying_value in Hv. fold (token_text n) in Hv. rewrite Hf in Hv.
  destruct (gt v' (of_Z 50)) eqn:E; [| discriminate]. injection Hv as <-.
  now apply gt_fifty.
Qed.

End TokenFacts.

Module FinancialTokenFacts.
Import Py Re ReSem PyNum Spec Props StringFacts ReFacts ScanFacts NumFacts CleanNumberFacts
       FinancialFacts TextFacts TokenFacts DebitNote.

(** Every token has the form of a numeric token and a value, which [float]
    reads from it. *)
Lemma token_values (text : string) :
  exists values,
    Forall2 (fun n v => number_token n /\ py_float (token_text n) = Some v /\ finite_nonneg v)
            (findall number_pattern text) values.
Proof.
  assert (H : forall n, n ∈ findall number_pattern text ->
                exists v, number_token n /\ py_float (token_text n) = Some v
                          /\ finite_nonneg v).
  { intros n Hn. destruct (number_token_read text n Hn) as (v & Hv & Hfin).
    exists v. split; [exact (number_token_shape text n Hn) | auto]. }
  induction (findall number_pattern text) as [|n l IH]; [exists []; constructor |].
  destruct (H n (list_elem_of_here _ _)) as [v Hv].
  destruct IH as [vs Hvs]; [intros n' Hn'; apply H; now apply list_elem_of_further |].
  exists (v :: vs). now constructor.
Qed.

(** The values that the loop keeps are the values of the tokens that exceed
    the floor, in the order of the tokens. *)
Lemma qualifying_values_filter (tokens : list string) (values : list pyfloat) :
  Forall2 (fun n v => number_token n /\ py_float (token_text n) = Some v /\ finite_nonneg v)
          tokens values ->
  omap qualifying_value tokens = filter above_floor values.
Proof.
  induction 1 as [|n v tokens values (_ & Hv & _) _ IH]; [reflexivity |].
  cbn [omap list_omap]. unfold qualifying_value at 1. fold (token_text n). rewrite Hv.
  destruct (gt v (of_Z 50)) eqn:E.
  - rewrite filter_cons_True by exact E. now rewrite <- IH.
  - rewrite filter_cons_False by (unfold above_floor; congruence). exact IH.
Qed.

(** C3, amended.  The numeric tokens of a text are the matches of the
    number pattern, taken from left to right without overlap; each is two
    to four digits, at most one separator (a point, a comma or a blank) and
    at most two more digits, so that a token can join two numbers of the
    text, and [float] reads from each, once its blanks are removed and its
    commas turned into points, a finite value that is not negative.  The
    qualifying values are the values above 50, in the order of the tokens.
    Without the "GROSS PREMIUM" label, or with fewer than five qualifying
    values, the extractor returns the empty list; with the label and at
    least five of them it returns one line item for each detected copy
    label, a single "manager" item when none is detected, and the five
    figures of every item are the last five qualifying values in order. *)
Theorem extract_manager_financials_by_tokens (text : string) :
  exists values,
    Forall2 (fun n v => number_token n /\ py_float (token_text n) = Some v /\ finite_nonneg v)
            (findall number_pattern text) values
    /\ (search gross_premium_pattern text = None -> extract_manager_financials text = Ok [])
    /\ (length (filter above_floor values) < 5 -> extract_manager_financials text = Ok [])
    /\ (forall pre a b c d e,
          is_Some (search gross_premium_pattern text) ->
          filter above_floor values = pre ++ [a; b; c; d; e] ->
          exists results,
            extract_manager_financials text = Ok results
            /\ NoDup results
            /\ (forall r, r ∈ results ->
                  gross_premium r = a /\ commission r = b /\ overriding_insurer r = c
                  /\ cost r = d /\ profit r = e)
            /\ (detect_copy_types text = ∅ ->
                results = [mk_financial a b c d e "manager"])
            /\ (detect_copy_types text <> ∅ ->
                length results = size (detect_copy_types text)
                /\ forall l, l ∈ detect_copy_types text
                             <-> mk_financial a b c d e l ∈ results)).
Proof.
  destruct (token_values text) as [values Hvalues]. exists values.
  assert (Hq : qualifying_values text = filter above_floor values)
    by (unfold qualifying_values; now apply qualifying_values_filter).
  destruct (extract_manager_financials_last_five text) as [Hfew Hfive].
  rewrite Hq in Hfew, Hfive.
  split; [exact Hvalues |]. split; [| split; [exact Hfew | exact Hfive]].
  intros Hnone. unfold extract_manager_financials. now rewrite Hnone.
Qed.

Lemma extract_manager_financials_by_tokens_witness :
  exists results,
    extract_manager_financials text_five_above = Ok results
    /\ length results = 1
    /\ forall r, r ∈ results ->
         gross_premium r = Fin 1000 /\ commission r = Fin 200
         /\ overriding_insurer r = Fin 150 /\ cost r = Fin 130 /\ profit r = Fin 120.
Proof.
  destruct (extract_manager_financials_by_tokens text_five_above)
    as (values & Hv & _ & _ & Hfive).
  assert (E : findall number_pattern text_five_above
              = ["1000 "; "200 "; "150 "; "130 "; "120 "]) by (vm_compute; reflexivity).
  rewrite E in Hv.
  assert (Hvalues : values = [Fin 1000; Fin 200; Fin 150; Fin 130; Fin 120]).
  { repeat match goal with
           | H : Forall2 _ (_ :: _) _ |- _ =>
               apply Forall2_cons_inv_l in H as (? & ? & (_ & ? & _) & H & ->)
           | H : Forall2 _ [] _ |- _ => apply Forall2_nil_inv_l in H as ->
           end.
    repeat match goal with
           | H : py_float _ = Some _ |- _ => vm_compute in H; injection H as <-
           end.
    reflexivity. }
  subst values.
  destruct (Hfive [] (Fin 1000) (Fin 200) (Fin 150) (Fin 130) (Fin 120))
    as (results & Hr & _ & Hf & _ & Hsome).
  - eexists. vm_compute. reflexivity.
  - vm_compute. reflexivity.
  - exists results. split; [exact Hr |]. split; [| exact Hf].
    assert (Hd : detect_copy_types text_five_above = {[ "manager" ]})
      by (vm_compute; reflexivity).
    destruct Hsome as [Hlen _]; [rewrite Hd; apply non_empty_singleton_L |].
    rewrite Hlen, Hd. apply size_singleton.
Defined.

(** C3, as the spec words it, fails: the text has the label and five
    numbers above the floor, 1000, 200, 51, 52 and 120, but "200 51" is one
    token, of value 20051, so that four values qualify and the result is
    the empty list. *)
Lemma joined_numbers_yield_no_record :
  is_Some (search gross_premium_pattern text_joined_numbers)
  /\ omap py_float (split_ws text_joined_numbers)
     = [of_Z 1000; of_Z 200; of_Z 51; of_Z 52; of_Z 120]
  /\ Forall above_floor [of_Z 1000; of_Z 200; of_Z 51; of_Z 52; of_Z 120]
  /\ findall number_pattern text_joined_numbers = ["1000 "; "200 51"; "52 "; "120"]
  /\ omap (fun n => py_float (token_text n)) (findall number_pattern text_joined_numbers)
     = [of_Z 1000; of_Z 20051; of_Z 52; of_Z 120]
  /\ extract_manager_financials text_joined_numbers = Ok [].
Proof.
  split; [eexists; vm_compute; reflexivity |].
  split; [vm_compute; reflexivity |].
  split; [repeat constructor |].
  repeat split; vm_compute; reflexivity.
Qed.

End FinancialTokenFacts.

Module DebitNoteFacts.
Import Py Re ReSem PyNum Spec Props StringFacts ReFacts ScanFacts NumFacts CleanNumberFacts
       CleanMoneyFacts DateFacts FinancialFacts ParserFacts TextFacts CompleteFacts
       FigureFacts TokenFacts DebitNote.

(** X2.  [extract_manager_financials] returns for every text, with at most
    four line items, one for each copy label found; the category of an item
    is one of "manager", "agent", "account" and "file", no two items share a
    category, and each of the five figures of an item is a finite number
    above 50. *)
Theorem extract_manager_financials_figures (text : string) :
  exists results,
    extract_manager_financials text = Ok results
    /\ length results <= 4
    /\ NoDup (map category results)
    /\ forall r, r ∈ results ->
         category r ∈ copy_labels
         /\ figure (gross_premium r) /\ figure (commission r)
         /\ figure (overriding_insurer r) /\ figure (cost r) /\ figure (profit r).
Proof.
  unfold extract_manager_financials.
  destruct (search gross_premium_pattern text) as [m0|].
  2: { exists []. split; [reflexivity |]. split; [simpl; lia |]. split; [simpl; constructor | intros x Hx; inversion Hx]. }
  destruct (Nat.ltb_spec (length (qualifying_values text)) 5).
  { exists []. split; [reflexivity |]. split; [simpl; lia |]. split; [simpl; constructor | intros x Hx; inversion Hx]. }
  destruct (from_end_ok 5 (qualifying_values text)) as [a Ea]; [lia.. |].
  destruct (from_end_ok 4 (qualifying_values text)) as [b Eb]; [lia.. |].
  destruct (from_end_ok 3 (qualifying_values text)) as [c Ec]; [lia.. |].
  destruct (from_end_ok 2 (qualifying_values text)) as [d Ed]; [lia.. |].
  destruct (from_end_ok 1 (qualifying_values text)) as [e Ee]; [lia.. |].
  rewrite Ea, Eb, Ec, Ed, Ee. simpl.
  set (S := if decide (detect_copy_types text = ∅) then {[ "manager" ]}
            else detect_copy_types text).
  assert (HS : forall l, l ∈ S -> l ∈ copy_labels).
  { intros l. unfold S. destruct (decide _).
    - intros Hl. apply elem_of_singleton in Hl as ->. unfold copy_labels. set_solver.
    - apply detect_copy_types_labels. }
  assert (Hsize : size S <= 4).
  { unfold S. destruct (decide _); [rewrite size_singleton; lia | apply detect_copy_types_size]. }
  eexists. split; [reflexivity |]. split; [| split].
  - rewrite length_map. exact Hsize.
  - rewrite map_map. simpl. rewrite map_id. apply NoDup_elements.
  - intros r Hr. apply list_elem_of_fmap in Hr as (l & -> & Hl). simpl.
    apply elem_of_elements in Hl.
    split; [now apply HS |].
    repeat split; eapply qualifying_values_figure, from_end_elem; eauto.
Qed.

(** X3.  [float] reads every token that the number pattern finds in a text,
    and reads it as a finite number that is not negative: the [except]
    branch of the loop is never taken, and a token is passed over exactly
    when its value is at most 50. *)
Theorem number_tokens_always_read (text n : string) :
  n ∈ findall number_pattern text ->
  exists q,
    py_float (token_text n) = Some (Fin q) /\ (0 <= q)%Q
    /\ qualifying_value n = (if Qle_bool q 50 then None else Some (Fin q)).
Proof.
  intros Hn. destruct (number_token_read text n Hn) as (v & Hf & q & -> & Hq).
  exists q. split; [exact Hf |]. split; [exact Hq |].
  unfold qualifying_value. fold (token_text n). rewrite Hf.
  replace (of_Z 50) with (Fin 50) by (vm_compute; reflexivity).
  simpl. destruct (Qle_bool q 50); reflexivity.
Qed.

Lemma number_tokens_always_read_witness :
  "40" ∈ findall number_pattern "GROSS PREMIUM 40"
  /\ exists q,
       py_float (token_text "40") = Some (Fin q) /\ (0 <= q)%Q
       /\ qualifying_value "40" = (if Qle_bool q 50 then None else Some (Fin q)).
Proof.
  assert (H : "40" ∈ findall number_pattern "GROSS PREMIUM 40")
    by (apply list_elem_of_In; vm_compute; auto).
  split; [exact H |].
  exact (number_tokens_always_read "GROSS PREMIUM 40" "40" H).
Defined.

(** A label is in the set that [detect_copy_types] returns exactly when
    the pattern of the label is found in the text; the set holds none but
    the four labels. *)
Lemma detect_copy_types_spec (text : string) :
  (forall l, l ∈ detect_copy_types text
             <-> exists pat, (l, pat) ∈ copy_patterns /\ is_Some (search pat text))
  /\ detect_copy_types text ⊆ list_to_set copy_labels.
Proof.
  split.
  - intros l. apply detect_copy_types_elem.
  - intros l Hl. apply elem_of_list_to_set. now apply (detect_copy_types_labels text).
Qed.

Lemma lower_e_EA c : lower_char c = "e"%char -> ci_class (one_of "EA") c = true.
Proof. destruct c as [[] [] [] [] [] [] [] []]; vm_compute; intros; first [reflexivity | discriminate]. Qed.

Lemma lower_o_O0 c : lower_char c = "o"%char -> ci_class (one_of "O0") c = true.
Proof. destruct c as [[] [] [] [] [] [] [] []]; vm_compute; intros; first [reflexivity | discriminate]. Qed.

Lemma lower_y_YV c : lower_char c = "y"%char -> ci_class (one_of "YV") c = true.
Proof. destruct c as [[] [] [] [] [] [] [] []]; vm_compute; intros; first [reflexivity | discriminate]. Qed.

Lemma lower_blank_space c : lower_char c = " "%char -> is_space c = true.
Proof. destruct c as [[] [] [] [] [] [] [] []]; vm_compute; intros; first [reflexivity | discriminate]. Qed.

(** The characters of a text whose lower-case form is known. *)
Ltac chars_of H :=
  repeat match type of H with
         | smap _ ?w = String _ _ =>
             destruct w as [|? w]; [discriminate H |]; simpl in H; injection H as ? H
         | smap _ ?w = EmptyString =>
             destruct w; [clear H | discriminate H]
         end.

Ltac class_goal :=
  first [ assumption
        | apply lower_e_EA; assumption
        | apply lower_o_O0; assumption
        | apply lower_y_YV; assumption
        | apply lower_blank_space; assumption
        | unfold ci;
          match goal with
          | H : lower_char ?c = _ |- context [lower_char ?c] => rewrite H
          end; reflexivity ].

(** A match that reads the subject character by character. *)
Ltac build_match :=
  lazymatch goal with
  | |- Matches (Cat _ _) _ _ _ _ => eapply M_Cat; [build_match | build_match]
  | |- Matches (Chr _) _ _ _ _ => apply M_Chr; class_goal
  | |- Matches (Rep _ _ _ _) (?prev, String ?a ?s) ?g _ _ =>
      apply (M_Rep _ _ _ _ prev (String a "") s g);
      [simpl; rewrite andb_true_r; class_goal | simpl; lia | intros ? ?; discriminate]
  end.

Lemma copy_label_found (text pre w post l : string) (pat : regex) :
  (l, pat) ∈ copy_patterns -> text = pre +:+ w +:+ post ->
  (exists c' g', Matches pat (prev_after None pre, w +:+ post) [] c' g') ->
  look_free pat = true ->
  l ∈ detect_copy_types text.
Proof.
  intros Hin -> (c' & g' & M) Hlf. apply detect_copy_types_elem. exists pat.
  split; [exact Hin |]. unfold search. eapply search_from_complete; eauto.
Qed.

(** X4.  A text that holds one of the four labels followed by a blank and
    "copy", in any mixture of capitals and small letters, has the label in
    the set of [detect_copy_types]. *)
Theorem detect_copy_types_finds_label (text pre w post l : string) :
  l ∈ copy_labels -> text = pre +:+ w +:+ post -> lower w = l +:+ " copy" ->
  l ∈ detect_copy_types text.
Proof.
  intros Hl Ht Hw. unfold copy_labels in Hl. unfold lower in Hw.
  repeat (apply elem_of_cons in Hl as [-> | Hl]); [| | | | inversion Hl];
    simpl in Hw; chars_of Hw.
  - eapply (copy_label_found _ pre _ post "manager"
              (cats ([ilit "MANAG"; Chr (ci_class (one_of "EA")); Chr (ci "R")] ++ copy_suffix)));
      [| exact Ht | | reflexivity].
    + unfold copy_patterns. set_solver.
    + eexists _, _. cbn [app cats copy_suffix ilit star String.append]. unfold star. build_match.
  - eapply (copy_label_found _ pre _ post "agent" (cats (ilit "AGENT" :: copy_suffix)));
      [| exact Ht | | reflexivity].
    + unfold copy_patterns. set_solver.
    + eexists _, _. cbn [app cats copy_suffix ilit star String.append]. unfold star. build_match.
  - eapply (copy_label_found _ pre _ post "account" (cats (ilit "ACCOUNT" :: copy_suffix)));
      [| exact Ht | | reflexivity].
    + unfold copy_patterns. set_solver.
    + eexists _, _. cbn [app cats copy_suffix ilit star String.append]. unfold star. build_match.
  - eapply (copy_label_found _ pre _ post "file" (cats (ilit "FILE" :: copy_suffix)));
      [| exact Ht | | reflexivity].
    + unfold copy_patterns. set_solver.
    + eexists _, _. cbn [app cats copy_suffix ilit star String.append]. unfold star. build_match.
Qed.

Lemma detect_copy_types_finds_label_witness :
  "agent" ∈ detect_copy_types "Debit note - Agent Copy - page 1".
Proof.
  apply (detect_copy_types_finds_label _ "Debit note - " "Agent Copy" " - page 1" "agent").
  - unfold copy_labels. set_solver.
  - reflexivity.
  - reflexivity.
Defined.

End DebitNoteFacts.

(* ===================================================================== *)
(** ** The debit note: header fields *)
(* ===================================================================== *)

Module HeaderFacts.
Import Py Re ReSem PyNum Spec Props StringFacts ReFacts ScanFacts NumFacts CleanNumberFacts
       CleanMoneyFacts DateFacts FinancialFacts ParserFacts TextFacts CompleteFacts DebitNote.

Lemma no_run_empty n p : 0 < n -> ~ has_run n p "".
Proof.
  intros Hn (pre & w & post & H & Hl & _).
  apply (f_equal String.length) in H. rewrite !length_append in H. simpl in H. lia.
Qed.

(** The base account number that [clean_account_number] finds. *)
Lemma base_account_group (s : string) (m : rmatch) :
  search base_account_pattern s = Some m ->
  6 <= String.length (group 1 m) <= 10 /\ sforall AZ09 (group 1 m) = true.
Proof.
  intros H. apply search_from_sound in H as (pre & w & _ & M & _).
  unfold base_account_pattern, cats, between, star in M.
  inversion M as [| | ? ? ? ? c1 g1 ? ? M1 M2 | | | | | | | | | | |]; subst.
  inversion M2 as [| | ? ? ? ? c2 g2 ? ? M3 M4 | | | | | | | | | | |]; subst.
  apply Grp_reads in M1 as (b & g0 & Hb & -> & M1).
  inversion M1; subst. inversion M3; subst.
  match goal with
  | Hw : ?w0 +:+ _ +:+ _ = w +:+ _ |- _ =>
      simpl in Hb; rewrite <- Hw in Hb; apply append_inv_tail in Hb; subst b
  end.
  assert (Hg : group 1 m = w0).
  { unfold group. inversion M4; subst.
    - match goal with
      | M5 : Matches (Grp 2 _) _ _ _ _ |- _ =>
          apply Grp_reads in M5 as (x & g0 & _ & Hc & M6)
      end.
      rewrite Hc. cbn [cap_get Nat.eqb]. unfold lit in M6. invert_match. reflexivity.
    - reflexivity. }
  rewrite Hg.
  match goal with Hhi : forall h, Some 10 = Some h -> _ |- _ => specialize (Hhi 10 eq_refl) end.
  auto.
Qed.

(** Where six characters of the class stand together, the pattern of the
    base account number matches. *)
Lemma base_account_found (s : string) :
  has_run 6 AZ09 s -> is_Some (search base_account_pattern s).
Proof.
  intros (pre & w & post & -> & Hl & Hw). unfold search.
  eapply search_from_complete; [| reflexivity].
  unfold base_account_pattern, cats, between, star.
  eapply M_Cat; [apply M_Grp, (M_Rep true 6 (Some 10) AZ09 _ w post []) |].
  - exact Hw.
  - lia.
  - intros h [= <-]. lia.
  - eapply M_Cat; [apply (M_Rep true 0 None is_space _ "" post) | apply M_OptSkip].
    + reflexivity.
    + simpl. lia.
    + intros h Hh. discriminate.
Qed.

Lemma clean_account_number_cases (acc : string) :
  (exists base,
     clean_account_number acc = base +:+ " (T01)"
     /\ 6 <= String.length base <= 10 /\ sforall AZ09 base = true)
  \/ ~ has_run 6 AZ09 (clean_account_number acc).
Proof.
  unfold clean_account_number. destruct (is_empty acc).
  { right. apply no_run_empty. lia. }
  set (s := sub t01_pattern "(T01)" _).
  destruct (search base_account_pattern s) as [m|] eqn:E.
  - left. exists (group 1 m). split; [reflexivity |]. now apply (base_account_group s).
  - right. intros Hrun. apply base_account_found in Hrun as [m Hm]. congruence.
Qed.

(** X5.  What [clean_account_number] returns is either a base of six to
    ten capital letters and digits followed by " (T01)", the suffix being
    added whether or not the text had it, or a text without six capital
    letters or digits in a row, the empty text among them.  This holds for
    the account number of every debit note record. *)
Theorem clean_account_number_shape :
  (forall acc,
     (exists base,
        clean_account_number acc = base +:+ " (T01)"
        /\ 6 <= String.length base <= 10 /\ sforall AZ09 base = true)
     \/ ~ has_run 6 AZ09 (clean_account_number acc))
  /\ (forall raw_text default d,
        parse_debit_note_text raw_text default = Ok d ->
        (exists base,
           account_number d = base +:+ " (T01)"
           /\ 6 <= String.length base <= 10 /\ sforall AZ09 base = true)
        \/ ~ has_run 6 AZ09 (account_number d)).
Proof.
  split; [exact clean_account_number_cases |].
  intros raw_text default d. unfold parse_debit_note_text.
  destruct (extract_manager_financials _) as [l|]; [| discriminate].
  simpl. intros [= <-]. simpl. apply clean_account_number_cases.
Qed.

Lemma code_class c : ci_class (either AZ09 (is_char "-")) c = true -> code_char c = true.
Proof. destruct c as [[] [] [] [] [] [] [] []]; vm_compute; intros; first [reflexivity | discriminate]. Qed.

Lemma code_char_not_space c : code_char c = true -> neg is_space c = true.
Proof. destruct c as [[] [] [] [] [] [] [] []]; vm_compute; intros; first [reflexivity | discriminate]. Qed.

(** X6.  The policy number of a debit note is empty, or a text of at least
    ten characters, each a letter, a digit or a hyphen. *)
Theorem extract_policy_number_shape (text : string) :
  extract_policy_number text = ""
  \/ (10 <= String.length (extract_policy_number text)
      /\ sforall code_char (extract_policy_number text) = true).
Proof.
  unfold extract_policy_number, extract_first.
  destruct (search policy_number_pattern text) as [m|] eqn:E; [| now left].
  right. apply search_from_sound in E as (pre & w & _ & M & _).
  unfold policy_number_pattern in M. cbn [cats ilit opt_chr star plus] in M.
  invert_outer.
  match goal with
  | M4 : Matches (Grp 1 _) _ _ _ _ |- _ =>
      apply Grp_reads in M4 as (p & gs & Hp & Hcaps & M5)
  end.
  unfold group. rewrite Hcaps. cbn [cap_get Nat.eqb].
  inversion M5; subst. group_text Hp. subst p.
  match goal with
  | Hc : sforall (ci_class (either AZ09 (is_char "-"))) ?w = true |- _ =>
      assert (Hcode : sforall code_char w = true)
        by (eapply sforall_impl; [apply code_class | exact Hc])
  end.
  unfold strip. rewrite strip_by_none
    by (eapply sforall_impl; [apply code_char_not_space | exact Hcode]).
  auto.
Qed.

(** X7.  The insured name of a debit note holds capital letters and blanks
    only, has at most 40 characters, and neither starts nor ends with a
    blank. *)
Theorem extract_insured_or_agent_shape (text : string) :
  sforall capital_or_blank (extract_insured_or_agent text) = true
  /\ String.length (extract_insured_or_agent text) <= 40
  /\ strip (extract_insured_or_agent text) = extract_insured_or_agent text.
Proof.
  unfold extract_insured_or_agent.
  destruct (search insured_pattern text) as [m|] eqn:E; [| repeat split; simpl; lia].
  apply search_from_sound in E as (pre & w & _ & M & _).
  unfold insured_pattern, cats, between in M.
  inversion M as [| | ? ? ? ? c1 g1 ? ? M1 M2 | | | | | | | | | | |]; subst.
  inversion M2 as [| | ? ? ? ? c2 g2 ? ? M3 M4 | | | | | | | | | | |]; subst.
  apply Grp_reads in M4 as (p & gs & Hp & Hcaps & M5).
  unfold group. rewrite Hcaps. cbn [cap_get Nat.eqb].
  inversion M5; subst. group_text Hp. subst p.
  match goal with Hhi : forall h, Some 40 = Some h -> _ |- _ => specialize (Hhi 40 eq_refl) end.
  set (name := strip w0).
  assert (H1 : sforall capital_or_blank name = true) by (now apply sforall_strip_by).
  assert (L1 : String.length name <= 40)
    by (etransitivity; [apply length_strip_by | assumption]).
  assert (H2 : sforall capital_or_blank (split_head address_stop_pattern name) = true).
  { unfold split_head. destruct (search _ name); [now apply sforall_stake | exact H1]. }
  assert (L2 : String.length (split_head address_stop_pattern name) <= 40).
  { unfold split_head. destruct (search _ name); [| exact L1].
    etransitivity; [apply length_stake | exact L1]. }
  split; [now apply sforall_strip_by |].
  split; [etransitivity; [apply length_strip_by | exact L2] |].
  apply strip_by_idem.
Qed.

End HeaderFacts.

Module EndorsementFacts.
Import Py Re ReSem PyNum Spec Props StringFacts ReFacts ScanFacts NumFacts CleanNumberFacts
       CleanMoneyFacts EntriesFacts DateFacts TextFacts DebitNote.

(** *** Texts kept within a class *)

Lemma sub_from_class p r (repl : string) :
  sforall p repl = true ->
  forall fuel s prev, sforall p s = true -> sforall p (sub_from fuel r repl prev s) = true.
Proof.
  intros Hrepl. induction fuel as [|fuel IH]; intros s prev Hs; [exact Hs |].
  cbn [sub_from]. destruct (search_from r prev s 0) as [m|] eqn:E; [| exact Hs].
  apply search_from_sound in E as (pre & w & Hsplit & _ & Hw & Hstart & _).
  rewrite Hsplit in Hs. rewrite !sforall_app in Hs.
  apply andb_true_iff in Hs as [Hpre Hs]. apply andb_true_iff in Hs as [_ Hrest].
  assert (Hst : stake (m_start m) s = pre).
  { rewrite Hstart, Hsplit. simpl. apply stake_app. }
  rewrite Hst, !sforall_app, Hpre, Hrepl. cbn [andb].
  destruct (m_group0 m).
  - destruct (snd (m_rest m)) as [|a s']; [reflexivity |].
    cbn [sforall] in *. apply andb_true_iff in Hrest as [Ha Hs']. rewrite Ha. now apply IH.
  - now apply IH.
Qed.

(** *** The month rule *)

Lemma month_alternatives prev s g c' g' :
  Matches (alts (map lit month_codes)) (prev, s) g c' g' ->
  forall mon, s = mon +:+ snd c' -> mon ∈ month_codes.
Proof.
  cbn [month_codes map alts lit]. intros M.
  repeat match goal with
         | H : Matches (Alt _ _) _ _ _ _ |- _ => inversion H; subst; clear H
         end;
    invert_match; intros mon Hmon; cbn [snd] in Hmon;
    repeat match goal with
           | H : is_char _ ?a = true |- _ => apply Ascii.eqb_eq in H; subst a
           end;
    match type of Hmon with
    | String ?a (String ?b (String ?c ?t)) = _ =>
        change (String a (String b (String c t)))
          with (String a (String b (String c "")) +:+ t) in Hmon
    end;
    apply append_inv_tail in Hmon; subst mon;
    apply list_elem_of_In; vm_compute; tauto.
Qed.

Lemma month_groups (s : string) (m : rmatch) :
  rematch month_suffix_pattern s = Some m ->
  group 1 m ∈ month_codes
  /\ String.length (group 2 m) <= 1 /\ sforall is_AZ (group 2 m) = true
  /\ 1 <= String.length (group 3 m) <= 4 /\ sforall is_digit (group 3 m) = true.
Proof.
  unfold rematch. intros H. apply match_at_sound in H as (w & _ & M & _).
  unfold month_suffix_pattern in M. cbn [cats] in M.
  unfold opt_chr, between in M.
  destruct (m_rest m) as [prev' rest'].
  inversion M as [| | ? ? ? ? c1 g1 ? ? M1 M2 | | | | | | | | | | |]; subst.
  inversion M2 as [| | ? ? ? ? c2 g2 ? ? M3 M4 | | | | | | | | | | |]; subst.
  apply Grp_reads in M1 as (mon & gs1 & Hmon & -> & M1).
  apply Grp_reads in M3 as (l & gs2 & Hl & -> & M3).
  apply Grp_reads in M4 as (d & gs3 & Hd & Hcaps & M4).
  cbn [snd] in Hmon.
  pose proof (month_alternatives _ _ _ _ _ M1 mon Hmon) as Hm.
  clear M1 Hmon.
  inversion M4; subst. inversion M3; subst.
  unfold group. rewrite Hcaps. cbn [cap_get Nat.eqb].
  cbn [snd] in Hl, Hd.
  apply append_inv_tail in Hl. apply append_inv_tail in Hd. subst l d.
  match goal with
  | H1 : forall h, Some 1 = Some h -> _, H4 : forall h, Some 4 = Some h -> _ |- _ =>
      specialize (H1 1 eq_refl); specialize (H4 4 eq_refl)
  end.
  repeat split; auto; lia.
Qed.

Lemma no_hyphen_pair (b : string) :
  sforall (fun c => negb (is_char "-" c)) b = true -> contains "--" b = false.
Proof.
  induction b as [|c b IH]; [reflexivity |].
  cbn [sforall]. intros H. apply andb_true_iff in H as [Hc Hb].
  cbn [contains starts_with]. rewrite (IH Hb), orb_false_r.
  unfold is_char in Hc. apply negb_true_iff in Hc. rewrite Hc. reflexivity.
Qed.

Lemma one_hyphen (a b : string) :
  sforall (fun c => negb (is_char "-" c)) a = true ->
  sforall (fun c => negb (is_char "-" c)) b = true ->
  contains "--" (a +:+ "-" +:+ b) = false.
Proof.
  intros Ha Hb. change ("-" +:+ b) with (String "-"%char b).
  induction a as [|c a IH].
  - simpl String.append. cbn [contains starts_with].
    rewrite (no_hyphen_pair b Hb), orb_false_r.
    destruct b as [|x b]; [reflexivity |].
    cbn [sforall] in Hb. apply andb_true_iff in Hb as [Hx _].
    unfold is_char in Hx. apply negb_true_iff in Hx.
    cbn [starts_with]. rewrite Hx. reflexivity.
  - cbn [sforall] in Ha. apply andb_true_iff in Ha as [Hc Ha].
    simpl String.append. cbn [contains starts_with]. rewrite (IH Ha), orb_false_r.
    unfold is_char in Hc. apply negb_true_iff in Hc. rewrite Hc. reflexivity.
Qed.

Lemma capital_not_hyphen c : is_AZ c = true -> negb (is_char "-" c) = true.
Proof. destruct c as [[] [] [] [] [] [] [] []]; vm_compute; intros; first [reflexivity | discriminate]. Qed.

Lemma digit_not_hyphen c : is_digit c = true -> negb (is_char "-" c) = true.
Proof. destruct c as [[] [] [] [] [] [] [] []]; vm_compute; intros; first [reflexivity | discriminate]. Qed.

Lemma month_no_hyphen (mon : string) :
  mon ∈ month_codes -> sforall (fun c => negb (is_char "-" c)) mon = true.
Proof.
  intros H. apply list_elem_of_In in H. simpl in H.
  repeat (destruct H as [<- | H]; [reflexivity |]). destruct H.
Qed.

(** The text the month rule writes is left as it is by the last
    replacement, which finds no pair of hyphens in it. *)
Lemma month_text_kept (mon l d : string) :
  mon ∈ month_codes -> sforall is_AZ l = true -> sforall is_digit d = true ->
  replace "--" "-" (mon +:+ "-" +:+ l +:+ d) = mon +:+ "-" +:+ l +:+ d.
Proof.
  intros Hm Hl Hd. apply replace_absent; [discriminate |].
  apply one_hyphen; [now apply month_no_hyphen |].
  rewrite sforall_app. apply andb_true_iff. split.
  - eapply sforall_impl; [| exact Hl]. apply capital_not_hyphen.
  - eapply sforall_impl; [| exact Hd]. apply digit_not_hyphen.
Qed.

(** X8.  The cleaned endorsement number is either a month abbreviation, a
    hyphen, at most one capital letter and one to four digits, whatever
    followed them in the raw text being dropped; or a text without white
    space or underscore to which the month rule does not apply. *)
Theorem clean_endorsement_number_shape (raw : string) :
  month_reference (clean_endorsement_number raw)
  \/ (sforall joined (clean_endorsement_number raw) = true
      /\ rematch month_suffix_pattern (clean_endorsement_number raw) = None).
Proof.
  unfold clean_endorsement_number.
  destruct (is_empty raw); [right; split; reflexivity |].
  set (cut := split_head endorsement_stop_pattern (upper raw)).
  set (tidy := replace "RNOV" "NOV" (replace "TNO" "NOV" (replace "TNOV" "NOV"
                 (sub (plus (is_char "-")) "-"
                    (sub (plus (either is_space (is_char "_"))) "" cut))))).
  destruct (rematch month_suffix_pattern tidy) as [m|] eqn:E.
  - left. destruct (month_groups tidy m E) as (Hm & Hl1 & Hl2 & Hd1 & Hd2).
    rewrite month_text_kept by assumption.
    exists (group 1 m), (group 2 m), (group 3 m). repeat split; auto; lia.
  - right. split; [| exact E]. unfold tidy.
    repeat (apply replace_class; [discriminate | reflexivity |]).
    apply sub_from_class; [reflexivity |].
    rewrite sub_plus. apply sforall_sfilter. intros c Hc. exact Hc.
Qed.

End EndorsementFacts.

Module ClassFacts.
Import Py Re ReSem PyNum Spec Props StringFacts ReFacts ScanFacts NumFacts CleanNumberFacts
       CleanMoneyFacts EntriesFacts DateFacts TextFacts DebitNote.

Lemma class_code_fixed c :
  ci_class (either is_digit (one_of "OQ")) c = true ->
  class_code_char (swap_char "Q" "0" (swap_char "O" "0" c)) = true.
Proof. destruct c as [[] [] [] [] [] [] [] []]; vm_compute; intros; first [reflexivity | discriminate]. Qed.

Lemma class_name_char c :
  ci_class (either is_AZ (is_char " ")) c = true -> capital_or_blank (upper_char c) = true.
Proof. destruct c as [[] [] [] [] [] [] [] []]; vm_compute; intros; first [reflexivity | discriminate]. Qed.

Lemma folded_letter_capital a c :
  is_AZ a = true -> ci a c = true -> capital_or_blank (upper_char c) = true.
Proof.
  destruct a as [[] [] [] [] [] [] [] []]; try discriminate; intros _;
    destruct c as [[] [] [] [] [] [] [] []]; vm_compute; intros;
    first [reflexivity | discriminate].
Qed.

(** The groups of the class pattern. *)
Lemma insurance_class_groups (text : string) (m : rmatch) :
  search insurance_class_pattern text = Some m ->
  2 <= String.length (group 1 m) <= 3
  /\ sforall (ci_class (either is_digit (one_of "OQ"))) (group 1 m) = true
  /\ sforall (fun c => capital_or_blank (upper_char c)) (group 2 m) = true.
Proof.
  intros H. apply search_from_sound in H as (pre & w & _ & M & _).
  unfold insurance_class_pattern in M. cbn [cats ilit] in M.
  unfold star, plus, opt_chr, between in M.
  destruct (m_rest m) as [prev' rest'].
  invert_outer.
  repeat match goal with
         | Mg : Matches (Grp _ _) _ _ _ _ |- _ =>
             let x := fresh "x" in let gs := fresh "gs" in
             let Hx := fresh "Hx" in let Hc := fresh "Hc" in let Mi := fresh "Mi" in
             apply Grp_reads in Mg as (x & gs & Hx & Hc & Mi)
         end.
  cbn [snd] in Hx0, Hx.
  inversion Mi0; subst.
  match goal with H : ?u +:+ ?t = x0 +:+ ?t |- _ => apply append_inv_tail in H; subst u end.
  clear Mi0.
  invert_match.
  match goal with
  | H : ?v +:+ String ?h (String ?e (String ?l (String ?p (String ?e' (String ?r rest')))))
        = x +:+ rest' |- _ =>
      change (String h (String e (String l (String p (String e' (String r rest'))))))
        with (String h (String e (String l (String p (String e' (String r "")))))
              +:+ rest') in H;
      rewrite <- append_assoc in H; apply append_inv_tail in H; subst x
  end.
  unfold group. rewrite Hc. cbn [cap_get Nat.eqb].
  match goal with H : forall h, Some 3 = Some h -> _ |- _ => specialize (H 3 eq_refl) end.
  split; [lia |]. split; [assumption |].
  rewrite sforall_app. cbn [sforall].
  repeat match goal with
         | H : ci ?l ?c = true |- _ =>
             rewrite (folded_letter_capital l c eq_refl H); clear H
         end.
  cbn [andb]. rewrite andb_true_r.
  eapply sforall_impl; [| eassumption]. apply class_name_char.
Qed.

Lemma capital_not_sharp c :
  capital_or_blank (upper_char c) = true -> (code c =? 223) = false.
Proof. destruct c as [[] [] [] [] [] [] [] []]; vm_compute; intros; first [reflexivity | discriminate]. Qed.

Lemma upper_capitals (s : string) :
  sforall (fun c => capital_or_blank (upper_char c)) s = true ->
  sforall capital_or_blank (upper s) = true.
Proof.
  induction s as [|c s IH]; [reflexivity |]. cbn [sforall upper].
  intros H. apply andb_true_iff in H as [Hc Hs].
  rewrite (capital_not_sharp c Hc). cbn [sforall]. now rewrite Hc, IH.
Qed.

Lemma replace_length_char (a b : ascii) (s : string) :
  String.length (replace (String a "") (String b "") s) = String.length s.
Proof. rewrite replace_char. apply length_smap. Qed.

(** X9.  The insurance class of a debit note is empty or a code, a blank
    and a name: the code has two or three characters, each a digit or a
    small o or q, and the name is made of capital letters and blanks. *)
Theorem extract_insurance_class_shape (text : string) :
  extract_insurance_class text = ""
  \/ exists code name,
       extract_insurance_class text = code +:+ " " +:+ name
       /\ 2 <= String.length code <= 3
       /\ sforall class_code_char code = true
       /\ sforall capital_or_blank name = true.
Proof.
  unfold extract_insurance_class.
  destruct (search insurance_class_pattern text) as [m|] eqn:E; [| now left].
  right. destruct (insurance_class_groups text m E) as (Hlen & Hcode & Hname).
  eexists _, _. split; [reflexivity |]. split; [| split].
  - now rewrite !replace_length_char.
  - rewrite !replace_char, !sforall_smap.
    eapply sforall_impl; [| exact Hcode]. apply class_code_fixed.
  - repeat (apply replace_class; [discriminate | reflexivity |]).
    now apply upper_capitals.
Qed.

End ClassFacts.

(* ===================================================================== *)
(** ** The debit note: blocks *)
(* ===================================================================== *)

Module BlockFacts.
Import Py Re Spec Props StringFacts TextFacts DebitNote.

Lemma copy_blocks_single (line : string) : copy_blocks [[line]].
Proof.
  split; [| constructor]. repeat constructor. discriminate.
Qed.

Lemma tail_snoc {A : Type} (l : list A) (x : A) :
  l <> [] -> tail (l ++ [x]) = tail l ++ [x].
Proof. destruct l; [congruence | reflexivity]. Qed.

Lemma copy_blocks_open (gs : list (list string)) (line : string) :
  gs <> [] -> copy_blocks gs -> copy_line line = true -> copy_blocks (gs ++ [[line]]).
Proof.
  intros Hne [Hb Ho] Hl. split.
  - apply Forall_app. split; [exact Hb |]. repeat constructor. discriminate.
  - rewrite tail_snoc by exact Hne. apply Forall_app. split; [exact Ho |].
    repeat constructor. exists line, []. auto.
Qed.

Lemma copy_blocks_extend (gs : list (list string)) (c : string) (cs : list string) (line : string) :
  copy_blocks (gs ++ [c :: cs]) -> copy_line line = false ->
  copy_blocks (gs ++ [(c :: cs) ++ [line]]).
Proof.
  intros [Hb Ho] Hl. apply Forall_app in Hb as [Hb Hc]. split.
  - apply Forall_app. split; [exact Hb |]. constructor; [| constructor].
    inversion Hc as [|? ? [_ Ht] _]; subst. split; [discriminate |].
    simpl in *. apply Forall_app. split; [exact Ht | repeat constructor; exact Hl].
  - destruct gs as [|g gs]; [constructor |].
    simpl in *. apply Forall_app in Ho as [Ho Hc']. apply Forall_app. split; [exact Ho |].
    constructor; [| constructor]. inversion Hc' as [|? ? (l & rest & E & Hcl) _]; subst.
    injection E as -> ->. exists l, (rest ++ [line]). auto.
Qed.

(** The blocks that are complete, with the block being read when it is not
    empty. *)
Lemma split_by_copy_step_blocks (groups : list (list string)) (current : list string)
    (line : string) :
  (current = [] -> groups = []) ->
  copy_blocks (groups ++ match current with [] => [] | _ :: _ => [current] end) ->
  exists groups' c' cs',
    split_by_copy_step (map (join line_feed) groups, current) line
    = (map (join line_feed) groups', c' :: cs')
    /\ concat groups' ++ c' :: cs' = (concat groups ++ current) ++ [line]
    /\ copy_blocks (groups' ++ [c' :: cs']).
Proof.
  intros Hinit Hcb. unfold split_by_copy_step. fold (copy_line line).
  destruct (copy_line line) eqn:Hl; destruct current as [|c cs].
  - rewrite (Hinit eq_refl). exists [], line, []. simpl.
    split; [reflexivity |]. split; [reflexivity |]. apply copy_blocks_single.
  - exists (groups ++ [c :: cs]), line, []. split; [| split].
    + now rewrite map_app.
    + rewrite concat_app. simpl. now rewrite app_nil_r, <- app_assoc.
    + apply copy_blocks_open; [intros E; destruct groups; discriminate | exact Hcb | exact Hl].
  - rewrite (Hinit eq_refl). exists [], line, []. simpl.
    split; [reflexivity |]. split; [reflexivity |]. apply copy_blocks_single.
  - exists groups, c, (cs ++ [line]). split; [reflexivity |]. split.
    + simpl. now rewrite <- app_assoc.
    + now apply (copy_blocks_extend groups c cs line).
Qed.

Lemma split_by_copy_fold (lines : list string) : forall groups current,
  (current = [] -> groups = []) ->
  copy_blocks (groups ++ match current with [] => [] | _ :: _ => [current] end) ->
  exists groups' current',
    fold_left split_by_copy_step lines (map (join line_feed) groups, current)
    = (map (join line_feed) groups', current')
    /\ concat groups' ++ current' = (concat groups ++ current) ++ lines
    /\ copy_blocks (groups' ++ match current' with [] => [] | _ :: _ => [current'] end).
Proof.
  induction lines as [|line lines IH]; intros groups current Hinit Hcb.
  - exists groups, current. simpl. rewrite app_nil_r. auto.
  - destruct (split_by_copy_step_blocks groups current line Hinit Hcb)
      as (g1 & c1 & cs1 & Estep & Econcat & Hcb1).
    cbn [fold_left]. rewrite Estep.
    destruct (IH g1 (c1 :: cs1) ltac:(discriminate) Hcb1) as (g2 & cur2 & Efold & Econcat2 & Hcb2).
    exists g2, cur2. split; [exact Efold |]. split; [| exact Hcb2].
    rewrite Econcat2, Econcat. now rewrite <- app_assoc.
Qed.

Lemma join_app (sep : string) (l1 l2 : list string) :
  l1 <> [] -> l2 <> [] -> join sep (l1 ++ l2) = join sep l1 +:+ sep +:+ join sep l2.
Proof.
  intros H1 H2. induction l1 as [|x l1 IH]; [congruence |].
  destruct l1 as [|y l1].
  - simpl. destruct l2; [congruence | reflexivity].
  - change (join sep ((x :: y :: l1) ++ l2)) with (x +:+ sep +:+ join sep ((y :: l1) ++ l2)).
    rewrite IH by discriminate.
    change (join sep (x :: y :: l1)) with (x +:+ sep +:+ join sep (y :: l1)).
    now rewrite !append_assoc.
Qed.

Lemma join_concat (sep : string) (groups : list (list string)) :
  Forall (fun g => g <> []) groups ->
  join sep (map (join sep) groups) = join sep (concat groups).
Proof.
  induction 1 as [|g groups Hg Hgs IH]; [reflexivity |].
  destruct groups as [|g2 groups].
  - simpl. now rewrite app_nil_r.
  - change (map (join sep) (g :: g2 :: groups))
      with (join sep g :: map (join sep) (g2 :: groups)).
    change (join sep (join sep g :: map (join sep) (g2 :: groups)))
      with (join sep g +:+ sep +:+ join sep (map (join sep) (g2 :: groups))).
    rewrite IH. change (concat (g :: g2 :: groups)) with (g ++ concat (g2 :: groups)).
    rewrite join_app; [reflexivity | exact Hg |].
    inversion Hgs; subst. simpl. destruct g2; [congruence | discriminate].
Qed.

(** X10.  [split_by_copy] cuts the lines of the text into blocks without
    losing or reordering a line: each block is the lines of a group joined
    by newlines, the groups in order make up the lines of the text, no
    group is empty, every group but the first starts with a line that
    holds "COPY" in some letter case, and no later line of a group does.
    Joining the blocks by newlines gives the lines of the text joined by
    newlines. *)
Theorem split_by_copy_blocks (text : string) :
  exists groups,
    split_by_copy text = map (join line_feed) groups
    /\ concat groups = splitlines text
    /\ copy_blocks groups
    /\ join line_feed (split_by_copy text) = join line_feed (splitlines text).
Proof.
  assert (H : exists gs,
            split_by_copy text = map (join line_feed) gs
            /\ concat gs = splitlines text /\ copy_blocks gs).
  { unfold split_by_copy.
    destruct (split_by_copy_fold (splitlines text) [] [] ltac:(reflexivity))
      as (groups & current & Efold & Econcat & Hcb).
    { split; constructor. }
    change (@nil string) with (map (join line_feed) []) at 1. rewrite Efold.
    simpl in Econcat. destruct current as [|c cs].
    - exists groups. rewrite !app_nil_r in *. auto.
    - exists (groups ++ [c :: cs]). rewrite map_app, concat_app. simpl.
      rewrite app_nil_r. auto. }
  destruct H as (gs & Hgs & Hc & Hb). exists gs.
  split; [exact Hgs |]. split; [exact Hc |]. split; [exact Hb |].
  rewrite Hgs, join_concat, Hc; [reflexivity |].
  destruct Hb as [Hb _]. eapply Forall_impl; [exact Hb |]. now intros g [Hg _].
Qed.

End BlockFacts.

Module CaseFacts.
Import Py Re Spec Props StringFacts TextFacts DebitNote.

(** Below 128 the case maps touch the letters a to z and A to Z only. *)
Lemma case_maps_below_128 c :
  (code c <? 128) = true ->
  (code c =? 223) = false
  /\ (code (upper_char c) =? 223) = false
  /\ upper_char (upper_char c) = upper_char c
  /\ (code (lower_char c) =? 223) = false
  /\ upper_char (lower_char c) = upper_char c.
Proof.
  destruct c as [[] [] [] [] [] [] [] []]; vm_compute; intros;
    first [repeat split; reflexivity | discriminate].
Qed.

Lemma upper_idem (s : string) : ascii_text s -> upper (upper s) = upper s.
Proof.
  unfold ascii_text. induction s as [|c s IH]; [reflexivity |].
  cbn [sforall]. intros H. apply andb_true_iff in H as [Hc Hs].
  destruct (case_maps_below_128 c Hc) as (E1 & E2 & E3 & _).
  cbn [upper]. rewrite E1. cbn [upper]. now rewrite E2, E3, IH.
Qed.

Lemma upper_lower (s : string) : ascii_text s -> upper (lower s) = upper s.
Proof.
  unfold ascii_text, lower. induction s as [|c s IH]; [reflexivity |].
  cbn [sforall]. intros H. apply andb_true_iff in H as [Hc Hs].
  destruct (case_maps_below_128 c Hc) as (E1 & _ & _ & E4 & E5).
  cbn [smap upper]. now rewrite E1, E4, E5, IH.
Qed.

(** X11.  On a block of characters below 128 the verdict of
    [is_valid_financial_block] does not depend on the letter case: the
    block, the block in capitals and the block in small letters are all
    valid or all not. *)
Theorem is_valid_financial_block_case (block : string) :
  ascii_text block ->
  is_valid_financial_block (upper block) = is_valid_financial_block block
  /\ is_valid_financial_block (lower block) = is_valid_financial_block block.
Proof.
  intros H. unfold is_valid_financial_block.
  now rewrite (upper_idem block H), (upper_lower block H).
Qed.

Lemma is_valid_financial_block_case_witness :
  is_valid_financial_block (upper "Gross Premium 1,200") = is_valid_financial_block "Gross Premium 1,200"
  /\ is_valid_financial_block (lower "Gross Premium 1,200")
     = is_valid_financial_block "Gross Premium 1,200".
Proof. apply is_valid_financial_block_case. vm_compute. reflexivity. Defined.

End CaseFacts.

(* ===================================================================== *)
(** ** The account statement: numbers *)
(* ===================================================================== *)

Module FloatFacts.
Import Py Re ReSem PyNum Spec Props StringFacts ReFacts ScanFacts NumFacts CleanNumberFacts
       CleanMoneyFacts DateFacts TextFacts.

Lemma Z_of_digits_nonneg (s : string) : sforall is_digit s = true -> (0 <= Z_of_digits s)%Z.
Proof. intros H. now destruct (Z_of_digits_bound s H). Qed.

(** What [parse_decimal] reads is never negative. *)
Lemma parse_decimal_nonneg (s : string) (q : Q) :
  parse_decimal s = Some q -> exists (m : Z) (d : positive), q = Qmake m d /\ (0 <= m)%Z.
Proof.
  unfold parse_decimal.
  destruct (span is_digit s) as [ip r1] eqn:E1.
  destruct (span_spec _ _ _ _ E1) as (_ & Hip & _).
  assert (Hfp : forall fp r2,
             (match r1 with
              | String c t => if is_char "." c then span is_digit t else ("", r1)
              | EmptyString => ("", r1)
              end) = (fp, r2) -> sforall is_digit fp = true).
  { intros fp r2. destruct r1 as [|c t]; [now intros [= <- <-] |].
    destruct (is_char "." c); [| now intros [= <- <-]].
    intros E2. now destruct (span_spec _ _ _ _ E2) as (_ & Hfp & _). }
  destruct (match r1 with String c t => _ | EmptyString => _ end) as [fp r2].
  specialize (Hfp fp r2 eq_refl).
  destruct (is_empty ip && is_empty fp); [discriminate |].
  destruct (parse_exponent r2) as [e|]; [| discriminate].
  assert (Hm : (0 <= Z_of_digits (ip +:+ fp))%Z)
    by (apply Z_of_digits_nonneg; now rewrite sforall_app, Hip, Hfp).
  destruct (0 <=? Z.of_nat (String.length fp) - e)%Z; intros [= <-].
  - eexists _, _. split; [reflexivity | exact Hm].
  - eexists _, 1%positive. split; [reflexivity |].
    apply Z.mul_nonneg_nonneg; [exact Hm | apply Z.pow_nonneg; lia].
Qed.

Lemma unsigned_not_minus c : unsigned_char c = true -> is_char "-" c = false.
Proof. unfold unsigned_char. intros H. apply andb_true_iff in H as [H _]. now apply negb_true_iff. Qed.

Lemma lower_unsigned (s : string) :
  sforall unsigned_char s = true -> sforall (fun c => negb (Ascii.eqb c "n")) (lower s) = true.
Proof.
  intros H. unfold lower. rewrite sforall_smap. eapply sforall_impl; [| exact H].
  intros c Hc. unfold unsigned_char, ci in Hc. apply andb_true_iff in Hc as [_ Hc]. exact Hc.
Qed.

(** [float] of a text without minus sign and without the letter n, when it
    reads the text, gives a number that is not negative, or [inf]. *)
Lemma py_float_unsigned (s : string) (v : pyfloat) :
  sforall unsigned_char s = true -> py_float s = Some v -> unsigned_value v.
Proof.
  intros Hs. unfold py_float.
  assert (Ht : sforall unsigned_char (strip s) = true) by (now apply sforall_strip_by).
  set (t := strip s) in *. clearbody t.
  assert (Hbody : exists body,
            (match t with
             | String c t' =>
                 if is_char "-" c then (true, t')
                 else if is_char "+" c then (false, t') else (false, t)
             | EmptyString => (false, t)
             end) = (false, body) /\ sforall unsigned_char body = true).
  { destruct t as [|c t']; [eauto |].
    simpl in Ht. apply andb_true_iff in Ht as [Hc Ht'].
    rewrite (unsigned_not_minus c Hc).
    destruct (is_char "+" c); eexists; (split; [reflexivity |]); auto.
    simpl. now rewrite Hc, Ht'. }
  destruct Hbody as (body & -> & Hb).
  pose proof (lower_unsigned body Hb) as Hl.
  assert (E1 : String.eqb (lower body) "inf" = false).
  { destruct (String.eqb_spec (lower body) "inf") as [E|]; [| reflexivity].
    rewrite E in Hl. discriminate. }
  assert (E2 : String.eqb (lower body) "infinity" = false).
  { destruct (String.eqb_spec (lower body) "infinity") as [E|]; [| reflexivity].
    rewrite E in Hl. discriminate. }
  assert (E3 : String.eqb (lower body) "nan" = false).
  { destruct (String.eqb_spec (lower body) "nan") as [E|]; [| reflexivity].
    rewrite E in Hl. discriminate. }
  rewrite E1, E2, E3. simpl.
  destruct (parse_decimal body) as [q|] eqn:Eq; [| discriminate].
  intros [= <-]. destruct (parse_decimal_nonneg body q Eq) as (m & d & -> & Hm).
  destruct (of_Q_nonneg m d Hm) as [-> | H]; [now right | now left].
Qed.

Lemma float_or_zero_unsigned (s : string) :
  sforall unsigned_char s = true -> unsigned_value (AccountStatement.float_or_zero s).
Proof.
  intros Hs. unfold AccountStatement.float_or_zero.
  destruct (py_float s) as [v|] eqn:E.
  - eapply py_float_unsigned; eauto.
  - left. apply finite_nonneg_zero.
Qed.

End FloatFacts.

Module ReadingFacts.
Import Py Re ReSem PyNum Spec Props StringFacts ReFacts ScanFacts NumFacts CleanNumberFacts
       CleanMoneyFacts DateFacts TextFacts AccountStatement.

Lemma digit_or_comma_no_space c : digit_or_comma c = true -> neg is_space c = true.
Proof. destruct c as [[] [] [] [] [] [] [] []]; vm_compute; intros; first [reflexivity | discriminate]. Qed.

Lemma digit_or_comma_kept c :
  digit_or_comma c = true ->
  swap_char "l" "1" (swap_char "O" "0" (swap_char "Q" "0" c)) = c.
Proof. destruct c as [[] [] [] [] [] [] [] []]; vm_compute; intros; first [reflexivity | discriminate]. Qed.

Lemma digit_or_comma_digit c :
  digit_or_comma c = true -> negb (Ascii.eqb "," c) = is_digit c.
Proof. destruct c as [[] [] [] [] [] [] [] []]; vm_compute; intros; first [reflexivity | discriminate]. Qed.

Lemma digit_kept c : is_digit c = true -> neg (neg (either is_digit (is_char "."))) c = true.
Proof. destruct c as [[] [] [] [] [] [] [] []]; vm_compute; intros; first [reflexivity | discriminate]. Qed.

Lemma sfilter_ext_on (q p p' : ascii -> bool) (s : string) :
  (forall c, q c = true -> p c = p' c) -> sforall q s = true -> sfilter p s = sfilter p' s.
Proof.
  intros H. induction s as [|c s IH]; simpl; [reflexivity |].
  intros E. apply andb_true_iff in E as [Hc Hs]. rewrite (H c Hc), (IH Hs). reflexivity.
Qed.

(** The spaced form needs white space. *)
Lemma spaced_pattern_needs_space (s : string) :
  sforall (neg is_space) s = true -> rematch spaced_pattern s = None.
Proof.
  intros Hs. destruct (rematch spaced_pattern s) as [m|] eqn:E; [| reflexivity].
  exfalso. unfold rematch in E. apply match_at_sound in E as (w & Hw & M & _).
  unfold spaced_pattern, cats, plus, times in M.
  destruct (m_rest m) as [prev' rest']. invert_match. cbn [snd] in *.
  match goal with
  | Heq : w +:+ _ = String ?a (?v +:+ _), Hsp : sforall is_space ?v = true,
    Hlen : 1 <= String.length ?v |- _ =>
      rewrite Heq in Hs; destruct v as [|b v]; [simpl in Hlen; lia |];
      cbn [sforall String.append] in Hs, Hsp;
      apply andb_true_iff in Hsp as [Hb _];
      apply andb_true_iff in Hs as [_ Hs]; apply andb_true_iff in Hs as [Hs _];
      unfold neg in Hs; rewrite Hb in Hs; discriminate
  end.
Qed.

(** X12.  A text of digits and commas with at least one digit is read by
    [clean_number] as the whole number that its digits spell, the commas
    being passed over: "12,500" gives 12500.0. *)
Theorem clean_number_reads_digits (raw : string) :
  sforall digit_or_comma raw = true -> sfilter is_digit raw <> "" ->
  clean_number raw = Ok (of_Z (Z_of_digits (sfilter is_digit raw))).
Proof.
  intros Hraw Hd. unfold clean_number.
  destruct raw as [|c0 r]; [simpl in Hd; congruence |].
  set (raw := String c0 r) in *. simpl is_empty. cbn iota.
  assert (Hns : sforall (neg is_space) raw = true)
    by (eapply sforall_impl; [apply digit_or_comma_no_space | exact Hraw]).
  unfold strip. rewrite (strip_by_none is_space raw Hns).
  rewrite (spaced_pattern_needs_space raw Hns).
  rewrite !replace_char, !smap_smap.
  rewrite (smap_id_on digit_or_comma _ raw digit_or_comma_kept Hraw).
  rewrite sub_plus, (sfilter_all _ raw Hns), delete_char, sub_Chr.
  rewrite (sfilter_ext_on digit_or_comma _ is_digit raw digit_or_comma_digit Hraw).
  rewrite sfilter_all
    by (apply sforall_sfilter; intros c Hc; now apply digit_kept).
  unfold float_or_zero. rewrite py_float_digits; [reflexivity | exact Hd |].
  apply sforall_sfilter. auto.
Qed.

Lemma clean_number_reads_digits_witness :
  clean_number "12,500" = Ok (of_Z (Z_of_digits (sfilter is_digit "12,500"))).
Proof.
  apply clean_number_reads_digits; [reflexivity | discriminate].
Defined.

End ReadingFacts.

(* ===================================================================== *)
(** ** The account statement: entries *)
(* ===================================================================== *)

Module EntryFieldFacts.
Import Py Re ReSem PyNum Spec Props StringFacts ReFacts ScanFacts NumFacts CleanNumberFacts
       CleanMoneyFacts EntriesFacts DateFacts TextFacts FloatFacts AccountStatement.

Lemma newline_is_space a : (code a =? 10) = true -> is_space a = true.
Proof. destruct a as [[] [] [] [] [] [] [] []]; vm_compute; intros; first [reflexivity | discriminate]. Qed.

(** A stripped line does not stop in front of a final newline. *)
Lemma stripped_line_end (w rest : string) :
  strip (w +:+ rest) = w +:+ rest -> at_end_or_last_newline rest = true -> rest = "".
Proof.
  intros Hs He. destruct rest as [|a [|b rest]]; [reflexivity | | discriminate].
  exfalso. simpl in He. pose proof (strip_by_last is_space (w +:+ String a "")) as H.
  fold (strip (w +:+ String a "")) in H. rewrite Hs in H.
  rewrite srev_app in H. unfold srev at 1 in H. simpl in H.
  rewrite (newline_is_space a He) in H. discriminate.
Qed.

(** The first five parts of a sequence of six. *)
Lemma cat_five r1 r2 r3 r4 r5 r6 c g c' g' :
  Matches (Cat r1 (Cat r2 (Cat r3 (Cat r4 (Cat r5 r6))))) c g c' g' ->
  exists c1 g1, Matches (cats [r1; r2; r3; r4; r5]) c g c1 g1 /\ Matches r6 c1 g1 c' g'.
Proof.
  intros M.
  inversion M as [| | ? ? ? ? ca ga ? ? Ma M2 | | | | | | | | | | |]; subst.
  inversion M2 as [| | ? ? ? ? cb gb ? ? Mb M3 | | | | | | | | | | |]; subst.
  inversion M3 as [| | ? ? ? ? cc gc ? ? Mc M4 | | | | | | | | | | |]; subst.
  inversion M4 as [| | ? ? ? ? cd gd ? ? Md M5 | | | | | | | | | | |]; subst.
  inversion M5 as [| | ? ? ? ? ce ge ? ? Me M6 | | | | | | | | | | |]; subst.
  exists ce, ge. split; [| exact M6]. simpl.
  repeat (eapply M_Cat; [eassumption |]). exact Me.
Qed.

Lemma date_line_shape (line : string) :
  matches date_pattern line = true -> strip line = line -> is_slash_date line = true.
Proof.
  unfold matches. intros H Hs. apply bool_decide_eq_true in H as [m H].
  apply match_at_sound in H as (w & Hw & M & _).
  destruct (m_rest m) as [prev' rest]. simpl in Hw. subst line.
  unfold date_pattern, cats in M.
  inversion M as [| | ? ? ? ? c1 g1 ? ? M1 M2 | | | | | | | | | | |]; subst.
  inversion M1; subst.
  apply cat_five in M2 as (c2 & g2 & M3 & M4). inversion M4; subst.
  destruct (slash_date_reads _ _ _ _ w M3 eq_refl) as [Hd _].
  match goal with He : at_end_or_last_newline _ = true |- _ =>
    simpl in He; rewrite (stripped_line_end w rest Hs He) end.
  now rewrite append_nil_r.
Qed.

Lemma debit_line_shape (line : string) :
  matches debit_pattern line = true -> strip line = line -> debit_reference line.
Proof.
  unfold matches. intros H Hs. apply bool_decide_eq_true in H as [m H].
  apply match_at_sound in H as (w & Hw & M & _).
  destruct (m_rest m) as [prev' rest]. simpl in Hw. subst line.
  unfold debit_pattern, cats, plus in M.
  invert_match.
  match goal with
  | He : at_end_or_last_newline _ = true, Hw : w +:+ rest = String ?b (?v +:+ rest) |- _ =>
      simpl in He;
      change (String b (v +:+ rest)) with (String b v +:+ rest) in Hw;
      apply append_inv_tail in Hw; subst w;
      rewrite (stripped_line_end (String b v) rest Hs He), append_nil_r;
      exists b, v
  end.
  repeat split; auto. intros ->. simpl in *. lia.
Qed.

(** The header entry. *)
Lemma header_groups (text : string) (m : rmatch) :
  search header_pattern text = Some m ->
  is_slash_date (group 1 m) = true /\ debit_reference (group 2 m).
Proof.
  intros H. apply search_from_sound in H as (pre & w & _ & M & _).
  unfold header_pattern in M. cbn [cats ilit] in M. unfold star, plus in M.
  invert_outer.
  repeat match goal with
         | Mg : Matches (Grp _ _) _ _ _ _ |- _ =>
             let x := fresh "x" in let gs := fresh "gs" in
             let Hx := fresh "Hx" in let Hc := fresh "Hc" in let Mi := fresh "Mi" in
             apply Grp_reads in Mg as (x & gs & Hx & Hc & Mi)
         end.
  destruct (slash_date_reads _ _ _ _ x0 Mi0 Hx0) as [Hd _].
  clear Mi0 Hx0.
  inversion Mi as [| | ? ? ? ? cb gb ? ? Mb Mr | | | | | | | | | | |]; subst.
  inversion Mb; subst. inversion Mr; subst.
  unfold group. rewrite Hc. cbn [cap_get Nat.eqb].
  split; [exact Hd |].
  group_text Hx. subst x.
  eexists _, _. split; [reflexivity |]. repeat split; auto.
  intros ->. simpl in *. lia.
Qed.

End EntryFieldFacts.

Module StructuredEntryFacts.
Import Py Re ReSem PyNum Spec Props StringFacts ReFacts ScanFacts NumFacts CleanNumberFacts
       CleanMoneyFacts EntriesFacts DateFacts TextFacts FloatFacts EntryFieldFacts
       AccountStatement.

Lemma unsigned_zero : unsigned_value zero.
Proof. left. apply finite_nonneg_zero. Qed.

Lemma clean_number_unsigned (raw : string) (v : pyfloat) :
  clean_number raw = Ok v -> unsigned_value v.
Proof.
  destruct (clean_number_outcome raw) as (v' & Hv & Hr). rewrite Hv. intros [= <-].
  destruct Hr as [H | [H _]]; [now left | now right].
Qed.

Lemma header_premium_scan_value (lines : list string) : forall prev v,
  header_premium_scan prev lines = Ok v -> unsigned_value v.
Proof.
  induction lines as [|line rest IH]; intros prev v; simpl.
  - intros [= <-]. apply unsigned_zero.
  - destruct (matches date_pattern line); [| apply IH].
    destruct prev as [prev_line|]; [| intros [= <-]; apply unsigned_zero].
    destruct (has_digit prev_line); [apply clean_number_unsigned |].
    intros [= <-]. apply unsigned_zero.
Qed.

Lemma extract_header_entry_fields (text : string) (se : structured_entry) :
  extract_header_entry text = Ok (Some se) -> structured_fields se.
Proof.
  unfold extract_header_entry.
  destruct (search header_pattern text) as [m|] eqn:E; [| discriminate].
  destruct (extract_header_premium_from_block text) as [v|] eqn:Ev; [| discriminate].
  simpl. intros [= <-]. destruct (header_groups text m E) as [Hd Hb].
  split; [exact Hd |]. split.
  - simpl. now intros d [= <-].
  - simpl. eapply header_premium_scan_value. exact Ev.
Qed.

Lemma stripped_lines_stripped (text : string) :
  Forall (fun l => strip l = l) (stripped_lines text).
Proof.
  unfold stripped_lines. apply Forall_forall. intros l Hl.
  apply list_elem_of_filter in Hl as [_ Hl].
  apply list_elem_of_fmap in Hl as (x & -> & _). apply strip_by_idem.
Qed.

Lemma date_debit_premium_loop_fields (lines : list string) :
  Forall (fun l => strip l = l) lines ->
  forall fuel i l, date_debit_premium_loop fuel lines i = Ok l -> Forall structured_fields l.
Proof.
  intros Hlines.
  assert (Hs : forall j x, lines !! j = Some x -> strip x = x).
  { intros j x Hx. rewrite Forall_forall in Hlines. apply Hlines.
    eapply list_elem_of_lookup_2; eauto. }
  induction fuel as [|fuel IH]; intros i l; simpl; [intros [= <-]; constructor |].
  destruct (lines !! i) as [line|] eqn:Eline; [| intros [= <-]; constructor].
  destruct (matches date_pattern line) eqn:Edate; [| apply IH].
  assert (Hdate : is_slash_date line = true)
    by (apply date_line_shape; [exact Edate | eapply Hs; eauto]).
  assert (Hdn : forall dn j,
            (match lines !! (i + 1) with
             | Some l1 => if matches debit_pattern l1 then (Some l1, i + 1) else (None, i)
             | None => (None, i)
             end) = (dn, j) -> forall d, dn = Some d -> debit_reference d).
  { intros dn j. destruct (lines !! (i + 1)) as [l1|] eqn:E1.
    - destruct (matches debit_pattern l1) eqn:Ed; intros [= <- <-] d [= <-].
      apply debit_line_shape; [exact Ed | eapply Hs; eauto].
    - intros [= <- <-] d [=]. }
  destruct (match lines !! (i + 1) with Some l1 => _ | None => _ end) as [dn j].
  specialize (Hdn dn j eq_refl).
  assert (Hfin : forall p k rest,
            unsigned_value p -> date_debit_premium_loop fuel lines k = Ok rest ->
            Forall structured_fields (mk_structured_entry line dn p :: rest)).
  { intros p k rest Hp Hrest. constructor; [| eapply IH; eauto].
    repeat split; auto. }
  destruct (lines !! (j + 1)) as [nl|].
  - destruct (negb _ && negb _ && has_digit nl).
    + destruct (clean_number nl) as [p|] eqn:Ep; [| discriminate]. simpl.
      destruct (date_debit_premium_loop fuel lines (j + 1 + 1)) as [rest|] eqn:Er;
        [| discriminate].
      simpl. intros [= <-]. eapply Hfin; eauto. eapply clean_number_unsigned; eauto.
    + simpl. destruct (date_debit_premium_loop fuel lines (j + 1)) as [rest|] eqn:Er;
        [| discriminate].
      simpl. intros [= <-]. eapply Hfin; eauto. apply unsigned_zero.
  - simpl. destruct (date_debit_premium_loop fuel lines (j + 1)) as [rest|] eqn:Er;
      [| discriminate].
    simpl. intros [= <-]. eapply Hfin; eauto. apply unsigned_zero.
Qed.

Lemma structured_entries_of_fields (text : string) (l : list structured_entry) :
  structured_entries_of text = Ok l -> Forall structured_fields l.
Proof.
  unfold structured_entries_of.
  destruct (extract_header_entry text) as [o|] eqn:Eh; [| discriminate]. simpl.
  destruct (extract_date_debit_premium text) as [col|] eqn:Ec; [| discriminate]. simpl.
  intros [= <-].
  assert (Hcol : Forall structured_fields col).
  { unfold extract_date_debit_premium in Ec.
    eapply date_debit_premium_loop_fields; [apply stripped_lines_stripped | exact Ec]. }
  destruct o as [se|]; [| exact Hcol].
  constructor; [now apply (extract_header_entry_fields text) | exact Hcol].
Qed.

End StructuredEntryFacts.

Module PairFacts.
Import Py Re ReSem PyNum Spec Props StringFacts ReFacts ScanFacts NumFacts CleanNumberFacts
       CleanMoneyFacts EntriesFacts DateFacts TextFacts FloatFacts EntryFieldFacts StructuredEntryFacts
       AccountStatement.

Lemma policy_class c :
  either letter (either is_digit (one_of ",-")) c = true ->
  negb (Ascii.eqb " " c) = true -> negb (Ascii.eqb "," c) = true ->
  policy_char (swap_char "l" "1" (swap_char "O" "0" (swap_char "o" "0" c))) = true.
Proof. destruct c as [[] [] [] [] [] [] [] []]; vm_compute; intros; first [reflexivity | discriminate]. Qed.

Lemma nature_class c :
  ci_class (either is_digit (one_of "OQol.,")) c = true ->
  unsigned_char (swap_char "l" "1" (swap_char "o" "0" (swap_char "Q" "0" (swap_char "O" "0" c))))
  = true.
Proof. destruct c as [[] [] [] [] [] [] [] []]; vm_compute; intros; first [reflexivity | discriminate]. Qed.

Lemma policy_text_class (raw : string) :
  sforall (either letter (either is_digit (one_of ",-"))) raw = true ->
  sforall policy_char
    (replace "l" "1" (replace "O" "0" (replace "o" "0" (replace "," "" (replace " " "" raw)))))
  = true.
Proof.
  intros H. rewrite !delete_char, !replace_char, !smap_smap, sforall_smap.
  apply (sforall_sfilter_class _
           (fun c => either letter (either is_digit (one_of ",-")) c
                     && negb (Ascii.eqb " " c))).
  - intros c Hc Hcomma. apply andb_true_iff in Hc as [Hc Hblank]. now apply policy_class.
  - apply (sforall_sfilter_class _ (either letter (either is_digit (one_of ",-")))); [| exact H].
    intros c Hc Hb. now rewrite Hc, Hb.
Qed.

Lemma nature_text_class (raw : string) :
  sforall (ci_class (either is_digit (one_of "OQol.,"))) raw = true ->
  sforall unsigned_char
    (replace "," "" (replace "l" "1" (replace "o" "0" (replace "Q" "0" (replace "O" "0" raw)))))
  = true.
Proof.
  intros H. rewrite !delete_char, !replace_char, !smap_smap.
  apply (sforall_sfilter_class _ unsigned_char); [auto |].
  rewrite sforall_smap. eapply sforall_impl; [| exact H]. apply nature_class.
Qed.

(** The groups of a policy/nature match. *)
Lemma policy_nature_groups r0 c g c' g' :
  r0 = policy_nature_pattern -> Matches r0 c g c' g' ->
  exists w1 w2 g0,
    g' = (2, w2) :: (1, w1) :: g0
    /\ sforall (either letter (either is_digit (one_of ",-"))) w1 = true
    /\ sforall (ci_class (either is_digit (one_of "OQol.,"))) w2 = true.
Proof.
  intros -> M. unfold policy_nature_pattern, cats, plus in M.
  inversion M as [| | ? ? ? ? c1 g1 ? ? M1 M2 | | | | | | | | | | |]; subst.
  inversion M2 as [| | ? ? ? ? c2 g2 ? ? M3 M4 | | | | | | | | | | |]; subst.
  inversion M4 as [| | ? ? ? ? c3 g3 ? ? M5 M6 | | | | | | | | | | |]; subst.
  apply Grp_reads in M1 as (w1 & ga & H1 & -> & M1).
  apply Grp_reads in M5 as (w2 & gb & H2 & -> & M5).
  inversion M1; subst. inversion M3; subst. inversion M5; subst. inversion M6; subst.
  simpl in H1, H2.
  match goal with
  | Ha : ?a +:+ ?s = w1 +:+ ?s |- _ => apply append_inv_tail in Ha; subst w1
  | Ha : w1 +:+ ?s = ?a +:+ ?s |- _ => apply append_inv_tail in Ha; subst w1
  end.
  match goal with
  | Ha : ?a +:+ ?s = w2 +:+ ?s |- _ => apply append_inv_tail in Ha; subst w2
  | Ha : w2 +:+ ?s = ?a +:+ ?s |- _ => apply append_inv_tail in Ha; subst w2
  end.
  eexists _, _, _. split; [reflexivity |]. auto.
Qed.

Lemma extract_policy_nature_pairs_fields (big_row_text : string) :
  Forall pair_fields (extract_policy_nature_pairs big_row_text).
Proof.
  unfold extract_policy_nature_pairs. apply Forall_forall. intros p Hp.
  apply list_elem_of_fmap in Hp as (m & -> & Hm).
  unfold finditer in Hm. apply finditer_from_sound in Hm as (pre & _ & M).
  destruct (policy_nature_groups _ _ _ _ _ eq_refl M) as (w1 & w2 & g0 & Hc & H1 & H2).
  unfold group. rewrite Hc. cbn [cap_get Nat.eqb].
  split; simpl.
  - now apply policy_text_class.
  - apply float_or_zero_unsigned. now apply nature_text_class.
Qed.

Lemma policy_nature_pairs_of_fields (text : string) :
  Forall pair_fields (policy_nature_pairs_of text).
Proof.
  unfold policy_nature_pairs_of. destruct (search big_row_pattern text); [| constructor].
  apply extract_policy_nature_pairs_fields.
Qed.

Lemma align_fields pairs ses :
  Forall pair_fields pairs -> Forall structured_fields ses ->
  Forall entry_fields (align pairs ses).
Proof.
  intros Hp Hs. apply Forall_lookup. intros i e He.
  apply align_lookup in He as (se & Hse & E1 & E2 & E3 & Hpair).
  rewrite Forall_lookup in Hs. destruct (Hs i se Hse) as (Hd & Hb & Hv).
  unfold entry_fields. rewrite E1, E2, E3.
  split; [exact Hd |]. split; [exact Hb |]. split; [exact Hv |].
  destruct (pairs !! i) as [p|] eqn:Epi.
  - rewrite Forall_lookup in Hp. destruct (Hp i p Epi) as [Hpol Hnat].
    destruct Hpair as [-> ->]. split; intros x [= <-]; assumption.
  - destruct Hpair as [-> ->]. split; intros x [=].
Qed.

End PairFacts.

Module StatementFacts.
Import Py Re ReSem PyNum Spec Props StringFacts ReFacts ScanFacts NumFacts CleanNumberFacts
       CleanMoneyFacts EntriesFacts DateFacts ParserFacts TextFacts FloatFacts EntryFieldFacts
       StructuredEntryFacts PairFacts AccountStatement.

(** X13.  [parse_entries] returns for every text, and in every entry it
    returns the effective date has the form dd/mm/yyyy, the debit note
    reference, when there is one, is the letter B followed by at least one
    word character, hyphen or question mark, the premium and the nature are
    numbers that are not negative (or [inf]), never NaN, and the policy
    number holds letters, digits and hyphens only, with no o, O or l left. *)
Theorem parse_entries_fields (normalized_text : string) :
  exists entries,
    parse_entries normalized_text = Ok entries /\ Forall entry_fields entries.
Proof.
  unfold parse_entries.
  destruct (structured_entries_of_ok (clean_global_ocr normalized_text)) as [ses Hses].
  rewrite Hses. simpl. eexists. split; [reflexivity |].
  apply align_fields; [apply policy_nature_pairs_of_fields |].
  eapply structured_entries_of_fields; eauto.
Qed.


(** The arithmetic of the total on samples: the float nearest to 0.1 is
    3602879701896397 / 2^55; [round(2.675, 2)] is 2.67, the float nearest
    to 2.675 lying below it; 10000000000000001, read as the float 1e16,
    summed three times gives 3e16; and 1.005 + 2.675 + 1234.56 rounds to
    1238.24. *)
Lemma total_arithmetic_samples :
  binary64 (1 # 10) = (3602879701896397 # 36028797018963968)%Q
  /\ round2 <$> py_float "2.675" = py_float "2.67"
  /\ sum (omap py_float ["10000000000000001"; "10000000000000001"; "10000000000000001"])
     = of_Z 30000000000000000
  /\ Some (round2 (sum (omap py_float ["1.005"; "2.675"; "1234.56"]))) = py_float "1238.24".
Proof. repeat split; vm_compute; reflexivity. Qed.


Lemma letter_or_digit_class c :
  ci_class (either is_AZ is_digit) c = true -> letter_or_digit c = true.
Proof. destruct c as [[] [] [] [] [] [] [] []]; vm_compute; intros; first [reflexivity | discriminate]. Qed.

(** X15.  The account number of an account statement is the marker "N/A",
    or a text of letters and digits that is not empty. *)
Theorem statement_account_number_shape (text : string) :
  extract_account_number text = "N/A"
  \/ (extract_account_number text <> ""
      /\ sforall letter_or_digit (extract_account_number text) = true).
Proof.
  unfold extract_account_number.
  destruct (search account_number_pattern _) as [m|] eqn:E; [| now left].
  right. apply search_from_sound in E as (pre & w & _ & M & _).
  unfold account_number_pattern in M. cbn [cats ilit] in M.
  unfold star, plus, opt_chr in M.
  invert_outer.
  match goal with
  | M4 : Matches (Grp 1 _) _ _ _ _ |- _ =>
      apply Grp_reads in M4 as (p & gs & Hp & Hcaps & M5)
  end.
  unfold group. rewrite Hcaps. cbn [cap_get Nat.eqb].
  inversion M5; subst. group_text Hp. subst p.
  split.
  - intros ->. simpl in *. lia.
  - eapply sforall_impl; [apply letter_or_digit_class | assumption].
Qed.

Lemma due_date_scan_no_label (lines : list string) : forall prev,
  (forall line, line ∈ lines -> contains "PREMIUM DUE DATE" (upper line) = false) ->
  due_date_scan prev lines = None.
Proof.
  induction lines as [|line rest IH]; intros prev H; [reflexivity |].
  cbn [due_date_scan]. rewrite (H line) by left. apply IH. intros l Hl. apply H. now right.
Qed.

(** X16.  When no line of the corrected text other than the first holds
    "PREMIUM DUE DATE" (in any letter case), the premium due date is the
    issue date that [extract_issue_date] finds in the corrected text: a
    label on the first line has no line before it and is passed over. *)
Theorem premium_due_date_falls_back (text : string) :
  (forall i line, 0 < i ->
     splitlines (apply_ocr_corrections text false) !! i = Some line ->
     contains "PREMIUM DUE DATE" (upper line) = false) ->
  extract_premium_due_date text = extract_issue_date (apply_ocr_corrections text false).
Proof.
  intros H. unfold extract_premium_due_date.
  destruct (splitlines (apply_ocr_corrections text false)) as [|l0 rest] eqn:E.
  - reflexivity.
  - cbn [due_date_scan].
    replace (if contains "PREMIUM DUE DATE" (upper l0) then None else None)
      with (@None string) by (destruct (contains _ _); reflexivity).
    rewrite due_date_scan_no_label; [reflexivity |].
    intros line Hl. apply list_elem_of_lookup in Hl as [i Hi].
    apply (H (S i)); [lia | exact Hi].
Qed.

Lemma premium_due_date_falls_back_witness :
  extract_premium_due_date "PREMIUM DUE DATE   Issued Date: 15 November 2025"
  = extract_issue_date
      (apply_ocr_corrections "PREMIUM DUE DATE   Issued Date: 15 November 2025" false).
Proof.
  apply premium_due_date_falls_back. intros i line Hi Hl.
  assert (E : splitlines
                (apply_ocr_corrections "PREMIUM DUE DATE   Issued Date: 15 November 2025" false)
              = ["PREMIUM DUE DATE   Issued Date: 15 November 2025"])
    by (vm_compute; reflexivity).
  rewrite E in Hl. destruct i as [|i]; [lia |]. simpl in Hl. rewrite lookup_nil in Hl.
  discriminate.
Defined.

(** *** The address *)

Lemma splitlines_from_no_break : forall n (s cur : string),
  String.length s <= n -> sforall (neg is_linebreak) cur = true ->
  Forall (fun l => sforall (neg is_linebreak) l = true) (splitlines_from cur s).
Proof.
  induction n as [|n IH]; intros s cur Hn Hcur.
  - destruct s; [| simpl in Hn; lia]. simpl.
    destruct cur; [constructor |]. repeat constructor. now rewrite sforall_srev.
  - destruct s as [|c s]; simpl.
    + destruct cur; [constructor |]. repeat constructor. now rewrite sforall_srev.
    + simpl in Hn. destruct (is_linebreak c) eqn:Hc.
      * destruct s as [|d s].
        -- repeat constructor. now rewrite sforall_srev.
        -- simpl in Hn. destruct ((code c =? 13) && (code d =? 10)).
           ++ constructor; [now rewrite sforall_srev | apply IH; [lia | reflexivity]].
           ++ constructor; [now rewrite sforall_srev | apply IH; [simpl; lia | reflexivity]].
      * apply IH; [lia |]. simpl. unfold neg at 1. now rewrite Hc, Hcur.
Qed.

Lemma splitlines_no_break (s : string) :
  Forall (fun l => sforall (neg is_linebreak) l = true) (splitlines s).
Proof. apply (splitlines_from_no_break (String.length s)); [lia | reflexivity]. Qed.

Lemma address_scan_lines (lines : list string) : forall capture l,
  l ∈ address_scan capture lines -> exists x, x ∈ lines /\ l = strip x.
Proof.
  induction lines as [|line rest IH]; intros capture l; simpl; [intros H; inversion H |].
  assert (Hrec : forall b, l ∈ address_scan b rest ->
                           exists x, x ∈ line :: rest /\ l = strip x).
  { intros b H. apply IH in H as (x & Hx & ->). exists x. split; [now right | reflexivity]. }
  destruct (is_empty (strip line)); [intros H; eapply Hrec; exact H |].
  destruct (bool_decide _); [intros H; eapply Hrec; exact H |].
  destruct (contains "EFFECTIVE DATE" (strip line)); [intros H; inversion H |].
  destruct capture; [| intros H; eapply Hrec; exact H].
  intros H. apply elem_of_cons in H as [-> | H]; [| eapply Hrec; exact H].
  exists line. split; [left | reflexivity].
Qed.

Lemma address_scan_without_date (lines : list string) :
  (forall line, line ∈ lines -> rematch day_month_year (strip line) = None) ->
  address_scan false lines = [].
Proof.
  induction lines as [|line rest IH]; intros H; simpl; [reflexivity |].
  assert (Hrest : address_scan false rest = [])
    by (apply IH; intros l Hl; apply H; now right).
  destruct (is_empty (strip line)); [exact Hrest |].
  rewrite (H line) by left.
  rewrite bool_decide_eq_false_2 by (intros [x Hx]; discriminate).
  destruct (contains "EFFECTIVE DATE" (strip line)); [reflexivity | exact Hrest].
Qed.

(** X17.  The address of an account statement is one line: it holds no
    line boundary.  It is empty when no line of the text starts, once
    stripped, with a date of the form "day month year". *)
Theorem extract_address_one_line (text : string) :
  sforall (neg is_linebreak) (extract_address text) = true
  /\ ((forall line, line ∈ splitlines text -> rematch day_month_year (strip line) = None) ->
      extract_address text = "").
Proof.
  unfold extract_address. split.
  - apply sforall_join; [reflexivity |]. apply Forall_forall. intros l Hl.
    apply address_scan_lines in Hl as (x & Hx & ->).
    apply sforall_strip_by.
    pose proof (splitlines_no_break text) as H. rewrite Forall_forall in H. now apply H.
  - intros H. now rewrite address_scan_without_date.
Qed.

End StatementFacts.

Module DateLineFacts.
Import Py Re ReSem PyNum Spec Props StringFacts ReFacts ScanFacts NumFacts CleanNumberFacts
       CleanMoneyFacts EntriesFacts DateFacts TextFacts FloatFacts EntryFieldFacts StructuredEntryFacts
       AccountStatement.

Lemma digit_not_B c : is_digit c = true -> ci "B" c = false.
Proof. destruct c as [[] [] [] [] [] [] [] []]; vm_compute; intros; first [reflexivity | discriminate]. Qed.

Lemma slash_date_head (l : string) :
  is_slash_date l = true -> exists c rest, l = String c rest /\ is_digit c = true.
Proof.
  unfold is_slash_date, list_of_str.
  destruct l as [|c1 [|c2 [|c3 [|c4 [|c5 [|c6 [|c7 [|c8 [|c9 [|c10 [|c11 s]]]]]]]]]]];
    cbn [list_ascii_of_string]; try discriminate.
  intros H. do 9 (apply andb_true_iff in H as [H ?]).
  exists c1. eexists. split; [reflexivity | exact H].
Qed.

(** A stripped line is not both a debit note reference and a date. *)
Lemma debit_line_not_date (l : string) :
  strip l = l -> matches debit_pattern l = true -> matches date_pattern l = false.
Proof.
  intros Hs Hd. destruct (matches date_pattern l) eqn:E; [| reflexivity]. exfalso.
  apply date_line_shape in E; [| exact Hs].
  apply slash_date_head in E as (c & rest & -> & Hc).
  apply debit_line_shape in Hd as (b & r & Hb & Hci & _); [| exact Hs].
  injection Hb as <- _. rewrite (digit_not_B c Hc) in Hci. discriminate.
Qed.

Lemma filter_skip (lines : list string) (n : nat) (x : string) :
  lines !! n = Some x -> ~ date_line x ->
  filter date_line (drop n lines) = filter date_line (drop (S n) lines).
Proof.
  intros Hx Hn. rewrite (drop_S lines x n Hx). now rewrite filter_cons_False.
Qed.

(** The loop makes one entry for each date line, in order. *)
Lemma date_debit_premium_loop_dates (lines : list string) :
  Forall (fun l => strip l = l) lines ->
  forall fuel i l,
    length lines <= i + fuel -> date_debit_premium_loop fuel lines i = Ok l ->
    map se_effective_date l = filter date_line (drop i lines).
Proof.
  intros Hlines.
  assert (Hs : forall j x, lines !! j = Some x -> strip x = x).
  { intros j x Hx. rewrite Forall_forall in Hlines. apply Hlines.
    eapply list_elem_of_lookup_2; eauto. }
  induction fuel as [|fuel IH]; intros i l Hlen; simpl.
  - intros [= <-]. now rewrite drop_ge by lia.
  - destruct (lines !! i) as [line|] eqn:Eline.
    2: { intros [= <-]. apply lookup_ge_None_1 in Eline. now rewrite drop_ge by lia. }
    rewrite (drop_S lines line i Eline).
    destruct (matches date_pattern line) eqn:Edate.
    2: { rewrite filter_cons_False by (unfold date_line; congruence).
         replace (S i) with (i + 1) by lia. apply IH. lia. }
    rewrite filter_cons_True by exact Edate.
    assert (Hdn : forall dn j,
              (match lines !! (i + 1) with
               | Some l1 => if matches debit_pattern l1 then (Some l1, i + 1) else (None, i)
               | None => (None, i)
               end) = (dn, j) ->
              i <= j
              /\ filter date_line (drop (S i) lines) = filter date_line (drop (S j) lines)).
    { intros dn j. destruct (lines !! (i + 1)) as [l1|] eqn:E1.
      - destruct (matches debit_pattern l1) eqn:Ed; intros [= <- <-]; [| auto].
        split; [lia |]. replace (S i) with (i + 1) by lia.
        apply (filter_skip lines (i + 1) l1 E1). unfold date_line.
        rewrite (debit_line_not_date l1); [discriminate | eapply Hs; eauto | exact Ed].
      - intros [= <- <-]. auto. }
    destruct (match lines !! (i + 1) with Some l1 => _ | None => _ end) as [dn j].
    destruct (Hdn dn j eq_refl) as [Hij Hfj]. rewrite Hfj.
    destruct (lines !! (j + 1)) as [nl|] eqn:Enl.
    + destruct (matches date_pattern nl) eqn:Ednl; cbn [negb andb].
      * simpl. destruct (date_debit_premium_loop fuel lines (j + 1)) as [rest|] eqn:Er;
          [| discriminate].
        simpl. intros [= <-]. simpl. f_equal.
        replace (S j) with (j + 1) by lia. eapply IH; [lia | exact Er].
      * destruct (negb (matches debit_pattern nl) && has_digit nl).
        -- destruct (clean_number nl) as [p|]; [| discriminate]. simpl.
           destruct (date_debit_premium_loop fuel lines (j + 1 + 1)) as [rest|] eqn:Er;
             [| discriminate].
           simpl. intros [= <-]. simpl. f_equal.
           replace (S j) with (j + 1) by lia.
           rewrite (filter_skip lines (j + 1) nl Enl) by (unfold date_line; congruence).
           replace (S (j + 1)) with (j + 1 + 1) by lia. eapply IH; [lia | exact Er].
        -- simpl. destruct (date_debit_premium_loop fuel lines (j + 1)) as [rest|] eqn:Er;
             [| discriminate].
           simpl. intros [= <-]. simpl. f_equal.
           replace (S j) with (j + 1) by lia. eapply IH; [lia | exact Er].
    + simpl. destruct (date_debit_premium_loop fuel lines (j + 1)) as [rest|] eqn:Er;
        [| discriminate].
      simpl. intros [= <-]. simpl. f_equal.
      replace (S j) with (j + 1) by lia. eapply IH; [lia | exact Er].
Qed.

Lemma align_dates pairs ses :
  map effective_date (align pairs ses) = map se_effective_date ses.
Proof.
  apply list_eq. intros i. rewrite !list_lookup_fmap.
  destruct (align pairs ses !! i) as [e|] eqn:E.
  - apply align_lookup in E as (se & Hse & He & _). rewrite Hse. simpl. now rewrite He.
  - apply lookup_ge_None_1 in E. rewrite align_length in E.
    now rewrite (lookup_ge_None_2 ses i E).
Qed.

(** X18.  [parse_entries] makes one entry for each line of the corrected
    text that, once stripped, is a date dd/mm/yyyy and nothing else, in the
    order of the lines and with that line as its effective date; before
    them comes the entry of the header, when the header pattern is found,
    with the date of the header. *)
Theorem parse_entries_follow_date_lines (normalized_text : string) :
  exists entries,
    parse_entries normalized_text = Ok entries
    /\ map effective_date entries
       = match search header_pattern (clean_global_ocr normalized_text) with
         | Some m => [group 1 m]
         | None => []
         end ++ filter date_line (stripped_lines (clean_global_ocr normalized_text)).
Proof.
  unfold parse_entries. set (text := clean_global_ocr normalized_text).
  destruct (structured_entries_of_ok text) as [ses Hses]. rewrite Hses. simpl.
  eexists. split; [reflexivity |]. rewrite align_dates.
  unfold structured_entries_of in Hses.
  destruct (extract_header_entry text) as [o|] eqn:Eh; [| discriminate]. simpl in Hses.
  destruct (extract_date_debit_premium text) as [col|] eqn:Ec; [| discriminate].
  simpl in Hses. injection Hses as <-.
  assert (Hcol : map se_effective_date col = filter date_line (stripped_lines text)).
  { unfold extract_date_debit_premium in Ec.
    change (stripped_lines text) with (drop 0 (stripped_lines text)) at 1.
    eapply date_debit_premium_loop_dates; [apply stripped_lines_stripped | | exact Ec]. lia. }
  unfold extract_header_entry in Eh. destruct (search header_pattern text) as [m|].
  - destruct (extract_header_premium_from_block text); [| discriminate].
    simpl in Eh. injection Eh as <-. simpl. now rewrite Hcol.
  - injection Eh as <-. exact Hcol.
Qed.

End DateLineFacts.

(* ===================================================================== *)
(** ** The renewal notice *)
(* ===================================================================== *)

Module RenewalFieldFacts.
Import Py Re ReSem PyNum Spec Props StringFacts ReFacts ScanFacts NumFacts CleanNumberFacts
       CleanMoneyFacts DateFacts TextFacts RenewalNotice.

Lemma renewal_code_class c : either AZ09 (is_char "-") c = true -> code_char c = true.
Proof. destruct c as [[] [] [] [] [] [] [] []]; vm_compute; intros; first [reflexivity | discriminate]. Qed.

Lemma renewal_alnum_class c : AZ09 c = true -> letter_or_digit c = true.
Proof. destruct c as [[] [] [] [] [] [] [] []]; vm_compute; intros; first [reflexivity | discriminate]. Qed.

Lemma code_char_no_space c : code_char c = true -> neg is_space c = true.
Proof. destruct c as [[] [] [] [] [] [] [] []]; vm_compute; intros; first [reflexivity | discriminate]. Qed.

Lemma code_char_no_blank c : code_char c = true -> negb (Ascii.eqb " " c) = true.
Proof. destruct c as [[] [] [] [] [] [] [] []]; vm_compute; intros; first [reflexivity | discriminate]. Qed.

Lemma letter_or_digit_code c : letter_or_digit c = true -> code_char c = true.
Proof. unfold code_char, letter_or_digit. intros ->. reflexivity. Qed.

(** X19.  The policy number of a renewal notice holds letters, digits and
    hyphens only, and its A/C code letters and digits only; each is empty
    exactly when its label is not found. *)
Theorem renewal_codes_shape (text : string) :
  sforall code_char (extract_policy_number_r text) = true
  /\ (extract_policy_number_r text = "" <-> search policy_number_pattern text = None)
  /\ sforall letter_or_digit (extract_ac_code text) = true
  /\ (extract_ac_code text = "" <-> search ac_code_pattern text = None).
Proof.
  assert (Hpol : forall m, search policy_number_pattern text = Some m ->
            sforall code_char (group 1 m) = true /\ group 1 m <> "").
  { intros m E. apply search_from_sound in E as (pre & w & _ & M & _).
    unfold policy_number_pattern in M. cbn [cats ilit] in M.
    unfold star, plus, opt_chr in M. invert_outer.
    match goal with
    | M4 : Matches (Grp 1 _) _ _ _ _ |- _ =>
        apply Grp_reads in M4 as (p & gs & Hp & Hcaps & M5)
    end.
    unfold group. rewrite Hcaps. cbn [cap_get Nat.eqb].
    inversion M5; subst. group_text Hp. subst p. split.
    - eapply sforall_impl; [apply renewal_code_class | assumption].
    - intros ->. simpl in *. lia. }
  assert (Hac : forall m, search ac_code_pattern text = Some m ->
            exists w, m_caps m = [(1, w)] /\ sforall letter_or_digit w = true /\ w <> "").
  { intros m E. apply search_from_sound in E as (pre & w & _ & M & _).
    unfold ac_code_pattern in M. cbn [cats ilit] in M.
    unfold plus in M. invert_outer.
    match goal with
    | M4 : Matches (Grp 1 _) _ _ _ _ |- _ =>
        apply Grp_reads in M4 as (p & gs & Hp & Hcaps & M5)
    end.
    inversion M5; subst. group_text Hp. subst p. eexists. split; [exact Hcaps |]. split.
    - eapply sforall_impl; [apply renewal_alnum_class | assumption].
    - intros ->. simpl in *. lia. }
  assert (Hclean : forall w, sforall code_char w = true -> strip (replace " " "" w) = w).
  { intros w Hw. rewrite delete_char.
    rewrite sfilter_all by (eapply sforall_impl; [apply code_char_no_blank | exact Hw]).
    apply strip_by_none. eapply sforall_impl; [apply code_char_no_space | exact Hw]. }
  unfold extract_policy_number_r, extract_ac_code, extract_first.
  destruct (search policy_number_pattern text) as [m|] eqn:E1.
  - destruct (Hpol m eq_refl) as [Hc Hne]. rewrite (Hclean _ Hc).
    split; [exact Hc |]. split; [split; [congruence | discriminate] |].
    destruct (search ac_code_pattern text) as [m2|] eqn:E2.
    + destruct (Hac m2 eq_refl) as (w & Hcaps & Hw & Hwne).
      unfold group. rewrite Hcaps. cbn [cap_get Nat.eqb].
      unfold strip. rewrite strip_by_none
        by (eapply sforall_impl; [| exact Hw]; intros c Hc';
            apply code_char_no_space, letter_or_digit_code, Hc').
      split; [exact Hw | split; [congruence | discriminate]].
    + split; [reflexivity | split; reflexivity].
  - split; [reflexivity |]. split; [split; reflexivity |].
    destruct (search ac_code_pattern text) as [m2|] eqn:E2.
    + destruct (Hac m2 eq_refl) as (w & Hcaps & Hw & Hwne).
      unfold group. rewrite Hcaps. cbn [cap_get Nat.eqb].
      unfold strip. rewrite strip_by_none
        by (eapply sforall_impl; [| exact Hw]; intros c Hc';
            apply code_char_no_space, letter_or_digit_code, Hc').
      split; [exact Hw | split; [congruence | discriminate]].
    + split; [reflexivity | split; reflexivity].
Qed.

(** *** [fix_ocr_numbers] *)

Lemma fix_ocr_numbers_map (line : string) :
  fix_ocr_numbers line = smap fix_char line.
Proof.
  unfold fix_ocr_numbers, corrections. cbn [fold_left fst snd].
  rewrite !replace_char, !smap_smap. apply smap_ext. intros c.
  destruct c as [[] [] [] [] [] [] [] []]; vm_compute; reflexivity.
Qed.

Lemma fix_char_fixed c : neg (one_of "QoOzZl|I") (fix_char c) = true.
Proof. destruct c as [[] [] [] [] [] [] [] []]; vm_compute; reflexivity. Qed.

Lemma fix_char_idem c : fix_char (fix_char c) = fix_char c.
Proof. destruct c as [[] [] [] [] [] [] [] []]; vm_compute; reflexivity. Qed.

Lemma fix_char_id c : neg (one_of "QoOzZl|I") c = true -> fix_char c = c.
Proof. destruct c as [[] [] [] [] [] [] [] []]; vm_compute; intros; first [reflexivity | discriminate]. Qed.

Lemma sforall_all p (s : string) : (forall c, p c = true) -> sforall p s = true.
Proof. intros H. induction s as [|c s IH]; simpl; [reflexivity | now rewrite H, IH]. Qed.

(** X20.  [fix_ocr_numbers] works character by character: the result has
    the length of the line and holds none of the characters Q, o, O, z, Z,
    l, | and I; applying it again changes nothing, and a line without these
    characters is left as it is. *)
Theorem fix_ocr_numbers_chars (line : string) :
  String.length (fix_ocr_numbers line) = String.length line
  /\ sforall (neg (one_of "QoOzZl|I")) (fix_ocr_numbers line) = true
  /\ fix_ocr_numbers (fix_ocr_numbers line) = fix_ocr_numbers line
  /\ (sforall (neg (one_of "QoOzZl|I")) line = true -> fix_ocr_numbers line = line).
Proof.
  rewrite !fix_ocr_numbers_map. split; [apply length_smap |]. split; [| split].
  - rewrite sforall_smap. apply sforall_all. apply fix_char_fixed.
  - rewrite smap_smap. apply smap_ext. apply fix_char_idem.
  - apply smap_id_on. apply fix_char_id.
Qed.

End RenewalFieldFacts.

Module NormalizeFacts.
Import Py Re ReSem PyNum Spec Props StringFacts ReFacts ScanFacts NumFacts CleanNumberFacts
       CleanMoneyFacts DateFacts TextFacts RenewalNotice.

Lemma srev_nonempty (s : string) : s <> "" -> srev s <> "".
Proof.
  intros H E. apply (f_equal String.length) in E. rewrite length_srev in E.
  destruct s; [congruence | discriminate].
Qed.

(** *** [split] on white space *)

Lemma split_ws_from_words (s : string) : forall cur,
  sforall (neg is_space) cur = true -> Forall word (split_ws_from cur s).
Proof.
  assert (Hw : forall cur, cur <> "" -> sforall (neg is_space) cur = true -> word (srev cur)).
  { intros cur Hne Hc. split; [now apply srev_nonempty | now rewrite sforall_srev]. }
  induction s as [|c s IH]; intros cur Hcur; simpl.
  - destruct cur; [constructor |]. repeat constructor; now apply Hw.
  - destruct (is_space c) eqn:Hc.
    + destruct cur; [now apply IH |]. constructor; [now apply Hw | now apply IH].
    + apply IH. simpl. unfold neg at 1. now rewrite Hc.
Qed.

Lemma split_ws_from_nonempty (s : string) : forall cur,
  cur <> "" -> split_ws_from cur s <> [].
Proof.
  induction s as [|c s IH]; intros cur Hcur; simpl.
  - destruct cur; [congruence | discriminate].
  - destruct (is_space c); [destruct cur; [congruence | discriminate] |].
    apply IH. discriminate.
Qed.

Lemma split_ws_from_word (w : string) : forall cur rest,
  sforall (neg is_space) w = true ->
  split_ws_from cur (w +:+ rest) = split_ws_from (srev_onto w cur) rest.
Proof.
  induction w as [|c w IH]; intros cur rest Hw; [reflexivity |].
  simpl in Hw. apply andb_true_iff in Hw as [Hc Hw].
  unfold neg in Hc. apply negb_true_iff in Hc. simpl. rewrite Hc. now apply IH.
Qed.

Lemma srev_onto_nonempty (w cur : string) : w <> "" -> srev_onto w cur <> "".
Proof.
  intros Hw E. rewrite srev_onto_app in E. apply (f_equal String.length) in E.
  rewrite length_append, length_srev in E. destruct w; [congruence | simpl in E; lia].
Qed.

Lemma split_ws_join (ws : list string) :
  Forall word ws -> split_ws (join " " ws) = ws.
Proof.
  unfold split_ws. induction 1 as [|w ws [Hne Hw] Hws IH]; [reflexivity |].
  destruct ws as [|w2 ws].
  - simpl. rewrite <- (append_nil_r w) at 1. rewrite split_ws_from_word by exact Hw.
    simpl. pose proof (srev_onto_nonempty w "" Hne) as Hn.
    destruct (srev_onto w "") eqn:E; [congruence |].
    rewrite <- E. fold (srev w). now rewrite srev_involutive.
  - change (join " " (w :: w2 :: ws)) with (w +:+ String " " (join " " (w2 :: ws))).
    rewrite split_ws_from_word by exact Hw. simpl.
    pose proof (srev_onto_nonempty w "" Hne) as Hn.
    destruct (srev_onto w "") eqn:E; [congruence |].
    rewrite <- E. fold (srev w). rewrite srev_involutive. f_equal. exact IH.
Qed.

(** *** [split] on one character *)

Lemma split_char_from_line (sep : ascii) (l : string) : forall cur rest,
  sforall (fun c => negb (Ascii.eqb c sep)) l = true ->
  split_char_from sep cur (l +:+ rest) = split_char_from sep (srev_onto l cur) rest.
Proof.
  induction l as [|c l IH]; intros cur rest Hl; [reflexivity |].
  simpl in Hl. apply andb_true_iff in Hl as [Hc Hl].
  apply negb_true_iff in Hc. simpl. rewrite Hc. now apply IH.
Qed.

Lemma split_char_join (sep : ascii) (ls : list string) :
  ls <> [] -> Forall (fun l => sforall (fun c => negb (Ascii.eqb c sep)) l = true) ls ->
  split_char sep (join (String sep "") ls) = ls.
Proof.
  unfold split_char. intros Hne H. induction H as [|l ls Hl Hls IH]; [congruence |].
  destruct ls as [|l2 ls].
  - simpl. rewrite <- (append_nil_r l) at 1. rewrite split_char_from_line by exact Hl.
    simpl. fold (srev l). now rewrite srev_involutive.
  - change (join (String sep "") (l :: l2 :: ls))
      with (l +:+ String sep (join (String sep "") (l2 :: ls))).
    rewrite split_char_from_line by exact Hl. simpl. rewrite Ascii.eqb_refl.
    fold (srev l). rewrite srev_involutive. f_equal. apply IH. discriminate.
Qed.

(** *** Tidy lines *)

Lemma join_starts (sep : string) (w : string) (ws : list string) :
  exists tail, join sep (w :: ws) = w +:+ tail.
Proof.
  destruct ws as [|w2 ws]; [exists ""; simpl; now rewrite append_nil_r |].
  eexists. reflexivity.
Qed.

Lemma join_ends (sep : string) (ws : list string) (w : string) :
  exists pre, join sep (ws ++ [w]) = pre +:+ w.
Proof.
  induction ws as [|x ws [pre IH]]; [now exists "" |].
  destruct ws as [|y ws].
  - exists (x +:+ sep). simpl. now rewrite append_assoc.
  - exists (x +:+ sep +:+ pre).
    change (join sep ((x :: y :: ws) ++ [w])) with (x +:+ sep +:+ join sep ((y :: ws) ++ [w])).
    rewrite IH. now rewrite !append_assoc.
Qed.

Lemma word_head (w tail : string) :
  word w -> match w +:+ tail with String a _ => is_space a = false | EmptyString => True end.
Proof.
  intros [Hne Hw]. destruct w as [|a w]; [congruence |]. simpl in *.
  apply andb_true_iff in Hw as [Ha _]. now apply negb_true_iff in Ha.
Qed.

Lemma tidy_line_strip (l : string) : tidy_line l -> strip l = l.
Proof.
  intros (ws & Hne & Hws & ->). apply strip_by_ends.
  - destruct ws as [|w ws]; [congruence |].
    destruct (join_starts " " w ws) as [tail ->]. apply word_head. now inversion Hws.
  - destruct (exists_last Hne) as (ws' & w & ->).
    destruct (join_ends " " ws' w) as [pre ->]. rewrite srev_app.
    apply word_head. apply Forall_app in Hws as [_ Hw]. inversion Hw as [|? ? [Hn Hs] _]; subst.
    split; [now apply srev_nonempty | now rewrite sforall_srev].
Qed.

Lemma tidy_line_nonempty (l : string) : tidy_line l -> is_empty l = false.
Proof.
  intros (ws & Hne & Hws & ->). destruct ws as [|w ws]; [congruence |].
  destruct (join_starts " " w ws) as [tail ->]. inversion Hws as [|? ? [Hn _] _]; subst.
  destruct w; [congruence | reflexivity].
Qed.

Lemma tidy_line_collapse (l : string) : tidy_line l -> join " " (split_ws l) = l.
Proof. intros (ws & Hne & Hws & ->). now rewrite split_ws_join. Qed.

Lemma tidy_line_class (q : ascii -> bool) (l : string) :
  q " "%char = true -> (forall c, is_space c = false -> q c = true) ->
  tidy_line l -> sforall q l = true.
Proof.
  intros Hb Hq (ws & Hne & Hws & ->). apply sforall_join; [simpl; now rewrite Hb |].
  eapply Forall_impl; [exact Hws |]. intros w [_ Hw]. eapply sforall_impl; [| exact Hw].
  intros c Hc. apply Hq. unfold neg in Hc. now apply negb_true_iff in Hc.
Qed.

(** What [normalize_ocr_text] makes of a stripped line that is not empty. *)
Lemma collapse_tidy (t : string) :
  is_empty (strip t) = false -> tidy_line (join " " (split_ws (strip t))).
Proof.
  intros Hne. exists (split_ws (strip t)). split; [| split; [| reflexivity]].
  - pose proof (strip_by_head is_space t) as Hh. fold (strip t) in Hh.
    destruct (strip t) as [|c s]; [discriminate |].
    unfold split_ws. simpl. rewrite Hh. apply split_ws_from_nonempty. discriminate.
  - apply split_ws_from_words. reflexivity.
Qed.

Lemma normalize_ocr_text_lines (raw_text : string) :
  exists ls, Forall tidy_line ls /\ normalize_ocr_text raw_text = join NL ls.
Proof.
  unfold normalize_ocr_text. destruct (is_empty raw_text); [now exists [] |].
  eexists. split; [| reflexivity].
  apply Forall_forall. intros l Hl.
  apply list_elem_of_fmap in Hl as (t & -> & Ht).
  apply list_elem_of_filter in Ht as [Hne Ht].
  apply list_elem_of_fmap in Ht as (p & -> & _).
  now apply collapse_tidy.
Qed.

Lemma map_fixed {A : Type} (f : A -> A) (l : list A) :
  Forall (fun x => f x = x) l -> map f l = l.
Proof. induction 1 as [|x l Hx _ IH]; simpl; [reflexivity | now rewrite Hx, IH]. Qed.

Lemma filter_all_non_empty (l : list string) :
  Forall (fun x => is_empty x = false) l -> filter non_empty l = l.
Proof.
  induction 1 as [|x l Hx _ IH]; [reflexivity |].
  rewrite filter_cons_True by exact Hx. now rewrite IH.
Qed.

Lemma newline_not_word c : is_space c = false -> negb (Ascii.eqb c newline) = true.
Proof. destruct c as [[] [] [] [] [] [] [] []]; vm_compute; intros; first [reflexivity | discriminate]. Qed.

Lemma return_not_word c : is_space c = false -> swap_char (ascii_of_nat 13) newline c = c.
Proof. destruct c as [[] [] [] [] [] [] [] []]; vm_compute; intros; first [reflexivity | discriminate]. Qed.

Lemma normalize_ocr_text_tidy (ls : list string) :
  Forall tidy_line ls -> normalize_ocr_text (join NL ls) = join NL ls.
Proof.
  intros H. destruct ls as [|l1 ls]; [reflexivity |].
  unfold normalize_ocr_text.
  assert (Hne : is_empty (join NL (l1 :: ls)) = false).
  { destruct (join_starts NL l1 ls) as [tail ->].
    inversion H as [|? ? H1 _]; subst. apply tidy_line_nonempty in H1.
    destruct l1; [discriminate | reflexivity]. }
  rewrite Hne.
  assert (Hcr : replace CR NL (join NL (l1 :: ls)) = join NL (l1 :: ls)).
  { unfold CR, NL. rewrite replace_char.
    apply (smap_id_on (fun c => Ascii.eqb c newline || Ascii.eqb c " " || negb (is_space c))).
    - intros c Hc. destruct c as [[] [] [] [] [] [] [] []]; vm_compute in Hc |- *;
        first [reflexivity | discriminate].
    - apply sforall_join; [reflexivity |].
      eapply Forall_impl; [exact H |]. intros l Hl.
      apply tidy_line_class; [reflexivity | | exact Hl].
      intros c Hc. rewrite Hc. simpl. apply orb_true_r. }
  rewrite Hcr. unfold NL at 2. rewrite split_char_join.
  - rewrite (map_fixed strip)
      by (eapply Forall_impl; [exact H | apply tidy_line_strip]).
    rewrite filter_all_non_empty
      by (eapply Forall_impl; [exact H | apply tidy_line_nonempty]).
    rewrite (map_fixed (fun line => join " " (split_ws line)))
      by (eapply Forall_impl; [exact H | apply tidy_line_collapse]).
    reflexivity.
  - discriminate.
  - eapply Forall_impl; [exact H |]. intros l Hl.
    apply tidy_line_class; [reflexivity | apply newline_not_word | exact Hl].
Qed.

End NormalizeFacts.

Module AmountFacts.
Import Py Re ReSem PyNum Spec Props StringFacts ReFacts ScanFacts NumFacts CleanNumberFacts
       CleanMoneyFacts DateFacts TextFacts NormalizeFacts RenewalFieldFacts RenewalNotice.

(** *** [emap] *)

Lemma emap_ok_length {A B : Type} (f : A -> exc B) (l : list A) : forall ys,
  emap f l = Ok ys -> length ys = length l.
Proof.
  induction l as [|a l IH]; intros ys; simpl; [now intros [= <-] |].
  destruct (f a) as [b|]; [| discriminate]. simpl.
  destruct (emap f l) as [bs|]; [| discriminate]. simpl.
  intros [= <-]. simpl. now rewrite (IH bs).
Qed.

Lemma emap_raise {A B : Type} (f : A -> exc B) (l : list A) e :
  emap f l = Raise e -> exists x, x ∈ l /\ f x = Raise e.
Proof.
  induction l as [|a l IH]; simpl; [discriminate |].
  destruct (f a) as [b|e'] eqn:Ea; simpl.
  - destruct (emap f l) as [bs|e'']; simpl; [discriminate |].
    intros [= <-]. destruct (IH eq_refl) as (x & Hx & Hf). exists x. split; [now right | exact Hf].
  - intros [= <-]. exists a. split; [left | exact Ea].
Qed.

Lemma emap_raises {A B : Type} (f : A -> exc B) (l : list A) x :
  x ∈ l -> (exists e, f x = Raise e) -> exists e, emap f l = Raise e.
Proof.
  intros Hx [e He]. induction l as [|a l IH]; [inversion Hx |]. simpl.
  destruct (f a) as [b|e'] eqn:Ea; simpl; [| eauto].
  apply elem_of_cons in Hx as [-> | Hx]; [congruence |].
  destruct (IH Hx) as [e'' ->]. simpl. eauto.
Qed.

(** *** The tokens of an amount line *)

Lemma amount_token_shape (s tok : string) :
  tok ∈ findall amount_pattern s ->
  (exists w1 w2,
     tok = w1 +:+ "." +:+ w2 /\ sforall digit_or_comma w1 = true
     /\ sforall is_digit w2 = true /\ w2 <> "")
  \/ (tok <> "" /\ sforall digit_or_comma tok = true).
Proof.
  intros H. apply findall_sound in H as (pre & prev & rest & [prev' s'] & g' & _ & M & Hr).
  simpl in Hr. subst s'. unfold amount_pattern, cats, plus in M.
  inversion M as [| | | ? ? ? ? ? ? MA | ? ? ? ? ? ? MB | | | | | | | | |]; subst.
  - left. invert_match.
    try match goal with
        | H : _ = tok +:+ rest |- _ => symmetry in H
        end.
    match goal with
    | H : tok +:+ rest = ?a +:+ String ?d (?b +:+ rest) |- _ =>
        change (a +:+ String d (b +:+ rest)) with (a +:+ String d "" +:+ b +:+ rest) in H;
        rewrite <- (append_assoc (String d "") b rest),
                <- (append_assoc a (String d "" +:+ b) rest) in H;
        apply append_inv_tail in H; subst tok; exists a, b
    end.
    match goal with
    | H : is_char "." ?d = true |- _ => apply Ascii.eqb_eq in H; subst
    end.
    repeat split; auto. intros ->. simpl in *. lia.
  - right. invert_match.
    try match goal with
        | H : _ = tok +:+ rest |- _ => symmetry in H
        end.
    match goal with
    | H : tok +:+ rest = ?a +:+ rest |- _ => apply append_inv_tail in H; subst tok
    end.
    split; [intros ->; simpl in *; lia | assumption].
Qed.

Lemma no_comma_digit c :
  digit_or_comma c = true -> negb (Ascii.eqb "," c) = true -> is_digit c = true.
Proof. destruct c as [[] [] [] [] [] [] [] []]; vm_compute; intros; first [reflexivity | discriminate]. Qed.

Lemma digit_no_comma c : is_digit c = true -> negb (Ascii.eqb "," c) = true.
Proof. destruct c as [[] [] [] [] [] [] [] []]; vm_compute; intros; first [reflexivity | discriminate]. Qed.

Lemma only_commas c :
  digit_or_comma c = true -> neg (fun c => negb (Ascii.eqb "," c)) c = true ->
  is_char "," c = true.
Proof. destruct c as [[] [] [] [] [] [] [] []]; vm_compute; intros; first [reflexivity | discriminate]. Qed.

Lemma comma_deleted c : is_char "," c = true -> neg (fun c => negb (Ascii.eqb "," c)) c = true.
Proof. destruct c as [[] [] [] [] [] [] [] []]; vm_compute; intros; first [reflexivity | discriminate]. Qed.

Lemma delete_commas_digits (w : string) :
  sforall digit_or_comma w = true ->
  sforall is_digit (sfilter (fun c => negb (Ascii.eqb "," c)) w) = true.
Proof.
  intros H. apply (sforall_sfilter_class _ digit_or_comma); [| exact H].
  intros c Hc Hn. now apply no_comma_digit.
Qed.

Lemma parse_decimal_fraction (ip fp : string) :
  fp <> "" -> sforall is_digit ip = true -> sforall is_digit fp = true ->
  is_Some (parse_decimal (ip +:+ "." +:+ fp)).
Proof.
  intros Hne Hip Hfp. unfold parse_decimal.
  rewrite (span_stop is_digit ip ("." +:+ fp) Hip) by reflexivity.
  simpl. rewrite (span_all _ _ Hfp).
  destruct fp; [congruence |]. rewrite andb_false_r. simpl. eauto.
Qed.

(** [float] fails on a token, once its commas are deleted, exactly when
    the token holds nothing but commas. *)
Lemma amount_token_float (s tok : string) :
  tok ∈ findall amount_pattern s ->
  py_float (replace "," "" tok) = None <-> sforall (is_char ",") tok = true.
Proof.
  intros Htok. rewrite delete_char. split.
  - intros Hf. destruct (amount_token_shape s tok Htok)
      as [(w1 & w2 & -> & H1 & H2 & Hne) | [Hne Hd]].
    + exfalso. rewrite !sfilter_app in Hf.
      rewrite (sfilter_all _ w2) in Hf
        by (eapply sforall_impl; [apply digit_no_comma | exact H2]).
      change (sfilter (fun c => negb (Ascii.eqb "," c)) ".") with "." in Hf.
      set (d1 := sfilter _ w1) in Hf.
      assert (Hd1 : sforall is_digit d1 = true) by (now apply delete_commas_digits).
      rewrite py_float_digit_or_dot in Hf.
      * destruct (parse_decimal_fraction d1 w2 Hne Hd1 H2) as [q Hq].
        rewrite Hq in Hf. discriminate.
      * rewrite !sforall_app.
        rewrite (sforall_impl is_digit digit_or_dot d1 digit_is_digit_or_dot Hd1).
        rewrite (sforall_impl is_digit digit_or_dot w2 digit_is_digit_or_dot H2).
        reflexivity.
    + set (d := sfilter _ tok) in Hf.
      assert (Hdd : sforall is_digit d = true) by (now apply delete_commas_digits).
      destruct (string_dec d "") as [E | E].
      * apply sfilter_empty_iff in E.
        eapply sforall_impl; [| exact (conj_sforall _ _ _ Hd E)].
        intros c Hc. apply andb_true_iff in Hc as [Hc1 Hc2]. now apply only_commas.
      * rewrite (py_float_digits d E Hdd) in Hf. discriminate.
  - intros Hc. rewrite sfilter_none; [reflexivity |].
    eapply sforall_impl; [apply comma_deleted | exact Hc].
Qed.

End AmountFacts.

Module RenewalFacts.
Import Py Re ReSem PyNum Spec Props StringFacts ReFacts ScanFacts NumFacts CleanNumberFacts
       CleanMoneyFacts DateFacts TextFacts NormalizeFacts RenewalFieldFacts AmountFacts
       RenewalNotice.

(** X21.  [normalize_ocr_text] is idempotent.  What it returns is a sequence
    of lines separated by single newlines, each line a sequence of words,
    at least one, separated by single blanks. *)
Theorem normalize_ocr_text_idempotent (raw_text : string) :
  normalize_ocr_text (normalize_ocr_text raw_text) = normalize_ocr_text raw_text
  /\ exists ls, Forall tidy_line ls /\ normalize_ocr_text raw_text = join NL ls.
Proof.
  destruct (normalize_ocr_text_lines raw_text) as (ls & Hls & E).
  split; [| eauto]. rewrite E. now apply normalize_ocr_text_tidy.
Qed.

Lemma float_or_raise_raises (s : string) :
  (exists e, float_or_raise s = Raise e) <-> py_float s = None.
Proof.
  unfold float_or_raise. destruct (py_float s); split; try discriminate; eauto.
  intros [e H]. discriminate.
Qed.

Lemma pymax_ok (l : list pyfloat) : l <> [] -> exists v, pymax l = Ok v.
Proof. destruct l; [congruence | simpl; eauto]. Qed.

(** An amount line raises exactly when one of its tokens holds nothing but
    commas. *)
Lemma amount_of_line_raises (line : string) :
  (exists e, amount_of_line line = Raise e)
  <-> exists tok,
        tok ∈ findall amount_pattern (fix_ocr_numbers line)
        /\ sforall (is_char ",") tok = true.
Proof.
  unfold amount_of_line. set (toks := findall amount_pattern (fix_ocr_numbers line)).
  assert (Htok : forall t, t ∈ toks ->
            py_float (replace "," "" t) = None <-> sforall (is_char ",") t = true)
    by (intros t Ht; eapply amount_token_float; exact Ht).
  clearbody toks. split.
  - intros [e He]. destruct toks as [|t0 toks]; [discriminate |].
    destruct (emap float_or_raise (map (replace "," "") (t0 :: toks))) as [nums|e'] eqn:E.
    + exfalso. apply emap_ok_length in E. rewrite length_map in E.
      destruct (pymax_ok nums) as [v Hv]; [destruct nums; [discriminate | discriminate] |].
      simpl in He. rewrite Hv in He. discriminate.
    + apply emap_raise in E as (x & Hx & Hf).
      apply list_elem_of_fmap in Hx as (t & -> & Ht).
      exists t. split; [exact Ht |]. apply (Htok t Ht).
      apply float_or_raise_raises. eauto.
  - intros (t & Ht & Hc). destruct toks as [|t0 toks]; [inversion Ht |].
    destruct (emap_raises float_or_raise (map (replace "," "") (t0 :: toks)) (replace "," "" t))
      as [e He].
    + apply list_elem_of_fmap. eauto.
    + apply float_or_raise_raises. now apply (Htok t Ht).
    + rewrite He. simpl. eauto.
Qed.

(** X22.  [extract_renewal_entries] raises exactly when the block between
    EMPLOYEES and TOTAL has an amount line, the third or a later line that
    is not blank, one of whose numeric tokens holds nothing but commas; in
    every other case it returns. *)
Theorem extract_renewal_entries_raises_iff (text : string) :
  (exists e, extract_renewal_entries text = Raise e)
  <-> exists m line tok,
        search block_pattern text = Some m
        /\ line ∈ amount_lines_of (block_lines (group 0 m))
        /\ tok ∈ findall amount_pattern (fix_ocr_numbers line)
        /\ sforall (is_char ",") tok = true.
Proof.
  unfold extract_renewal_entries. split.
  - intros [e He]. destruct (search block_pattern text) as [m|]; [| discriminate].
    destruct (emap amount_of_line (amount_lines_of (block_lines (group 0 m))))
      as [amounts|e'] eqn:E; [discriminate |].
    apply emap_raise in E as (line & Hl & Hf).
    destruct (proj1 (amount_of_line_raises line) (ex_intro _ e' Hf)) as (tok & Ht & Hc).
    exists m, line, tok. auto.
  - intros (m & line & tok & -> & Hl & Ht & Hc).
    destruct (emap_raises amount_of_line _ line Hl) as [e ->].
    + apply amount_of_line_raises. eauto.
    + simpl. eauto.
Qed.

(** *** Texts without a comma *)

Lemma split_char_from_class (q : ascii -> bool) (sep : ascii) (s : string) : forall cur,
  sforall q cur = true -> sforall q s = true ->
  Forall (fun l => sforall q l = true) (split_char_from sep cur s).
Proof.
  induction s as [|c s IH]; intros cur Hcur Hs; simpl.
  - repeat constructor. now rewrite sforall_srev.
  - simpl in Hs. apply andb_true_iff in Hs as [Hc Hs]. destruct (Ascii.eqb c sep).
    + constructor; [now rewrite sforall_srev | now apply IH].
    + apply IH; [simpl; now rewrite Hc, Hcur | exact Hs].
Qed.

Lemma split_ws_from_class (q : ascii -> bool) (s : string) : forall cur,
  sforall q cur = true -> sforall q s = true ->
  Forall (fun l => sforall q l = true) (split_ws_from cur s).
Proof.
  induction s as [|c s IH]; intros cur Hcur Hs; simpl.
  - destruct cur; [constructor |]. repeat constructor. now rewrite sforall_srev.
  - simpl in Hs. apply andb_true_iff in Hs as [Hc Hs]. destruct (is_space c).
    + destruct cur; [now apply IH |].
      constructor; [now rewrite sforall_srev | now apply IH].
    + apply IH; [simpl; now rewrite Hc, Hcur | exact Hs].
Qed.

Lemma stripped_pieces_class (q : ascii -> bool) (s : string) :
  sforall q s = true ->
  Forall (fun l => sforall q l = true) (filter non_empty (map strip (split_char newline s))).
Proof.
  intros Hs. apply Forall_forall. intros l Hl.
  apply list_elem_of_filter in Hl as [_ Hl].
  apply list_elem_of_fmap in Hl as (p & -> & Hp).
  apply sforall_strip_by.
  pose proof (split_char_from_class q newline s "" eq_refl Hs) as H.
  rewrite Forall_forall in H. now apply H.
Qed.

Lemma normalize_ocr_text_class (q : ascii -> bool) (raw_text : string) :
  q " "%char = true -> q newline = true ->
  sforall q raw_text = true -> sforall q (normalize_ocr_text raw_text) = true.
Proof.
  intros Hb Hn Hraw. unfold normalize_ocr_text. destruct (is_empty raw_text); [reflexivity |].
  apply sforall_join; [simpl; now rewrite Hn |].
  apply Forall_forall. intros l Hl.
  apply list_elem_of_fmap in Hl as (t & -> & Ht).
  apply sforall_join; [simpl; now rewrite Hb |].
  apply split_ws_from_class; [reflexivity |].
  assert (H : Forall (fun l => sforall q l = true)
                (filter non_empty (map strip (split_char newline (replace CR NL raw_text))))).
  { apply stripped_pieces_class. unfold CR, NL. rewrite replace_char, sforall_smap.
    eapply sforall_impl; [| exact Hraw]. intros c Hc. unfold swap_char.
    destruct (Ascii.eqb _ c); [exact Hn | exact Hc]. }
  rewrite Forall_forall in H. now apply H.
Qed.

Lemma fix_char_comma c : neg (is_char ",") c = true -> neg (is_char ",") (fix_char c) = true.
Proof. destruct c as [[] [] [] [] [] [] [] []]; vm_compute; intros; first [reflexivity | discriminate]. Qed.

Lemma comma_free_no_comma_token (s tok : string) :
  comma_free s -> tok ∈ findall amount_pattern s -> sforall (is_char ",") tok = true -> False.
Proof.
  intros Hs Ht Hc.
  assert (Hne : tok <> "").
  { destruct (amount_token_shape s tok Ht) as [(w1 & w2 & -> & _) | [Hne _]]; [| exact Hne].
    intros E. apply (f_equal String.length) in E. rewrite !length_append in E.
    simpl in E. lia. }
  apply findall_sound in Ht as (pre & prev & rest & c' & g' & -> & _).
  unfold comma_free in Hs. rewrite !sforall_app in Hs.
  apply andb_true_iff in Hs as [_ Hs]. apply andb_true_iff in Hs as [Hs _].
  destruct tok as [|a tok]; [congruence |]. cbn [sforall] in Hs, Hc.
  apply andb_true_iff in Hs as [Hs _]. apply andb_true_iff in Hc as [Hc _].
  unfold neg in Hs. rewrite Hc in Hs. discriminate.
Qed.

Lemma extract_renewal_entries_comma_free (text : string) :
  comma_free text -> exists entries, extract_renewal_entries text = Ok entries.
Proof.
  intros Hfree. destruct (extract_renewal_entries text) as [entries|e] eqn:E; [eauto |].
  exfalso.
  assert (Hr : exists e, extract_renewal_entries text = Raise e) by eauto.
  clear E. revert Hr. unfold extract_renewal_entries.
  destruct (search block_pattern text) as [m|] eqn:Em; [| intros [? ?]; discriminate].
  destruct (emap amount_of_line (amount_lines_of (block_lines (group 0 m))))
    as [amounts|e'] eqn:Ea; [intros [? ?]; discriminate |].
  intros _. apply emap_raise in Ea as (line & Hl & Hf).
  destruct (proj1 (amount_of_line_raises line) (ex_intro _ e' Hf)) as (tok & Ht & Hc).
  apply (comma_free_no_comma_token (fix_ocr_numbers line) tok); [| exact Ht | exact Hc].
  unfold comma_free. rewrite fix_ocr_numbers_map, sforall_smap.
  assert (Hline : sforall (neg (is_char ",")) line = true).
  { apply search_from_sound in Em as (pre & w & Hs & _ & Hg & _).
    unfold group in Hl. rewrite Hg in Hl.
    assert (Hw : sforall (neg (is_char ",")) w = true).
    { unfold comma_free in Hfree. rewrite Hs, !sforall_app in Hfree.
      apply andb_true_iff in Hfree as [_ Hfree]. now apply andb_true_iff in Hfree as [Hfree _]. }
    pose proof (stripped_pieces_class _ w Hw) as H. fold (block_lines w) in H.
    rewrite Forall_forall in H. apply H.
    unfold amount_lines_of in Hl. apply list_elem_of_lookup in Hl as [i Hi].
    rewrite lookup_drop in Hi. eapply list_elem_of_lookup_2; eauto. }
  eapply sforall_impl; [| exact Hline]. apply fix_char_comma.
Qed.

Lemma extract_total_earning_ok (text : string) :
  exists v, extract_total_earning text = Ok v.
Proof.
  unfold extract_total_earning. destruct (search total_pattern text); [| eauto].
  destruct (clean_money_whole (group 1 r)) as (v & Hv & _). eauto.
Qed.

Lemma extract_renewal_premium_ok (text : string) :
  exists v, extract_renewal_premium text = Ok v.
Proof.
  unfold extract_renewal_premium. destruct (search renewal_premium_pattern text); [| eauto].
  destruct (clean_money_whole (group 1 r)) as (v & Hv & _). eauto.
Qed.

(** X23.  On a text without a comma the renewal notice parser returns a
    record, and so does [parse_document] with the tag "renewal_notice": the
    unguarded [float] of the amount lines fails on no token. *)
Theorem parse_renewal_notice_text_comma_free (raw_text default : string) :
  comma_free raw_text ->
  exists r,
    parse_renewal_notice_text raw_text default = Ok r
    /\ uploaded_by r = default
    /\ (default = "" ->
        DocumentParser.parse_document raw_text "renewal_notice"
        = Ok (DocumentParser.RenewalNoticeRecord r)).
Proof.
  intros Hfree.
  assert (Htext : comma_free (normalize_ocr_text raw_text))
    by (apply normalize_ocr_text_class; [reflexivity | reflexivity | exact Hfree]).
  assert (H : exists r, parse_renewal_notice_text raw_text default = Ok r
                        /\ uploaded_by r = default).
  { unfold parse_renewal_notice_text.
    destruct (extract_renewal_entries_comma_free _ Htext) as [entries ->]. simpl.
    destruct (extract_total_earning_ok (normalize_ocr_text raw_text)) as [t ->]. simpl.
    destruct (extract_renewal_premium_ok (normalize_ocr_text raw_text)) as [p ->]. simpl.
    eexists. split; reflexivity. }
  destruct H as (r & Hr & Hu). exists r. split; [exact Hr |]. split; [exact Hu |].
  intros ->. unfold DocumentParser.parse_document.
  cbn [String.eqb Ascii.eqb Bool.eqb]. now rewrite Hr.
Qed.

Lemma parse_renewal_notice_text_comma_free_witness :
  comma_free ("EMPLOYEES" +:+ NL +:+ "1. Clerk 2. Driver" +:+ NL +:+ "1200 3400" +:+ NL +:+ "TOTAL")
  /\ exists r,
       parse_renewal_notice_text
         ("EMPLOYEES" +:+ NL +:+ "1. Clerk 2. Driver" +:+ NL +:+ "1200 3400" +:+ NL +:+ "TOTAL")
         "clerk" = Ok r
       /\ uploaded_by r = "clerk".
Proof.
  assert (H : comma_free ("EMPLOYEES" +:+ NL +:+ "1. Clerk 2. Driver" +:+ NL +:+ "1200 3400"
                          +:+ NL +:+ "TOTAL")) by (vm_compute; reflexivity).
  split; [exact H |].
  destruct (parse_renewal_notice_text_comma_free _ "clerk" H) as (r & Hr & Hu & _).
  exists r. split; [exact Hr | exact Hu].
Defined.

End RenewalFacts.

(* ===================================================================== *)
(** ** The upload filter *)
(* ===================================================================== *)

Module AppFacts.
Import Py Re Spec Props StringFacts ReFacts ScanFacts NumFacts TextFacts App.

Lemma contains_char (a : ascii) (s : string) :
  contains (String a "") s = false <-> sforall (fun c => negb (Ascii.eqb c a)) s = true.
Proof.
  induction s as [|c s IH]; simpl; [split; reflexivity |].
  rewrite orb_false_iff, andb_true_iff, IH, andb_true_r, negb_true_iff.
  rewrite (Ascii.eqb_sym a c). reflexivity.
Qed.

(** The two outcomes of [rsplit] with one split. *)
Lemma rsplit1_cases (sep : ascii) (s : string) :
  (rsplit1 sep s = [s] /\ contains (String sep "") s = false)
  \/ (exists stem ext,
        rsplit1 sep s = [stem; ext] /\ s = stem +:+ String sep ext
        /\ contains (String sep "") ext = false).
Proof.
  unfold rsplit1.
  destruct (span (fun c => negb (Ascii.eqb c sep)) (srev s)) as [after before] eqn:E.
  destruct (span_spec _ _ _ _ E) as (Hs & Ha & Hb).
  destruct before as [|d before].
  - left. split; [reflexivity |]. apply contains_char.
    rewrite append_nil_r in Hs. rewrite <- Hs in Ha. now rewrite sforall_srev in Ha.
  - right. exists (srev before), (srev after).
    apply negb_false_iff, Ascii.eqb_eq in Hb. subst d.
    split; [reflexivity |]. split.
    + rewrite <- (srev_involutive s), Hs.
      change (String sep before) with (String sep "" +:+ before).
      rewrite !srev_app, append_assoc. reflexivity.
    + apply contains_char. now rewrite sforall_srev.
Qed.

(** The text after the last separator is determined by the text. *)
Lemma last_part_unique (sep : ascii) (a b a' b' : string) :
  a +:+ String sep b = a' +:+ String sep b' ->
  contains (String sep "") b = false -> contains (String sep "") b' = false ->
  b = b'.
Proof.
  intros E Hb Hb'. apply contains_char in Hb, Hb'.
  apply (f_equal srev) in E.
  change (String sep b) with (String sep "" +:+ b) in E.
  change (String sep b') with (String sep "" +:+ b') in E.
  rewrite !srev_app in E. rewrite !append_assoc in E.
  apply (f_equal (span (fun c => negb (Ascii.eqb c sep)))) in E.
  rewrite !span_stop in E;
    try (now rewrite sforall_srev); try (simpl; now rewrite Ascii.eqb_refl).
  injection E as E _. apply (f_equal srev) in E. now rewrite !srev_involutive in E.
Qed.

(** X24.  [allowed_file] never raises, and it accepts a file name exactly
    when the name has a point and the text after its last point, in small
    letters, is pdf, docx, xlsx or txt; a name without a point and the
    empty name are refused. *)
Theorem allowed_file_spec (filename : string) :
  exists b,
    allowed_file filename = Ok b
    /\ (b = true
        <-> exists stem ext,
              filename = stem +:+ "." +:+ ext /\ contains "." ext = false
              /\ lower ext ∈ ALLOWED_EXTENSIONS).
Proof.
  unfold allowed_file. destruct (is_empty filename) eqn:Hemp.
  { exists false. split; [reflexivity |]. split; [discriminate |].
    intros (stem & ext & -> & _). destruct stem; discriminate Hemp. }
  destruct (rsplit1_cases "." filename) as [[Er Hc] | (stem & ext & Er & Es & Hc)].
  - rewrite Hc. simpl. exists false. split; [reflexivity |]. split; [discriminate |].
    intros (stem & ext & E & _). exfalso.
    assert (Ho : contains "." filename = true)
      by (apply contains_spec; exists stem, ext; exact E).
    congruence.
  - assert (Ho : contains "." filename = true)
      by (apply contains_spec; exists stem, ext; exact Es).
    rewrite Ho, Er. simpl. eexists. split; [reflexivity |].
    rewrite bool_decide_eq_true. split.
    + intros H. exists stem, ext. auto.
    + intros (stem' & ext' & E' & Hc' & Hin).
      rewrite (last_part_unique "." stem ext stem' ext'); auto. congruence.
Qed.

End AppFacts.

(* ===================================================================== *)
(** ** The list queries *)
(* ===================================================================== *)

Module DbFacts.
Import Py Spec Props StringFacts TextFacts Db.

Lemma count_char_app (a : ascii) (x y : string) :
  count (String a "") (x +:+ y) = count (String a "") x + count (String a "") y.
Proof.
  unfold count. induction x as [|c x IH]; [reflexivity |].
  cbn [String.append count_from String.length Nat.sub].
  destruct (starts_with (String a "") (String c (x +:+ y))) eqn:E1;
    destruct (starts_with (String a "") (String c x)) eqn:E2;
    simpl in E1, E2; rewrite ?andb_true_r in E1, E2; try congruence;
    rewrite IH; reflexivity.
Qed.

Lemma add_filter_unknown (fields : list string) st f :
  ~ known_field fields f -> add_filter fields st f = st.
Proof.
  intros H. unfold add_filter. destruct st as [query params].
  now rewrite bool_decide_eq_false_2.
Qed.

Lemma fold_add_filter_known (fields : list string) (filters : list query_filter) : forall st,
  fold_left (add_filter fields) filters st
  = fold_left (add_filter fields) (filter (known_field fields) filters) st.
Proof.
  induction filters as [|f filters IH]; intros st; [reflexivity |].
  destruct (decide (known_field fields f)) as [Hk | Hk].
  - rewrite filter_cons_True by exact Hk. simpl. apply IH.
  - rewrite filter_cons_False by exact Hk. simpl. rewrite add_filter_unknown by exact Hk.
    apply IH.
Qed.

Lemma fold_add_filter_params (fields : list string) (filters : list query_filter) : forall st,
  length (snd (fold_left (add_filter fields) filters st))
  = length (snd st) + length (filter (known_field fields) filters).
Proof.
  induction filters as [|f filters IH]; intros st; [simpl; lia |].
  simpl. rewrite IH. destruct st as [query params]. unfold add_filter.
  destruct (decide (known_field fields f)) as [Hk | Hk].
  - rewrite filter_cons_True by exact Hk. rewrite bool_decide_eq_true_2 by exact Hk.
    destruct (String.eqb _ _); simpl; rewrite length_app; simpl; lia.
  - rewrite filter_cons_False by exact Hk. rewrite bool_decide_eq_false_2 by exact Hk.
    simpl. lia.
Qed.

Lemma add_filter_balanced (fields : list string) st f :
  Forall (fun x => count "?" x = 0) fields -> plain_op f -> balanced st ->
  balanced (add_filter fields st f).
Proof.
  intros Hfields Hop Hst. destruct st as [query params]. unfold add_filter.
  destruct (bool_decide (f_field f ∈ fields)) eqn:Hk; [| exact Hst].
  apply bool_decide_eq_true in Hk. rewrite Forall_forall in Hfields.
  pose proof (Hfields _ Hk) as Hf. unfold balanced in *. simpl in Hst.
  unfold plain_op in Hop.
  destruct (String.eqb _ _); cbn [fst snd];
    rewrite !count_char_app, length_app, Hf, Hst, ?Hop;
    change (count "?" " AND ") with 0; change (count "?" " LIKE ?") with 1;
    change (count "?" " ") with 0; change (count "?" " ?") with 1;
    cbn [length]; lia.
Qed.

Lemma fold_add_filter_balanced (fields : list string) (filters : list query_filter) :
  Forall (fun x => count "?" x = 0) fields -> Forall plain_op filters ->
  forall st, balanced st -> balanced (fold_left (add_filter fields) filters st).
Proof.
  intros Hfields H. induction H as [|f filters Hf _ IH]; intros st Hst; [exact Hst |].
  simpl. apply IH. now apply add_filter_balanced.
Qed.

(** X25.  In each of the six list queries a filter on a column that is not
    in the list of the table changes neither the statement nor its
    parameters, and there is one parameter for each filter on a listed
    column, after the id of the parent row in the three queries for
    sub-entries. *)
Theorem list_queries_ignore_unknown_fields (filters : list query_filter) (id : Z) :
  (fetch_debit_notes filters
   = fetch_debit_notes (filter (known_field debit_notes_fields) filters)
   /\ length (snd (fetch_debit_notes filters))
      = length (filter (known_field debit_notes_fields) filters))
  /\ (fetch_debit_note_financials id filters
      = fetch_debit_note_financials id
          (filter (known_field debit_note_financials_fields) filters)
      /\ length (snd (fetch_debit_note_financials id filters))
         = 1 + length (filter (known_field debit_note_financials_fields) filters))
  /\ (fetch_account_statements filters
      = fetch_account_statements (filter (known_field account_statements_fields) filters)
      /\ length (snd (fetch_account_statements filters))
         = length (filter (known_field account_statements_fields) filters))
  /\ (fetch_account_statement_entries id filters
      = fetch_account_statement_entries id
          (filter (known_field account_statement_entries_fields) filters)
      /\ length (snd (fetch_account_statement_entries id filters))
         = 1 + length (filter (known_field account_statement_entries_fields) filters))
  /\ (fetch_renewal_notices filters
      = fetch_renewal_notices (filter (known_field renewal_notices_fields) filters)
      /\ length (snd (fetch_renewal_notices filters))
         = length (filter (known_field renewal_notices_fields) filters))
  /\ (fetch_renewal_notice_entries id filters
      = fetch_renewal_notice_entries id
          (filter (known_field renewal_notice_entries_fields) filters)
      /\ length (snd (fetch_renewal_notice_entries id filters))
         = 1 + length (filter (known_field renewal_notice_entries_fields) filters)).
Proof.
  unfold fetch_debit_notes, fetch_debit_note_financials, fetch_account_statements,
    fetch_account_statement_entries, fetch_renewal_notices, fetch_renewal_notice_entries.
  repeat split;
    first [ apply fold_add_filter_known
          | rewrite fold_add_filter_params; reflexivity ].
Qed.

(** X26.  When no operator of a filter holds a question mark, each of the
    six list queries has as many placeholders in its statement as it passes
    parameters, whatever the fields and values of the filters. *)
Theorem list_queries_balanced (filters : list query_filter) (id : Z) :
  Forall plain_op filters ->
  balanced (fetch_debit_notes filters)
  /\ balanced (fetch_debit_note_financials id filters)
  /\ balanced (fetch_account_statements filters)
  /\ balanced (fetch_account_statement_entries id filters)
  /\ balanced (fetch_renewal_notices filters)
  /\ balanced (fetch_renewal_notice_entries id filters).
Proof.
  intros H.
  unfold fetch_debit_notes, fetch_debit_note_financials, fetch_account_statements,
    fetch_account_statement_entries, fetch_renewal_notices, fetch_renewal_notice_entries.
  repeat split;
    (apply fold_add_filter_balanced;
     [repeat constructor | exact H | vm_compute; reflexivity]).
Qed.

Lemma list_queries_balanced_witness :
  Forall plain_op [mk_query_filter "policy_number" "like" "PL-"; mk_query_filter "colour" "=" "red"]
  /\ balanced (fetch_debit_notes
                 [mk_query_filter "policy_number" "like" "PL-";
                  mk_query_filter "colour" "=" "red"]).
Proof.
  assert (H : Forall plain_op [mk_query_filter "policy_number" "like" "PL-";
                               mk_query_filter "colour" "=" "red"])
    by (repeat constructor).
  split; [exact H |].
  exact (proj1 (list_queries_balanced _ 0%Z H)).
Defined.

End DbFacts.
